(** * yourdfpy: a shallow embedding of [src/yourdfpy/urdf.py]

    The development follows the layout of the Python module: the exception
    classes, the filename handlers, the dataclasses of the document model,
    the XML codec, the validator, and the [URDF] object with its
    configuration vector, base-link determination and model splitting.

    Python [float] is IEEE binary64; it is modelled by Rocq's primitive
    floats.  Exceptions are modelled by an error monad; the mutable
    [self._errors] list of the validator by explicit state passing. *)

From Stdlib Require Import List String Ascii Bool Arith ZArith Lia.
From Stdlib Require Import Floats DecimalString.
Import ListNotations.

Open Scope string_scope.
Open Scope list_scope.

(** String concatenation, kept apart from the [++] of lists. *)
Infix "^^" := String.append (at level 60, right associativity) : string_scope.

(* ================================================================== *)
(** * Exceptions and the error monad *)
(* ================================================================== *)

(** The Python exception classes the module can raise: the builtins met on
    its paths and the [URDFError] hierarchy it declares. *)
Inductive exn_class : Type :=
| ValueError
| TypeError
| KeyError
| IndexError
| AttributeError
| UnboundLocalError
| URDFError
| URDFIncompleteError
| URDFAttributeValueError
| URDFBrokenRefError
| URDFMalformedError
| URDFUnsupportedError
| URDFSaveValidationError.

Record exn : Type := Raise { exn_cls : exn_class; exn_msg : string }.

Inductive result (A : Type) : Type :=
| Ok (a : A)
| Err (e : exn).
Arguments Ok {A} a.
Arguments Err {A} e.

Definition bind {A B : Type} (m : result A) (k : A -> result B) : result B :=
  match m with
  | Ok a => k a
  | Err e => Err e
  end.

Definition raise {A : Type} (c : exn_class) (msg : string) : result A :=
  Err (Raise c msg).

Declare Scope py_scope.
Delimit Scope py_scope with py.
Notation "x <- m ;; k" := (bind m (fun x => k))
  (at level 61, m at next level, right associativity) : py_scope.
Notation "' p <- m ;; k" := (bind m (fun p => k))
  (at level 61, p pattern, m at next level, right associativity) : py_scope.
Open Scope py_scope.

Definition is_ok {A : Type} (m : result A) : bool :=
  match m with Ok _ => true | Err _ => false end.

(** [for x in xs: acc = f(acc, x)], stopping at the first exception. *)
Fixpoint foldM {A S : Type} (f : S -> A -> result S) (xs : list A) (s : S)
  : result S :=
  match xs with
  | [] => Ok s
  | x :: xs' => s' <- f s x ;; foldM f xs' s'
  end.

(** [[f(x) for x in xs]], stopping at the first exception. *)
Fixpoint mapM {A B : Type} (f : A -> result B) (xs : list A)
  : result (list B) :=
  match xs with
  | [] => Ok []
  | x :: xs' => y <- f x ;; ys <- mapM f xs' ;; Ok (y :: ys)
  end.

(* ================================================================== *)
(** * Python strings and [os.path] (POSIX flavour) *)
(* ================================================================== *)

Module Py.

(** [repr(n)] / [str(n)] of a non-negative int. *)
Definition str_of_nat (n : nat) : string :=
  NilZero.string_of_uint (Nat.to_uint n).

(** [repr(s)] of a str without quotes or escapes inside. *)
Definition repr (s : string) : string := "'" ^^ s ^^ "'".

Definition startswith (s p : string) : bool := String.prefix p s.

Fixpoint endswith_char (s : string) (c : ascii) : bool :=
  match s with
  | EmptyString => false
  | String a EmptyString => Ascii.eqb a c
  | String _ r => endswith_char r c
  end.

Fixpoint contains_char (c : ascii) (s : string) : bool :=
  match s with
  | EmptyString => false
  | String a r => Ascii.eqb a c || contains_char c r
  end.

(** [s.split(sep)] for a non-empty separator: non-overlapping matches,
    left to right.  [skip] counts the characters of a matched separator
    still to drop, [cur] is the piece under construction. *)
Fixpoint split_go (sep : string) (skip : nat) (cur s : string) : list string :=
  match s with
  | EmptyString => [cur]
  | String c r =>
      match skip with
      | S k => split_go sep k cur r
      | O =>
          if String.prefix sep s
          then cur :: split_go sep (String.length sep - 1) "" r
          else split_go sep 0 (cur ^^ String c "") r
      end
  end.

Definition split (s sep : string) : list string := split_go sep 0 "" s.

(** The characters [str.split()] treats as whitespace.  A string is the
    sequence of its code points, all below 256; among these [str.isspace]
    holds of 9 .. 13, 28 .. 32, 133 (NEL) and 160 (no-break space). *)
Definition is_space (c : ascii) : bool :=
  let n := nat_of_ascii c in
  (Nat.leb 9 n && Nat.leb n 13) || (Nat.leb 28 n && Nat.leb n 32)
  || Nat.eqb n 133 || Nat.eqb n 160.

(** [s.split()]: the maximal runs of non-whitespace characters. *)
Fixpoint split_ws_go (cur s : string) : list string :=
  match s with
  | EmptyString => if String.eqb cur "" then [] else [cur]
  | String c r =>
      if is_space c then
        if String.eqb cur "" then split_ws_go "" r else cur :: split_ws_go "" r
      else split_ws_go (cur ^^ String c "") r
  end.

Definition split_ws (s : string) : list string := split_ws_go "" s.

(** [sep.join(xs)] *)
Definition join (sep : string) (xs : list string) : string :=
  String.concat sep xs.

(** [xs[-1]] on a list known to be non-empty ([str.split] never returns
    the empty list). *)
Definition last_item (xs : list string) : string := List.last xs "".

(** [xs.index(x)]: position of the first occurrence, [ValueError] when
    there is none. *)
Fixpoint index_from (x : string) (xs : list string) (i : nat) : option nat :=
  match xs with
  | [] => None
  | y :: ys => if String.eqb y x then Some i else index_from x ys (S i)
  end.

Definition index (xs : list string) (x : string) : result nat :=
  match index_from x xs 0 with
  | Some i => Ok i
  | None => raise ValueError (repr x ^^ " is not in list")
  end.

End Py.

Module PosixPath.

Definition sep : string := "/".
Definition sep_char : ascii := "/"%char.

(** [p[:p.rfind('/')+1]]: a character is kept while a separator still
    follows or stands at its position. *)
Fixpoint head_part (p : string) : string :=
  match p with
  | EmptyString => EmptyString
  | String c r =>
      if Py.contains_char sep_char p then String c (head_part r) else EmptyString
  end.

(** [p[p.rfind('/')+1:]] *)
Fixpoint tail_part (p : string) : string :=
  match p with
  | EmptyString => EmptyString
  | String c r => if Py.contains_char sep_char p then tail_part r else p
  end.

(** [head == sep*len(head)] *)
Fixpoint all_sep (s : string) : bool :=
  match s with
  | EmptyString => true
  | String c r => Ascii.eqb c sep_char && all_sep r
  end.

(** [head.rstrip(sep)] *)
Fixpoint rstrip_sep (s : string) : string :=
  match s with
  | EmptyString => EmptyString
  | String c r =>
      match rstrip_sep r with
      | EmptyString => if Ascii.eqb c sep_char then EmptyString else String c EmptyString
      | r' => String c r'
      end
  end.

Definition trim_head (head : string) : string :=
  if negb (String.eqb head "") && negb (all_sep head)
  then rstrip_sep head else head.

(** [os.path.split(p)] *)
Definition split (p : string) : string * string :=
  (trim_head (head_part p), tail_part p).

(** [os.path.dirname(p)] *)
Definition dirname (p : string) : string := trim_head (head_part p).

(** [os.path.join(a, b)] *)
Definition join (a b : string) : string :=
  if Py.startswith b sep then b
  else if String.eqb a "" || Py.endswith_char a sep_char then a ^^ b
  else a ^^ sep ^^ b.

(** The loop of [os.path.normpath] over the components. *)
Fixpoint normpath_comps (initial_slashes : nat) (comps new_comps : list string)
  : list string :=
  match comps with
  | [] => new_comps
  | comp :: rest =>
      if String.eqb comp "" || String.eqb comp "." then
        normpath_comps initial_slashes rest new_comps
      else if negb (String.eqb comp "..")
              || (Nat.eqb initial_slashes 0 && Nat.eqb (List.length new_comps) 0)
              || (negb (Nat.eqb (List.length new_comps) 0)
                  && String.eqb (List.last new_comps "") "..")
      then normpath_comps initial_slashes rest (new_comps ++ [comp])
      else normpath_comps initial_slashes rest (List.removelast new_comps)
  end.

Fixpoint repeat_sep (n : nat) : string :=
  match n with O => "" | S k => sep ^^ repeat_sep k end.

(** [os.path.normpath(path)] *)
Definition normpath (path : string) : string :=
  if String.eqb path "" then "."
  else
    let initial_slashes :=
      if Py.startswith path "/" then
        if Py.startswith path "//" && negb (Py.startswith path "///")
        then 2 else 1
      else 0 in
    let comps := normpath_comps initial_slashes (Py.split path "/") [] in
    let path' := repeat_sep initial_slashes ^^ Py.join "/" comps in
    if String.eqb path' "" then "." else path'.

End PosixPath.

(* ================================================================== *)
(** * Filename handlers *)
(* ================================================================== *)

Definition filename_handler_null (fname : string) : string := fname.

Definition filename_handler_ignore_directive (fname : string) : string :=
  Py.last_item (Py.split fname (":" ^^ PosixPath.sep ^^ PosixPath.sep)).

Definition filename_handler_ignore_directive_package (fname : string) : string :=
  if Py.startswith fname "package:" then
    Py.join PosixPath.sep
      (List.tl (Py.split
                  (Py.last_item (Py.split fname (":" ^^ PosixPath.sep ^^ PosixPath.sep)))
                  PosixPath.sep))
  else filename_handler_ignore_directive fname.

Definition filename_handler_add_prefix (fname prefix : string) : string :=
  prefix ^^ fname.

Definition filename_handler_absolute2relative (fname dir : string) : string :=
  if Py.startswith fname dir
  then String.substring (String.length dir) (String.length fname - String.length dir) fname
  else fname.

Definition filename_handler_relative (fname dir : string) : string :=
  PosixPath.join dir (filename_handler_ignore_directive_package fname).

Definition filename_handler_relative_to_urdf_file (fname urdf_fname : string) : string :=
  filename_handler_relative fname (PosixPath.dirname urdf_fname).

Fixpoint filename_handler_relative_to_urdf_file_recursive
  (fname urdf_fname : string) (level : nat) : string :=
  match level with
  | O => filename_handler_relative_to_urdf_file fname urdf_fname
  | S level' =>
      filename_handler_relative_to_urdf_file_recursive
        fname (fst (PosixPath.split urdf_fname)) level'
  end.

Definition _create_filename_handlers_to_urdf_file_recursive (urdf_fname : string)
  : list (string -> string) :=
  List.map
    (fun i fname => filename_handler_relative_to_urdf_file_recursive fname urdf_fname i)
    (List.seq 0 (List.length (Py.split (PosixPath.normpath urdf_fname) PosixPath.sep))).

Section Filesystem.

(** The backing filesystem, as far as the module looks at it:
    [os.path.isfile]. *)
Variable isfile : string -> bool.

Fixpoint filename_handler_meta (fname : string)
  (filename_handlers : list (string -> string)) : string :=
  match filename_handlers with
  | [] => fname
  | fn :: rest =>
      let candidate_fname := fn fname in
      if isfile candidate_fname then candidate_fname
      else filename_handler_meta fname rest
  end.

Definition filename_handler_magic (fname dir : string) : string :=
  filename_handler_meta fname
    ((fun fname => filename_handler_relative fname dir)
       :: _create_filename_handlers_to_urdf_file_recursive dir).

End Filesystem.

(* ================================================================== *)
(** * The document model (the dataclasses) *)
(* ================================================================== *)

(** Python [float]. *)
Definition float : Type := PrimFloat.float.

(** 4x4 homogeneous transforms are produced and consumed by numpy and
    [trimesh.transformations]; the module only builds them, so they are kept
    as the terms of the calls it makes. *)
Inductive matrix : Type :=
| np_eye4
| np_matmul (a b : matrix)
| tra_rotation_matrix (angle : float) (direction : list float)
| tra_translation_matrix (direction : list float)
| tra_compose_matrix (translate angles : list float).

(** A value that is either a Python [str] or a [float]: what
    [xml_element.get(key, default)] yields when the default is a float. *)
Inductive str_or_float : Type :=
| PyStr (s : string)
| PyFloat (f : float).

Module Calibration.
Record t : Type := mk { rising : option float; falling : option float }.
End Calibration.

Module Mimic.
Record t : Type := mk {
  joint : option string;
  multiplier : option float;
  offset : option float }.
End Mimic.

Module SafetyController.
Record t : Type := mk {
  soft_lower_limit : option float;
  soft_upper_limit : option float;
  k_position : option float;
  k_velocity : option float }.
End SafetyController.

Module Sphere.
Record t : Type := mk { radius : float }.
End Sphere.

Module Cylinder.
Record t : Type := mk { radius : float; length : float }.
End Cylinder.

(** The dataclass declares an array; [_parse_box] stores the split
    attribute text, so the entries are floats or strings. *)
Module Box.
Record t : Type := mk { size : list str_or_float }.
End Box.

Inductive mesh_scale : Type :=
| ScaleFloat (s : float)
| ScaleArray (s : list float).

Module Mesh.
Record t : Type := mk { filename : option string; scale : option mesh_scale }.
End Mesh.

Module Geometry.
Record t : Type := mk {
  box : option Box.t;
  cylinder : option Cylinder.t;
  sphere : option Sphere.t;
  mesh : option Mesh.t }.
End Geometry.

Module Color.
Record t : Type := mk { rgba : list float }.
End Color.

Module Texture.
Record t : Type := mk { filename : option string }.
End Texture.

Module Material.
Record t : Type := mk { color : option Color.t; texture : option Texture.t }.
End Material.

Module Visual.
Record t : Type := mk {
  name : option string;
  origin : option matrix;
  geometry : option Geometry.t;
  material : option Material.t }.
End Visual.

Module Collision.
Record t : Type := mk {
  name : option string;
  origin : option matrix;
  geometry : option Geometry.t }.
End Collision.

(** [_parse_mass] and [_parse_inertia] keep the attribute text (or the float
    default); numpy's coercion of the nested list does not change what
    [str] later prints from an entry. *)
Module Inertial.
Record t : Type := mk {
  origin : option matrix;
  mass : option str_or_float;
  inertia : option (list (list str_or_float)) }.
End Inertial.

Module Link.
Record t : Type := mk {
  name : string;
  inertial : option Inertial.t;
  visuals : list Visual.t;
  collisions : list Collision.t }.
End Link.

(** The dataclass declares floats; [_parse_dynamics] stores the attribute
    text unconverted, so a field holds a float or a string. *)
Module Dynamics.
Record t : Type := mk {
  damping : option str_or_float;
  friction : option str_or_float }.
End Dynamics.

Module Limit.
Record t : Type := mk {
  effort : option float;
  velocity : option float;
  lower : option float;
  upper : option float }.
End Limit.

Module Joint.
Record t : Type := mk {
  name : string;
  type : option string;
  parent : option string;
  child : option string;
  origin : option matrix;
  axis : option (list float);
  dynamics : option Dynamics.t;
  limit : option Limit.t;
  mimic : option Mimic.t;
  calibration : option Calibration.t;
  safety_controller : option SafetyController.t }.
End Joint.

Module Robot.
Record t : Type := mk {
  name : string;
  links : list Link.t;
  joints : list Joint.t;
  transmission : list string;
  gazebo : list string }.
End Robot.

(** [Joint(name=n, type=ty, parent=p, child=c)]: the other fields at their
    dataclass defaults. *)
Definition Joint_default (n : string) (ty p c : option string) : Joint.t :=
  Joint.mk n ty p c None None None None None None None.

(** [Link(name=n)] *)
Definition Link_default (n : string) : Link.t := Link.mk n None [] [].

(** [Robot(name=n)] *)
Definition Robot_default (n : string) : Robot.t := Robot.mk n [] [] [] [].

Definition option_str_eqb (a : option string) (b : string) : bool :=
  match a with Some s => String.eqb s b | None => false end.

Definition is_some {A : Type} (o : option A) : bool :=
  match o with Some _ => true | None => false end.

(* ================================================================== *)
(** * XML element trees (the part of lxml's API the codec uses) *)
(* ================================================================== *)

#[warnings="-register-all"]
Inductive element : Type :=
| Element (tag : string) (attrib : list (string * string)) (children : list element).

Module Xml.

Definition tag (e : element) : string :=
  match e with Element t _ _ => t end.

Definition attrib (e : element) : list (string * string) :=
  match e with Element _ a _ => a end.

Definition children (e : element) : list element :=
  match e with Element _ _ c => c end.

Fixpoint lookup (key : string) (a : list (string * string)) : option string :=
  match a with
  | [] => None
  | (k, v) :: rest => if String.eqb k key then Some v else lookup key rest
  end.

(** [xml_element.get(key)] *)
Definition get (e : element) (key : string) : option string :=
  lookup key (attrib e).

(** [xml_element.get(key, default)] with a string default *)
Definition get_default (e : element) (key default : string) : string :=
  match get e key with Some v => v | None => default end.

(** [xml_element.get(key, default)] with a float default *)
Definition get_or_float (e : element) (key : string) (default : float) : str_or_float :=
  match get e key with Some v => PyStr v | None => PyFloat default end.

(** [xml_element.attrib[key]] *)
Definition attrib_getitem (e : element) (key : string) : result string :=
  match get e key with
  | Some v => Ok v
  | None => raise KeyError (Py.repr key)
  end.

(** [xml_element.find(tag)] *)
Definition find (e : element) (t : string) : option element :=
  List.find (fun c => String.eqb (tag c) t) (children e).

(** [xml_element.findall(tag)] *)
Definition findall (e : element) (t : string) : list element :=
  List.filter (fun c => String.eqb (tag c) t) (children e).

(** [xml_element[0]] where [xml_element] may be [None] *)
Definition first_child (e : option element) : result element :=
  match e with
  | None => raise TypeError "'NoneType' object is not subscriptable"
  | Some e' =>
      match children e' with
      | c :: _ => Ok c
      | [] => raise IndexError "list index out of range"
      end
  end.

(** [xml_element.get(key)] where [xml_element] may be [None] *)
Definition get_of_optional (e : option element) (key : string) : result (option string) :=
  match e with
  | None => raise AttributeError "'NoneType' object has no attribute 'get'"
  | Some e' => Ok (get e' key)
  end.

(** An attribute value handed to lxml must be a string. *)
Definition attr_value (v : option string) : result string :=
  match v with
  | Some s => Ok s
  | None => raise TypeError "Argument must be bytes or unicode, got 'NoneType'"
  end.

End Xml.

(* ================================================================== *)
(** * The XML codec: [_parse_*] and [_write_*] *)
(* ================================================================== *)

Section Codec.

(** Python's [float(s)] on text ([None]: the text is no float literal) and
    [str(x)] on a float. *)
Variable float_of_str : string -> option float.
Variable str_of_float : float -> string.

(** [trimesh.transformations]: the decompositions used when writing. *)
Variable tra_translation_from_matrix : matrix -> list float.
Variable tra_euler_from_matrix : matrix -> list float.

(** [self._filename_handler] on a file name, and what the call
    [self._filename_handler(None)] gives: the exception the handler raises,
    or the value it returns, [None] standing for a value that is no
    string. *)
Variable self_filename_handler : string -> string.
Variable self_filename_handler_none : result (option string).

(** [float(s)] *)
Definition py_float (s : str_or_float) : result float :=
  match s with
  | PyFloat f => Ok f
  | PyStr t =>
      match float_of_str t with
      | Some f => Ok f
      | None => raise ValueError ("could not convert string to float: " ^^ Py.repr t)
      end
  end.

(** [str(x)] *)
Definition py_str (x : str_or_float) : string :=
  match x with
  | PyStr s => s
  | PyFloat f => str_of_float f
  end.

(** [str(x)] where [x] may be [None] *)
Definition py_str_opt (x : option float) : string :=
  match x with
  | Some f => str_of_float f
  | None => "None"
  end.

Definition _str2float (s : option str_or_float) : result (option float) :=
  match s with
  | Some t => f <- py_float t ;; Ok (Some f)
  | None => Ok None
  end.

Definition opt_str (s : option string) : option str_or_float :=
  match s with Some t => Some (PyStr t) | None => None end.

(** [list(map(float, text.split()))] *)
Definition floats_of_text (text : string) : result (list float) :=
  mapM (fun t => py_float (PyStr t)) (Py.split_ws text).

(** [" ".join(map(str, xs))] *)
Definition text_of_floats (xs : list float) : string :=
  Py.join " " (List.map str_of_float xs).

Definition _parse_mimic (xml_element : option element) : result (option Mimic.t) :=
  match xml_element with
  | None => Ok None
  | Some e =>
      multiplier <- _str2float (Some (Xml.get_or_float e "multiplier" 1.0%float)) ;;
      offset <- _str2float (Some (Xml.get_or_float e "offset" 0.0%float)) ;;
      Ok (Some (Mimic.mk (Xml.get e "joint") multiplier offset))
  end.

Definition _write_mimic (mimic : Mimic.t) : result (list element) :=
  joint <- Xml.attr_value (Mimic.joint mimic) ;;
  Ok [Element "mimic"
        [("joint", joint);
         ("multiplier", py_str_opt (Mimic.multiplier mimic));
         ("offset", py_str_opt (Mimic.offset mimic))] []].

Definition _parse_safety_controller (xml_element : option element)
  : result (option SafetyController.t) :=
  match xml_element with
  | None => Ok None
  | Some e =>
      soft_lower_limit <- _str2float (opt_str (Xml.get e "soft_lower_limit")) ;;
      soft_upper_limit <- _str2float (opt_str (Xml.get e "soft_upper_limit")) ;;
      k_position <- _str2float (opt_str (Xml.get e "k_position")) ;;
      k_velocity <- _str2float (opt_str (Xml.get e "k_velocity")) ;;
      Ok (Some (SafetyController.mk soft_lower_limit soft_upper_limit k_position k_velocity))
  end.

Definition _write_safety_controller (safety_controller : SafetyController.t)
  : list element :=
  [Element "safety_controller"
     [("soft_lower_limit", py_str_opt (SafetyController.soft_lower_limit safety_controller));
      ("soft_upper_limit", py_str_opt (SafetyController.soft_upper_limit safety_controller));
      ("k_position", py_str_opt (SafetyController.k_position safety_controller));
      ("k_velocity", py_str_opt (SafetyController.k_velocity safety_controller))] []].

Definition _parse_calibration (xml_element : option element)
  : result (option Calibration.t) :=
  match xml_element with
  | None => Ok None
  | Some e =>
      rising <- _str2float (opt_str (Xml.get e "rising")) ;;
      falling <- _str2float (opt_str (Xml.get e "falling")) ;;
      Ok (Some (Calibration.mk rising falling))
  end.

Definition _write_calibration (calibration : Calibration.t) : list element :=
  [Element "calibration"
     [("rising", py_str_opt (Calibration.rising calibration));
      ("falling", py_str_opt (Calibration.falling calibration))] []].

Definition _parse_box (xml_element : element) : result Box.t :=
  size <- Xml.attrib_getitem xml_element "size" ;;
  Ok (Box.mk (List.map PyStr (Py.split_ws size))).

Definition _write_box (box : Box.t) : list element :=
  [Element "box" [("size", Py.join " " (List.map py_str (Box.size box)))] []].

Definition _parse_cylinder (xml_element : element) : result Cylinder.t :=
  r <- Xml.attrib_getitem xml_element "radius" ;;
  radius <- py_float (PyStr r) ;;
  l <- Xml.attrib_getitem xml_element "length" ;;
  length <- py_float (PyStr l) ;;
  Ok (Cylinder.mk radius length).

Definition _write_cylinder (cylinder : Cylinder.t) : list element :=
  [Element "cylinder"
     [("radius", str_of_float (Cylinder.radius cylinder));
      ("length", str_of_float (Cylinder.length cylinder))] []].

Definition _parse_sphere (xml_element : element) : result Sphere.t :=
  r <- Xml.attrib_getitem xml_element "radius" ;;
  radius <- py_float (PyStr r) ;;
  Ok (Sphere.mk radius).

Definition _write_sphere (sphere : Sphere.t) : list element :=
  [Element "sphere" [("radius", str_of_float (Sphere.radius sphere))] []].

Definition _parse_scale (xml_element : element) : result (option mesh_scale) :=
  match Xml.get xml_element "scale" with
  | Some text =>
      match Py.split_ws text with
      | [] => Ok None
      | [s0] => f <- py_float (PyStr s0) ;; Ok (Some (ScaleFloat f))
      | s => fs <- mapM (fun t => py_float (PyStr t)) s ;; Ok (Some (ScaleArray fs))
      end
  | None => Ok None
  end.

(** The attribute [_write_scale] sets on the mesh element, if any. *)
Definition _write_scale (scale : option mesh_scale) : list (string * string) :=
  match scale with
  | None => []
  | Some (ScaleFloat f) => [("scale", Py.join " " (List.repeat (str_of_float f) 3))]
  | Some (ScaleArray fs) => [("scale", text_of_floats fs)]
  end.

Definition _parse_mesh (xml_element : element) : result Mesh.t :=
  scale <- _parse_scale xml_element ;;
  Ok (Mesh.mk (Xml.get xml_element "filename") scale).

Definition _write_mesh (mesh : Mesh.t) : result (list element) :=
  filename <-
    match Mesh.filename mesh with
    | Some fname => Ok (self_filename_handler fname)
    | None => returned <- self_filename_handler_none ;; Xml.attr_value returned
    end ;;
  Ok [Element "mesh" (("filename", filename) :: _write_scale (Mesh.scale mesh)) []].

Definition _parse_geometry (xml_element : option element) : result Geometry.t :=
  first <- Xml.first_child xml_element ;;
  if String.eqb (Xml.tag first) "box" then
    box <- _parse_box first ;; Ok (Geometry.mk (Some box) None None None)
  else if String.eqb (Xml.tag first) "cylinder" then
    cylinder <- _parse_cylinder first ;; Ok (Geometry.mk None (Some cylinder) None None)
  else if String.eqb (Xml.tag first) "sphere" then
    sphere <- _parse_sphere first ;; Ok (Geometry.mk None None (Some sphere) None)
  else if String.eqb (Xml.tag first) "mesh" then
    mesh <- _parse_mesh first ;; Ok (Geometry.mk None None None (Some mesh))
  else raise ValueError ("Unknown tag: " ^^ Xml.tag first).

Definition _write_geometry (geometry : option Geometry.t) : result (list element) :=
  match geometry with
  | None => Ok []
  | Some g =>
      shape <-
        match Geometry.box g, Geometry.cylinder g, Geometry.sphere g, Geometry.mesh g with
        | Some box, _, _, _ => Ok (_write_box box)
        | None, Some cylinder, _, _ => Ok (_write_cylinder cylinder)
        | None, None, Some sphere, _ => Ok (_write_sphere sphere)
        | None, None, None, Some mesh => _write_mesh mesh
        | None, None, None, None => Ok []
        end ;;
      Ok [Element "geometry" [] shape]
  end.

Definition _parse_origin (xml_element : option element) : result (option matrix) :=
  match xml_element with
  | None => Ok None
  | Some e =>
      translate <- floats_of_text (Xml.get_default e "xyz" "0 0 0") ;;
      angles <- floats_of_text (Xml.get_default e "rpy" "0 0 0") ;;
      Ok (Some (tra_compose_matrix translate angles))
  end.

Definition _write_origin (origin : option matrix) : list element :=
  match origin with
  | None => []
  | Some m =>
      [Element "origin"
         [("xyz", text_of_floats (tra_translation_from_matrix m));
          ("rpy", text_of_floats (tra_euler_from_matrix m))] []]
  end.

Definition _parse_color (xml_element : option element) : result (option Color.t) :=
  match xml_element with
  | None => Ok None
  | Some e =>
      rgba <- floats_of_text (Xml.get_default e "rgba" "1 1 1 1") ;;
      Ok (Some (Color.mk rgba))
  end.

Definition _write_color (color : option Color.t) : list element :=
  match color with
  | None => []
  | Some c => [Element "color" [("rgba", text_of_floats (Color.rgba c))] []]
  end.

Definition _parse_texture (xml_element : option element) : option Texture.t :=
  match xml_element with
  | None => None
  | Some e => Some (Texture.mk (Xml.get e "filename"))
  end.

Definition _write_texture (texture : option Texture.t) : result (list element) :=
  match texture with
  | None => Ok []
  | Some t =>
      filename <- Xml.attr_value (Texture.filename t) ;;
      Ok [Element "texture" [("filename", filename)] []]
  end.

Definition _parse_material (xml_element : option element) : result (option Material.t) :=
  match xml_element with
  | None => Ok None
  | Some e =>
      color <- _parse_color (Xml.find e "color") ;;
      Ok (Some (Material.mk color (_parse_texture (Xml.find e "texture"))))
  end.

Definition _write_material (material : option Material.t) : result (list element) :=
  match material with
  | None => Ok []
  | Some m =>
      texture <- _write_texture (Material.texture m) ;;
      Ok [Element "material" [] (_write_color (Material.color m) ++ texture)]
  end.

Definition _parse_visual (xml_element : element) : result Visual.t :=
  geometry <- _parse_geometry (Xml.find xml_element "geometry") ;;
  origin <- _parse_origin (Xml.find xml_element "origin") ;;
  material <- _parse_material (Xml.find xml_element "material") ;;
  Ok (Visual.mk (Xml.get xml_element "name") origin (Some geometry) material).

Definition _write_visual (visual : Visual.t) : result (list element) :=
  geometry <- _write_geometry (Visual.geometry visual) ;;
  material <- _write_material (Visual.material visual) ;;
  Ok [Element "visual" [] (geometry ++ _write_origin (Visual.origin visual) ++ material)].

Definition _parse_collision (xml_element : element) : result Collision.t :=
  geometry <- _parse_geometry (Xml.find xml_element "geometry") ;;
  origin <- _parse_origin (Xml.find xml_element "origin") ;;
  Ok (Collision.mk (Xml.get xml_element "name") origin (Some geometry)).

Definition _write_collision (collision : Collision.t) : result (list element) :=
  geometry <- _write_geometry (Collision.geometry collision) ;;
  Ok [Element "collision" [] (geometry ++ _write_origin (Collision.origin collision))].

Definition _parse_inertia (xml_element : option element)
  : option (list (list str_or_float)) :=
  match xml_element with
  | None => None
  | Some x =>
      Some [[Xml.get_or_float x "ixx" 1.0%float;
             Xml.get_or_float x "ixy" 0.0%float;
             Xml.get_or_float x "ixz" 0.0%float];
            [Xml.get_or_float x "ixy" 0.0%float;
             Xml.get_or_float x "iyy" 1.0%float;
             Xml.get_or_float x "iyz" 0.0%float];
            [Xml.get_or_float x "ixz" 0.0%float;
             Xml.get_or_float x "iyz" 0.0%float;
             Xml.get_or_float x "izz" 1.0%float]]
  end.

(** [str(inertia[i, j])] *)
Definition inertia_entry (inertia : list (list str_or_float)) (i j : nat)
  : result string :=
  match List.nth_error inertia i with
  | None => raise IndexError "index out of bounds"
  | Some row =>
      match List.nth_error row j with
      | None => raise IndexError "index out of bounds"
      | Some x => Ok (py_str x)
      end
  end.

Definition _write_inertia (inertia : option (list (list str_or_float)))
  : result (list element) :=
  match inertia with
  | None => Ok []
  | Some m =>
      ixx <- inertia_entry m 0 0 ;;
      ixy <- inertia_entry m 0 1 ;;
      ixz <- inertia_entry m 0 2 ;;
      iyy <- inertia_entry m 1 1 ;;
      iyz <- inertia_entry m 1 2 ;;
      izz <- inertia_entry m 2 2 ;;
      Ok [Element "inertia"
            [("ixx", ixx); ("ixy", ixy); ("ixz", ixz);
             ("iyy", iyy); ("iyz", iyz); ("izz", izz)] []]
  end.

Definition _parse_mass (xml_element : option element) : option str_or_float :=
  match xml_element with
  | None => None
  | Some e => Some (Xml.get_or_float e "value" 1.0%float)
  end.

Definition _write_mass (mass : option str_or_float) : list element :=
  match mass with
  | None => []
  | Some m => [Element "mass" [("value", py_str m)] []]
  end.

Definition _parse_inertial (xml_element : option element) : result (option Inertial.t) :=
  match xml_element with
  | None => Ok None
  | Some e =>
      origin <- _parse_origin (Xml.find e "origin") ;;
      Ok (Some (Inertial.mk origin
                  (_parse_mass (Xml.find e "mass"))
                  (_parse_inertia (Xml.find e "inertia"))))
  end.

Definition _write_inertial (inertial : option Inertial.t) : result (list element) :=
  match inertial with
  | None => Ok []
  | Some i =>
      inertia <- _write_inertia (Inertial.inertia i) ;;
      Ok [Element "inertial" []
            (_write_origin (Inertial.origin i) ++ _write_mass (Inertial.mass i) ++ inertia)]
  end.

Definition _parse_link (xml_element : element) : result Link.t :=
  name <- Xml.attrib_getitem xml_element "name" ;;
  inertial <- _parse_inertial (Xml.find xml_element "inertial") ;;
  visuals <- mapM _parse_visual (Xml.findall xml_element "visual") ;;
  collisions <- mapM _parse_collision (Xml.findall xml_element "collision") ;;
  Ok (Link.mk name inertial visuals collisions).

Definition _write_link (link : Link.t) : result (list element) :=
  inertial <- _write_inertial (Link.inertial link) ;;
  visuals <- mapM _write_visual (Link.visuals link) ;;
  collisions <- mapM _write_collision (Link.collisions link) ;;
  Ok [Element "link" [("name", Link.name link)]
        (inertial ++ List.concat visuals ++ List.concat collisions)].

Definition _parse_axis (xml_element : option element) : result (list float) :=
  match xml_element with
  | None => Ok [1.0%float; 0%float; 0%float]
  | Some e => floats_of_text (Xml.get_default e "xyz" "1 0 0")
  end.

Definition _write_axis (axis : option (list float)) : list element :=
  match axis with
  | None => []
  | Some a => [Element "axis" [("xyz", text_of_floats a)] []]
  end.

Definition _parse_limit (xml_element : option element) : result (option Limit.t) :=
  match xml_element with
  | None => Ok None
  | Some e =>
      effort <- _str2float (opt_str (Xml.get e "effort")) ;;
      velocity <- _str2float (opt_str (Xml.get e "velocity")) ;;
      lower <- _str2float (opt_str (Xml.get e "lower")) ;;
      upper <- _str2float (opt_str (Xml.get e "upper")) ;;
      Ok (Some (Limit.mk effort velocity lower upper))
  end.

(** [if x is not None: attrib[key] = str(x)] *)
Definition opt_attr (key : string) (x : option string) : list (string * string) :=
  match x with
  | Some s => [(key, s)]
  | None => []
  end.

Definition _write_limit (limit : option Limit.t) : list element :=
  match limit with
  | None => []
  | Some l =>
      [Element "limit"
         (opt_attr "effort" (option_map str_of_float (Limit.effort l))
          ++ opt_attr "velocity" (option_map str_of_float (Limit.velocity l))
          ++ opt_attr "lower" (option_map str_of_float (Limit.lower l))
          ++ opt_attr "upper" (option_map str_of_float (Limit.upper l))) []]
  end.

Definition _parse_dynamics (xml_element : option element) : option Dynamics.t :=
  match xml_element with
  | None => None
  | Some e =>
      Some (Dynamics.mk (opt_str (Xml.get e "damping")) (opt_str (Xml.get e "friction")))
  end.

Definition _write_dynamics (dynamics : option Dynamics.t) : list element :=
  match dynamics with
  | None => []
  | Some d =>
      [Element "dynamics"
         (opt_attr "damping" (option_map py_str (Dynamics.damping d))
          ++ opt_attr "friction" (option_map py_str (Dynamics.friction d))) []]
  end.

Definition _parse_joint (xml_element : element) : result Joint.t :=
  name <- Xml.attrib_getitem xml_element "name" ;;
  parent <- Xml.get_of_optional (Xml.find xml_element "parent") "link" ;;
  child <- Xml.get_of_optional (Xml.find xml_element "child") "link" ;;
  origin <- _parse_origin (Xml.find xml_element "origin") ;;
  axis <- _parse_axis (Xml.find xml_element "axis") ;;
  limit <- _parse_limit (Xml.find xml_element "limit") ;;
  mimic <- _parse_mimic (Xml.find xml_element "mimic") ;;
  calibration <- _parse_calibration (Xml.find xml_element "calibration") ;;
  safety_controller <- _parse_safety_controller (Xml.find xml_element "safety_controller") ;;
  Ok (Joint.mk name (Xml.get xml_element "type") parent child origin (Some axis)
        (_parse_dynamics (Xml.find xml_element "dynamics"))
        limit mimic calibration safety_controller).

(** The element [_write_joint] adds to its parent: name and type, parent
    and child, origin, axis, limit and dynamics.  [_write_mimic],
    [_write_calibration] and [_write_safety_controller] are not called. *)
Definition _write_joint (joint : Joint.t) : result (list element) :=
  type <- Xml.attr_value (Joint.type joint) ;;
  parent <- Xml.attr_value (Joint.parent joint) ;;
  child <- Xml.attr_value (Joint.child joint) ;;
  Ok [Element "joint" [("name", Joint.name joint); ("type", type)]
        ([Element "parent" [("link", parent)] [];
          Element "child" [("link", child)] []]
         ++ _write_origin (Joint.origin joint)
         ++ _write_axis (Joint.axis joint)
         ++ _write_limit (Joint.limit joint)
         ++ _write_dynamics (Joint.dynamics joint))].

Definition _parse_robot (xml_element : element) : result Robot.t :=
  name <- Xml.attrib_getitem xml_element "name" ;;
  links <- mapM _parse_link (Xml.findall xml_element "link") ;;
  joints <- mapM _parse_joint (Xml.findall xml_element "joint") ;;
  Ok (Robot.mk name links joints [] []).

Definition _write_robot (robot : Robot.t) : result element :=
  links <- mapM _write_link (Robot.links robot) ;;
  joints <- mapM _write_joint (Robot.joints robot) ;;
  Ok (Element "robot" [("name", Robot.name robot)]
        (List.concat links ++ List.concat joints)).

(** Parse, write, parse again. *)
Definition reparse (xml_element : element) : result Robot.t :=
  robot <- _parse_robot xml_element ;;
  xml' <- _write_robot robot ;;
  _parse_robot xml'.

End Codec.

(* ================================================================== *)
(** * The [URDF] object *)
(* ================================================================== *)

(** An entry of the configuration array [self._cfg]: a float, or, when
    numpy built an object array from rows of different lengths (the case
    the TODO in [get_default_cfg] is about), the row itself. *)
Inductive cell : Type :=
| Scalar (x : float)
| Row (xs : list float).

(** The scene graph is trimesh's; it is modelled through the three calls
    the module makes on it: [graph.update], [graph.transforms.successors]
    and [graph.get].  Geometry attached to the nodes is not modelled. *)
Module Scene.
Record t : Type := mk {
  base_frame : option string;
  transforms : list (option string * option string * matrix);
  nodes : list string }.
End Scene.

(** [self._filename_handler]: the default
    [partial(filename_handler_magic, dir=mesh_dir)] or the caller's. *)
Inductive filename_handler_t : Type :=
| HandlerMagic (mesh_dir : string)
| HandlerCustom (f : string -> string).

Definition call_filename_handler (isfile : string -> bool)
  (h : filename_handler_t) (fname : string) : string :=
  match h with
  | HandlerMagic dir => filename_handler_magic isfile fname dir
  | HandlerCustom f => f fname
  end.

Module URDF.
Record t : Type := mk {
  robot : Robot.t;
  _filename_handler : filename_handler_t;
  _joint_map : list (string * Joint.t);
  _link_map : list (string * Link.t);
  _actuated_joints : list Joint.t;
  _actuated_joint_indices : list nat;
  _cfg : list cell;
  _base_link : option string;
  _errors : list exn;
  _scene : option Scene.t;
  _scene_collision : option Scene.t }.

Definition set_maps (self : t) (jm : list (string * Joint.t)) (lm : list (string * Link.t)) : t :=
  mk (robot self) (_filename_handler self) jm lm (_actuated_joints self)
     (_actuated_joint_indices self) (_cfg self) (_base_link self) (_errors self)
     (_scene self) (_scene_collision self).

Definition set_actuated (self : t) (js : list Joint.t) (idxs : list nat) : t :=
  mk (robot self) (_filename_handler self) (_joint_map self) (_link_map self) js idxs
     (_cfg self) (_base_link self) (_errors self) (_scene self) (_scene_collision self).

Definition set_cfg (self : t) (c : list cell) : t :=
  mk (robot self) (_filename_handler self) (_joint_map self) (_link_map self)
     (_actuated_joints self) (_actuated_joint_indices self) c (_base_link self)
     (_errors self) (_scene self) (_scene_collision self).

Definition set_base_link (self : t) (b : option string) : t :=
  mk (robot self) (_filename_handler self) (_joint_map self) (_link_map self)
     (_actuated_joints self) (_actuated_joint_indices self) (_cfg self) b
     (_errors self) (_scene self) (_scene_collision self).

Definition set_errors (self : t) (e : list exn) : t :=
  mk (robot self) (_filename_handler self) (_joint_map self) (_link_map self)
     (_actuated_joints self) (_actuated_joint_indices self) (_cfg self) (_base_link self)
     e (_scene self) (_scene_collision self).

Definition set_scene (self : t) (s : option Scene.t) : t :=
  mk (robot self) (_filename_handler self) (_joint_map self) (_link_map self)
     (_actuated_joints self) (_actuated_joint_indices self) (_cfg self) (_base_link self)
     (_errors self) s (_scene_collision self).

Definition set_scene_collision (self : t) (s : option Scene.t) : t :=
  mk (robot self) (_filename_handler self) (_joint_map self) (_link_map self)
     (_actuated_joints self) (_actuated_joint_indices self) (_cfg self) (_base_link self)
     (_errors self) (_scene self) s.

Definition set_robot (self : t) (r : Robot.t) : t :=
  mk r (_filename_handler self) (_joint_map self) (_link_map self)
     (_actuated_joints self) (_actuated_joint_indices self) (_cfg self) (_base_link self)
     (_errors self) (_scene self) (_scene_collision self).
End URDF.

(** ** Python dicts with string keys (insertion ordered) *)

Fixpoint dict_set {V : Type} (d : list (string * V)) (k : string) (v : V)
  : list (string * V) :=
  match d with
  | [] => [(k, v)]
  | (k', v') :: rest =>
      if String.eqb k' k then (k, v) :: rest else (k', v') :: dict_set rest k v
  end.

Fixpoint dict_get {V : Type} (d : list (string * V)) (k : string) : option V :=
  match d with
  | [] => None
  | (k', v) :: rest => if String.eqb k' k then Some v else dict_get rest k
  end.

(** [d[k]] *)
Definition dict_getitem {V : Type} (d : list (string * V)) (k : string) : result V :=
  match dict_get d k with
  | Some v => Ok v
  | None => raise KeyError (Py.repr k)
  end.

(** ** Properties and small methods *)

Definition joint_names (self : URDF.t) : list string :=
  List.map Joint.name (Robot.joints (URDF.robot self)).

Definition num_actuated_joints (self : URDF.t) : nat :=
  List.length (URDF._actuated_joints self).

Definition _create_maps (self : URDF.t) : URDF.t :=
  URDF.set_maps self
    (List.fold_left (fun m j => dict_set m (Joint.name j) j)
       (Robot.joints (URDF.robot self)) [])
    (List.fold_left (fun m l => dict_set m (Link.name l) l)
       (Robot.links (URDF.robot self)) []).

(** [j.mimic is None and j.type != "fixed"] *)
Definition is_actuated (j : Joint.t) : bool :=
  negb (is_some (Joint.mimic j)) && negb (option_str_eqb (Joint.type j) "fixed").

Definition _update_actuated_joints (self : URDF.t) : URDF.t :=
  let indexed := List.combine (List.seq 0 (List.length (Robot.joints (URDF.robot self))))
                   (Robot.joints (URDF.robot self)) in
  let actuated := List.filter (fun ij => is_actuated (snd ij)) indexed in
  URDF.set_actuated self (List.map snd actuated) (List.map fst actuated).

(** [xs.remove(x)]: drops the first occurrence, [ValueError] when there
    is none. *)
Fixpoint list_remove (xs : list string) (x : string) : result (list string) :=
  match xs with
  | [] => raise ValueError "list.remove(x): x not in list"
  | y :: ys =>
      if String.eqb y x then Ok ys
      else ys' <- list_remove ys x ;; Ok (y :: ys')
  end.

(** [xs.remove(x)] where [x] may be [None] (never an element of a list of
    strings). *)
Definition list_remove_opt (xs : list string) (x : option string)
  : result (list string) :=
  match x with
  | Some s => list_remove xs s
  | None => raise ValueError "list.remove(x): x not in list"
  end.

Definition _determine_base_link (self : URDF.t) : result (option string) :=
  link_names <-
    foldM (fun link_names j => list_remove_opt link_names (Joint.child j))
      (Robot.joints (URDF.robot self))
      (List.map Link.name (Robot.links (URDF.robot self))) ;;
  match link_names with
  | [] => Ok None
  | first :: _ => Ok (Some first)
  end.

(** ** The default configuration *)

(** [xs[i] = v] on a Python list or array *)
Fixpoint list_set {A : Type} (xs : list A) (i : nat) (v : A) : list A :=
  match xs, i with
  | [], _ => []
  | _ :: rest, O => v :: rest
  | x :: rest, S i' => x :: list_set rest i' v
  end.

(** [np.array(config).flatten()]: rows of one length give a float array
    of all their entries; rows of different lengths give an object array
    of the rows (the ragged case of the TODO in the source). *)
Definition np_array_flatten (config : list (list float)) : list cell :=
  match config with
  | [] => []
  | first :: _ =>
      if List.forallb (fun r => Nat.eqb (List.length r) (List.length first)) config
      then List.map Scalar (List.concat config)
      else List.map Row config
  end.

(** The state of the first loop of [get_default_cfg].  The rows are Python
    list objects: [heap] holds them, [config] holds references to them, and
    [cfg_var] is the object the local variable [cfg] is bound to (a joint
    whose type matches no branch appends the object of the joint before it
    once more). *)
Record cfg_builder : Type := mk_builder {
  heap : list (list float);
  config : list nat;
  cfg_var : option nat }.

(** [cfg = [...]]: a fresh list object *)
Definition new_list (b : cfg_builder) (v : list float) : cfg_builder :=
  mk_builder (heap b ++ [v]) (config b) (Some (List.length (heap b))).

Definition unsupported_operand (op l r : string) : string :=
  "unsupported operand type(s) for " ^^ op ^^ ": '" ^^ l ^^ "' and '" ^^ r ^^ "'".

(** [lower + 0.5 * (upper - lower)] on optional floats: the subtraction
    is evaluated first and needs both. *)
Definition limit_midpoint (lower upper : option float) : result float :=
  match upper, lower with
  | Some up, Some lo => Ok (lo + 0.5 * (up - lo))%float
  | None, Some _ => raise TypeError (unsupported_operand "-" "NoneType" "float")
  | Some _, None => raise TypeError (unsupported_operand "-" "float" "NoneType")
  | None, None => raise TypeError (unsupported_operand "-" "NoneType" "NoneType")
  end.

(** [x * m] and [x + o] with a float on the left and an optional float on
    the right *)
Definition py_mul (x : float) (m : option float) : result float :=
  match m with
  | Some m' => Ok (x * m')%float
  | None => raise TypeError (unsupported_operand "*" "float" "NoneType")
  end.

Definition py_add (x : float) (o : option float) : result float :=
  match o with
  | Some o' => Ok (x + o')%float
  | None => raise TypeError (unsupported_operand "+" "float" "NoneType")
  end.

(** One iteration of the first loop. *)
Definition default_cfg_step (b : cfg_builder) (j : Joint.t) : result cfg_builder :=
  b' <-
    (if is_some (Joint.mimic j) then Ok (new_list b [0.0%float])
     else if option_str_eqb (Joint.type j) "revolute"
             || option_str_eqb (Joint.type j) "prismatic" then
       match Joint.limit j with
       | Some l =>
           mid <- limit_midpoint (Limit.lower l) (Limit.upper l) ;;
           Ok (new_list b [mid])
       | None => Ok (new_list b [0.0%float])
       end
     else if option_str_eqb (Joint.type j) "continuous"
             || option_str_eqb (Joint.type j) "fixed" then
       Ok (new_list b [0.0%float])
     else if option_str_eqb (Joint.type j) "floating" then
       Ok (new_list b (List.repeat 0.0%float 6))
     else if option_str_eqb (Joint.type j) "planar" then
       Ok (new_list b (List.repeat 0.0%float 2))
     else Ok b) ;;
  match cfg_var b' with
  | None =>
      raise UnboundLocalError "local variable 'cfg' referenced before assignment"
  | Some id => Ok (mk_builder (heap b') (config b' ++ [id]) (cfg_var b'))
  end.

(** [config[i][0]] *)
Definition config_get0 (hp : list (list float)) (cfg : list nat) (i : nat)
  : result float :=
  match List.nth_error cfg i with
  | None => raise IndexError "list index out of range"
  | Some id =>
      match List.nth_error hp id with
      | Some (x :: _) => Ok x
      | _ => raise IndexError "list index out of range"
      end
  end.

(** [config[i][0] = v] *)
Definition config_set0 (hp : list (list float)) (cfg : list nat) (i : nat) (v : float)
  : result (list (list float)) :=
  match List.nth_error cfg i with
  | None => raise IndexError "list index out of range"
  | Some id =>
      match List.nth_error hp id with
      | Some (_ :: rest) => Ok (list_set hp id (v :: rest))
      | _ => raise IndexError "list assignment index out of range"
      end
  end.

(** [xs.index(x)] where [x] may be [None] *)
Definition index_opt (xs : list string) (x : option string) : result nat :=
  match x with
  | Some s => Py.index xs s
  | None => raise ValueError "None is not in list"
  end.

(** One iteration of the second loop. *)
Definition default_mimic_step (config_names : list string) (cfg : list nat)
  (hp : list (list float)) (ij : nat * Joint.t) : result (list (list float)) :=
  match Joint.mimic (snd ij) with
  | None => Ok hp
  | Some m =>
      index <- index_opt config_names (Mimic.joint m) ;;
      x <- config_get0 hp cfg index ;;
      xm <- py_mul x (Mimic.multiplier m) ;;
      v <- py_add xm (Mimic.offset m) ;;
      config_set0 hp cfg (fst ij) v
  end.

Definition enumerate {A : Type} (xs : list A) : list (nat * A) :=
  List.combine (List.seq 0 (List.length xs)) xs.

(** The nested list [config] as it stands before [np.array]. *)
Definition default_config_rows (self : URDF.t) : result (list (list float)) :=
  let joints := Robot.joints (URDF.robot self) in
  b <- foldM default_cfg_step joints (mk_builder [] [] None) ;;
  hp <- foldM (default_mimic_step (List.map Joint.name joints) (config b))
          (enumerate joints) (heap b) ;;
  Ok (List.map (fun id => List.nth id hp []) (config b)).

Definition get_default_cfg (self : URDF.t) : result (list cell) :=
  rows <- default_config_rows self ;;
  Ok (np_array_flatten rows).

(** ** Forward kinematics and [update_cfg] *)

(** [self._cfg[i]] *)
Definition cfg_getitem (cfg : list cell) (i : nat) : result cell :=
  match List.nth_error cfg i with
  | Some c => Ok c
  | None => raise IndexError "index out of bounds"
  end.

(** [self._cfg[i] = q] *)
Definition cfg_setitem (cfg : list cell) (i : nat) (q : cell) : result (list cell) :=
  if Nat.ltb i (List.length cfg) then Ok (list_set cfg i q)
  else raise IndexError "index out of bounds".

(** [c * multiplier + offset] for an entry [c] of the configuration array *)
Definition mimic_value (c : cell) (m : Mimic.t) : result float :=
  match c with
  | Scalar x =>
      xm <- py_mul x (Mimic.multiplier m) ;;
      py_add xm (Mimic.offset m)
  | Row _ => raise TypeError "can't multiply sequence by non-int of type 'float'"
  end.

Definition _forward_kinematics_joint (self : URDF.t) (joint : Joint.t) (q : cell)
  : result (matrix * cell) :=
  let origin := match Joint.origin joint with None => np_eye4 | Some o => o end in
  q <-
    match Joint.mimic joint with
    | Some m =>
        mimic_joint_index <- index_opt (joint_names self) (Mimic.joint m) ;;
        c <- cfg_getitem (URDF._cfg self) mimic_joint_index ;;
        v <- mimic_value c m ;;
        Ok (Scalar v)
    | None => Ok q
    end ;;
  matrix <-
    (if option_str_eqb (Joint.type joint) "revolute" then
       match q, Joint.axis joint with
       | Scalar x, Some axis => Ok (np_matmul origin (tra_rotation_matrix x axis))
       | _, _ => raise TypeError "rotation_matrix: angle and direction expected"
       end
     else if option_str_eqb (Joint.type joint) "prismatic"
             || option_str_eqb (Joint.type joint) "continuous" then
       match q, Joint.axis joint with
       | Scalar x, Some axis =>
           Ok (np_matmul origin
                 (tra_translation_matrix (List.map (fun a => (x * a)%float) axis)))
       | _, _ => raise TypeError "translation_matrix: direction expected"
       end
     else Ok origin) ;;
  Ok (matrix, q).

(** [graph.update(frame_from, frame_to, matrix)]: the graph is a forest,
    so the edge replaces an earlier edge into [frame_to]. *)
Definition opt_name_eqb (a b : option string) : bool :=
  match a, b with
  | Some x, Some y => String.eqb x y
  | None, None => true
  | _, _ => false
  end.

Definition graph_update (s : Scene.t) (frame_from frame_to : option string) (m : matrix)
  : Scene.t :=
  Scene.mk (Scene.base_frame s)
    (List.filter (fun e => negb (opt_name_eqb (snd (fst e)) frame_to)) (Scene.transforms s)
     ++ [(frame_from, frame_to, m)])
    (Scene.nodes s).

Definition scene_update (s : option Scene.t) (j : Joint.t) (m : matrix) : option Scene.t :=
  match s with
  | Some s' => Some (graph_update s' (Joint.parent j) (Joint.child j) m)
  | None => None
  end.

(** The keys of a configuration dict: joint names; keys of other types
    are passed over.  ([Joint] objects are not hashable.) *)
Inductive dict_key : Type :=
| KeyStr (s : string)
| KeyOther.

(** The argument of [update_cfg]. *)
Inductive configuration : Type :=
| CfgDict (d : list (dict_key * float))
| CfgSeq (xs : list float)
| CfgOther.

Definition dimensionality_msg (len n_all n_actuated : nat) : string :=
  "Dimensionality of configuration (" ^^ Py.str_of_nat len
  ^^ ") doesn't match number of all (" ^^ Py.str_of_nat n_all
  ^^ ") or actuated joints (" ^^ Py.str_of_nat n_actuated ^^ ").".

(** The list [joint_cfg] built from the argument. *)
Definition build_joint_cfg (self : URDF.t) (c : configuration)
  : result (list (Joint.t * cell)) :=
  match c with
  | CfgDict d =>
      foldM (fun joint_cfg kv =>
               match fst kv with
               | KeyStr joint =>
                   j <- dict_getitem (URDF._joint_map self) joint ;;
                   Ok (joint_cfg ++ [(j, Scalar (snd kv))])
               | KeyOther => Ok joint_cfg
               end) d []
  | CfgSeq xs =>
      if Nat.eqb (List.length xs) (List.length (Robot.joints (URDF.robot self))) then
        Ok (List.combine (Robot.joints (URDF.robot self)) (List.map Scalar xs))
      else if Nat.eqb (List.length xs) (num_actuated_joints self) then
        Ok (List.combine (URDF._actuated_joints self) (List.map Scalar xs))
      else
        raise ValueError
          (dimensionality_msg (List.length xs)
             (List.length (Robot.joints (URDF.robot self))) (num_actuated_joints self))
  | CfgOther => raise TypeError "Invalid type for configuration"
  end.

(** The mimic joints appended to every update. *)
Definition mimic_updates (self : URDF.t) : list (Joint.t * cell) :=
  List.map (fun j => (j, Scalar 0.0%float))
    (List.filter (fun j => is_some (Joint.mimic j)) (Robot.joints (URDF.robot self))).

(** The body of the loop of [update_cfg]. *)
Definition update_joint (self : URDF.t) (jq : Joint.t * cell) : result URDF.t :=
  let j := fst jq in
  '(matrix, joint_q) <- _forward_kinematics_joint self j (snd jq) ;;
  i <- Py.index (joint_names self) (Joint.name j) ;;
  cfg <- cfg_setitem (URDF._cfg self) i joint_q ;;
  let self := URDF.set_cfg self cfg in
  let self := URDF.set_scene self (scene_update (URDF._scene self) j matrix) in
  Ok (URDF.set_scene_collision self
        (scene_update (URDF._scene_collision self) j matrix)).

Definition update_cfg (self : URDF.t) (c : configuration) : result URDF.t :=
  joint_cfg <- build_joint_cfg self c ;;
  foldM update_joint (joint_cfg ++ mimic_updates self) self.

(** ** Scene construction and [__init__] *)

(** [for j, q in zip(self.robot.joints, configuration)] of [_create_scene];
    the nodes of the links follow.  Loading and attaching the visual
    geometry is the scene subsystem's and is left out. *)
Definition _create_scene (self : URDF.t) : result Scene.t :=
  s <- foldM (fun s jq =>
                '(matrix, _) <- _forward_kinematics_joint self (fst jq) (snd jq) ;;
                Ok (graph_update s (Joint.parent (fst jq)) (Joint.child (fst jq)) matrix))
         (List.combine (Robot.joints (URDF.robot self)) (URDF._cfg self))
         (Scene.mk (URDF._base_link self) [] []) ;;
  Ok (Scene.mk (Scene.base_frame s) (Scene.transforms s)
        (Scene.nodes s ++ List.map Link.name (Robot.links (URDF.robot self)))).

(** The values passed to [URDF(...)] by keyword. *)
Inductive pyarg : Type :=
| ArgRobot (r : Robot.t)
| ArgNone
| ArgBool (b : bool)
| ArgStr (s : string)
| ArgHandler (f : string -> string).

(** The parameters of [URDF.__init__] with their defaults. *)
Record init_args : Type := mk_args {
  arg_robot : option Robot.t;
  arg_build_scene_graph : bool;
  arg_build_collision_scene_graph : bool;
  arg_load_meshes : bool;
  arg_load_collision_meshes : bool;
  arg_filename_handler : option (string -> string);
  arg_mesh_dir : string }.

Definition default_init_args : init_args :=
  mk_args None true false true false None "".

Definition truthy (v : pyarg) : bool :=
  match v with
  | ArgRobot _ => true
  | ArgNone => false
  | ArgBool b => b
  | ArgStr s => negb (String.eqb s "")
  | ArgHandler _ => true
  end.

(** Binding one keyword argument; a keyword that is no parameter of
    [__init__] is a [TypeError] of the call (the message as CPython words
    it before 3.10; later versions prefix the class name). *)
Definition bind_kwarg (a : init_args) (kw : string * pyarg) : result init_args :=
  let '(k, v) := kw in
  if String.eqb k "robot" then
    Ok (mk_args (match v with ArgRobot r => Some r | _ => None end)
          (arg_build_scene_graph a) (arg_build_collision_scene_graph a)
          (arg_load_meshes a) (arg_load_collision_meshes a)
          (arg_filename_handler a) (arg_mesh_dir a))
  else if String.eqb k "build_scene_graph" then
    Ok (mk_args (arg_robot a) (truthy v) (arg_build_collision_scene_graph a)
          (arg_load_meshes a) (arg_load_collision_meshes a)
          (arg_filename_handler a) (arg_mesh_dir a))
  else if String.eqb k "build_collision_scene_graph" then
    Ok (mk_args (arg_robot a) (arg_build_scene_graph a) (truthy v)
          (arg_load_meshes a) (arg_load_collision_meshes a)
          (arg_filename_handler a) (arg_mesh_dir a))
  else if String.eqb k "load_meshes" then
    Ok (mk_args (arg_robot a) (arg_build_scene_graph a) (arg_build_collision_scene_graph a)
          (truthy v) (arg_load_collision_meshes a)
          (arg_filename_handler a) (arg_mesh_dir a))
  else if String.eqb k "load_collision_meshes" then
    Ok (mk_args (arg_robot a) (arg_build_scene_graph a) (arg_build_collision_scene_graph a)
          (arg_load_meshes a) (truthy v)
          (arg_filename_handler a) (arg_mesh_dir a))
  else if String.eqb k "filename_handler" then
    Ok (mk_args (arg_robot a) (arg_build_scene_graph a) (arg_build_collision_scene_graph a)
          (arg_load_meshes a) (arg_load_collision_meshes a)
          (match v with ArgHandler f => Some f | _ => None end) (arg_mesh_dir a))
  else if String.eqb k "mesh_dir" then
    Ok (mk_args (arg_robot a) (arg_build_scene_graph a) (arg_build_collision_scene_graph a)
          (arg_load_meshes a) (arg_load_collision_meshes a)
          (arg_filename_handler a) (match v with ArgStr s => s | _ => "" end))
  else
    raise TypeError ("__init__() got an unexpected keyword argument " ^^ Py.repr k).

(** The body of [URDF.__init__]. *)
Definition URDF__init__ (a : init_args) : result URDF.t :=
  let handler :=
    match arg_filename_handler a with
    | None => HandlerMagic (arg_mesh_dir a)
    | Some f => HandlerCustom f
    end in
  match arg_robot a with
  | None => raise AttributeError "'NoneType' object has no attribute 'joints'"
  | Some robot =>
      let self := URDF.mk robot handler [] [] [] [] [] None [] None None in
      let self := _create_maps self in
      let self := _update_actuated_joints self in
      cfg <- get_default_cfg self ;;
      let self := URDF.set_cfg self cfg in
      base_link <-
        (if arg_build_scene_graph a || arg_build_collision_scene_graph a
         then _determine_base_link self else Ok None) ;;
      let self := URDF.set_base_link self base_link in
      let self := URDF.set_errors self [] in
      scene <-
        (if arg_build_scene_graph a
         then s <- _create_scene self ;; Ok (Some s) else Ok None) ;;
      let self := URDF.set_scene self scene in
      scene_collision <-
        (if arg_build_collision_scene_graph a
         then s <- _create_scene self ;; Ok (Some s) else Ok None) ;;
      Ok (URDF.set_scene_collision self scene_collision)
  end.

(** The call [URDF(key=value, ...)]. *)
Definition URDF_new (kwargs : list (string * pyarg)) : result URDF.t :=
  a <- foldM bind_kwarg kwargs default_init_args ;;
  URDF__init__ a.

(** [URDF.load] from the root element lxml has read:
    [URDF(robot=URDF._parse_robot(xml_element=xml_root), ...)] with the
    caller's keyword arguments. *)
Definition load (float_of_str : string -> option float) (xml_root : element)
  (kwargs : list (string * pyarg)) : result URDF.t :=
  robot <- _parse_robot float_of_str xml_root ;;
  URDF_new (("robot", ArgRobot robot) :: kwargs).

(** ** Splitting a model along joints *)

Definition mem_name (x : option string) (xs : list (option string)) : bool :=
  List.existsb (opt_name_eqb x) xs.

(** One round of the successor closure: the children of the nodes found so
    far are added. *)
Definition successors_round (edges : list (option string * option string * matrix))
  (seen : list (option string)) : list (option string) :=
  List.fold_left
    (fun acc e =>
       if mem_name (fst (fst e)) acc && negb (mem_name (snd (fst e)) acc)
       then acc ++ [snd (fst e)] else acc)
    edges seen.

(** [graph.transforms.successors(node)]: the node and everything below
    it.  Python returns a set; the list is in order of discovery. *)
Definition successors (s : Scene.t) (node : option string) : list (option string) :=
  Nat.iter (List.length (Scene.transforms s))
    (successors_round (Scene.transforms s)) [node].

(** [graph.get(frame_to)[0]]: the product of the edge matrices on the path
    from the base frame. *)
Fixpoint graph_get_from (edges : list (option string * option string * matrix))
  (base : option string) (fuel : nat) (frame_to : option string) : result matrix :=
  if opt_name_eqb frame_to base then Ok np_eye4
  else
    match fuel with
    | O => raise ValueError "No path from base frame"
    | S fuel' =>
        match List.find (fun e => opt_name_eqb (snd (fst e)) frame_to) edges with
        | None => raise ValueError "No path from base frame"
        | Some e =>
            up <- graph_get_from edges base fuel' (fst (fst e)) ;;
            Ok (np_matmul up (snd e))
        end
    end.

Definition graph_get (s : Scene.t) (frame_to : string) : result matrix :=
  graph_get_from (Scene.transforms s) (Scene.base_frame s)
    (List.length (Scene.transforms s)) (Some frame_to).

Definition self_scene (self : URDF.t) : result Scene.t :=
  match URDF._scene self with
  | Some s => Ok s
  | None => raise AttributeError "'NoneType' object has no attribute 'graph'"
  end.

Definition _create_subrobot (self : URDF.t) (robot_name root_link_name : string)
  : result Robot.t :=
  s <- self_scene self ;;
  let subnodes := successors s (Some root_link_name) in
  let links :=
    List.concat
      (List.map (fun node =>
                   match node with
                   | Some n =>
                       match dict_get (URDF._link_map self) n with
                       | Some l => [l]
                       | None => []
                       end
                   | None => []
                   end) subnodes) in
  let joints :=
    List.map snd
      (List.filter (fun kv => mem_name (Joint.parent (snd kv)) subnodes
                              && mem_name (Joint.child (snd kv)) subnodes)
         (URDF._joint_map self)) in
  Ok (Robot.mk robot_name links joints [] []).

(** [xs.remove(x)] for the joint (link) object looked up by name: the
    comparison of dataclass instances starts with the names, and names
    are unique in a model. *)
Fixpoint remove_joint (xs : list Joint.t) (x : Joint.t) : result (list Joint.t) :=
  match xs with
  | [] => raise ValueError "list.remove(x): x not in list"
  | y :: ys =>
      if String.eqb (Joint.name y) (Joint.name x) then Ok ys
      else ys' <- remove_joint ys x ;; Ok (y :: ys')
  end.

Fixpoint remove_link (xs : list Link.t) (x : Link.t) : result (list Link.t) :=
  match xs with
  | [] => raise ValueError "list.remove(x): x not in list"
  | y :: ys =>
      if String.eqb (Link.name y) (Link.name x) then Ok ys
      else ys' <- remove_link ys x ;; Ok (y :: ys')
  end.

(** Dropping the first joint whose child is [name], when there is one. *)
Fixpoint remove_joint_by_child (xs : list Joint.t) (name : string) : list Joint.t :=
  match xs with
  | [] => []
  | y :: ys =>
      if option_str_eqb (Joint.child y) name then ys
      else y :: remove_joint_by_child ys name
  end.

(** [d[k]] where [k] may be [None] *)
Definition dict_getitem_opt {V : Type} (d : list (string * V)) (k : option string)
  : result V :=
  match k with
  | Some s => dict_getitem d s
  | None => raise KeyError "None"
  end.

(** The body of the loop of [split_along_joints]: the state is the robot
    of [root_urdf] and the entries appended to [result]. *)
Definition split_step (self root_urdf : URDF.t)
  (st : Robot.t * list (matrix * URDF.t)) (joint_name : string)
  : result (Robot.t * list (matrix * URDF.t)) :=
  let '(root_robot, appended) := st in
  joint <- dict_getitem (URDF._joint_map self) joint_name ;;
  root_link <- dict_getitem_opt (URDF._link_map self) (Joint.child joint) ;;
  new_robot <- _create_subrobot self (Link.name root_link) (Link.name root_link) ;;
  s <- self_scene self ;;
  m <- graph_get s (Link.name root_link) ;;
  sub <- URDF_new [("robot", ArgRobot new_robot); ("load_meshes", ArgBool false);
                   ("generate_scene_graph", ArgBool false)] ;;
  joints <-
    foldM (fun js j =>
             x <- dict_getitem (URDF._joint_map root_urdf) (Joint.name j) ;;
             remove_joint js x)
      (Robot.joints new_robot) (Robot.joints root_robot) ;;
  links <-
    foldM (fun ls l =>
             x <- dict_getitem (URDF._link_map root_urdf) (Link.name l) ;;
             remove_link ls x)
      (Robot.links new_robot) (Robot.links root_robot) ;;
  Ok (Robot.mk (Robot.name root_robot) links
        (remove_joint_by_child joints (Link.name root_link))
        (Robot.transmission root_robot) (Robot.gazebo root_robot),
      appended ++ [(m, sub)]).

Definition split_along_joints (self : URDF.t) (joint_type : string)
  : result (list (matrix * URDF.t)) :=
  root_urdf <- URDF_new [("robot", ArgRobot (URDF.robot self));
                         ("load_meshes", ArgBool false);
                         ("generate_scene_graph", ArgBool false)] ;;
  let joint_names :=
    List.map Joint.name
      (List.filter (fun j => option_str_eqb (Joint.type j) joint_type)
         (Robot.joints (URDF.robot self))) in
  '(root_robot, appended) <-
    foldM (split_step self root_urdf) joint_names (URDF.robot root_urdf, []) ;;
  Ok ((np_eye4, URDF.set_robot root_urdf root_robot) :: appended).

(* ================================================================== *)
(** * The validator *)
(* ================================================================== *)

(** A validation method runs on the error log [self._errors] and either
    returns, leaving the log it has extended, or raises, leaving the log
    as far as it got. *)
Record outcome : Type := mk_outcome {
  log : list exn;
  raised : option exn }.

Definition validator : Type := list exn -> outcome.

Definition v_skip : validator := fun errors => mk_outcome errors None.

(** [self._errors.append(cls(msg))] *)
Definition v_append (cls : exn_class) (msg : string) : validator :=
  fun errors => mk_outcome (errors ++ [Raise cls msg]) None.

Definition v_raise (cls : exn_class) (msg : string) : validator :=
  fun errors => mk_outcome errors (Some (Raise cls msg)).

Definition v_seq (a b : validator) : validator :=
  fun errors =>
    let r := a errors in
    match raised r with
    | Some _ => r
    | None => b (log r)
    end.

Fixpoint v_for {A : Type} (f : A -> validator) (xs : list A) : validator :=
  match xs with
  | [] => v_skip
  | x :: rest => v_seq (f x) (v_for f rest)
  end.

(** What [_validate_required_attribute] looks at in its argument. *)
Inductive pyobj : Type :=
| PyNone
| PyString (s : string)
| PyObject.

Definition obj_of_str (s : option string) : pyobj :=
  match s with Some t => PyString t | None => PyNone end.

Definition obj_of {A : Type} (x : option A) : pyobj :=
  match x with Some _ => PyObject | None => PyNone end.

Definition _validate_required_attribute (attribute : pyobj) (error_msg : string)
  (allowed_values : option (list string)) : validator :=
  v_seq
    (match attribute with
     | PyNone => v_append URDFIncompleteError error_msg
     | PyString s =>
         if Nat.eqb (String.length s) 0
         then v_append URDFIncompleteError error_msg else v_skip
     | PyObject => v_skip
     end)
    (match allowed_values, attribute with
     | Some allowed, PyString s =>
         if List.existsb (String.eqb s) allowed then v_skip
         else v_append URDFAttributeValueError error_msg
     | Some allowed, PyObject => v_append URDFAttributeValueError error_msg
     | _, _ => v_skip
     end).

Definition count_present (g : Geometry.t) : nat :=
  (if is_some (Geometry.box g) then 1 else 0)
  + (if is_some (Geometry.cylinder g) then 1 else 0)
  + (if is_some (Geometry.sphere g) then 1 else 0)
  + (if is_some (Geometry.mesh g) then 1 else 0).

Definition _validate_geometry (geometry : option Geometry.t) : validator :=
  v_seq
    (match geometry with
     | None => v_append URDFIncompleteError "<geometry> is missing."
     | Some _ => v_skip
     end)
    (match geometry with
     | None => v_raise AttributeError "'NoneType' object has no attribute 'box'"
     | Some g =>
         let num_nones := count_present g in
         if Nat.ltb num_nones 1 then
           v_append URDFIncompleteError
             "One of <sphere>, <cylinder>, <box>, <mesh> needs to be defined as a child of <geometry>."
         else if Nat.ltb 1 num_nones then
           v_append URDFError
             "Too many of <sphere>, <cylinder>, <box>, <mesh> defined as a child of <geometry>. Only one allowed."
         else v_skip
     end).

Definition _validate_visual (visual : Visual.t) : validator :=
  _validate_geometry (Visual.geometry visual).

Definition _validate_collision (collision : Collision.t) : validator :=
  _validate_geometry (Collision.geometry collision).

Definition _validate_link (link : Link.t) : validator :=
  v_seq
    (_validate_required_attribute (PyString (Link.name link))
       "The <link> tag misses a 'name' attribute." None)
    (v_seq (v_for _validate_visual (Link.visuals link))
           (v_for _validate_collision (Link.collisions link))).

Definition _validate_limit (limit : option Limit.t) : validator :=
  match limit with
  | None => v_raise AttributeError "'NoneType' object has no attribute 'effort'"
  | Some l =>
      v_seq
        (_validate_required_attribute (obj_of (Limit.effort l))
           "Tag <limit> of joint is missing attribute 'effort'." None)
        (_validate_required_attribute (obj_of (Limit.velocity l))
           "Tag <limit> is missing attribute 'velocity'." None)
  end.

Definition allowed_types : list string :=
  ["revolute"; "continuous"; "prismatic"; "fixed"; "floating"; "planar"].

Definition _validate_joint (joint : Joint.t) : validator :=
  v_seq
    (_validate_required_attribute (PyString (Joint.name joint))
       "The <joint> tag misses a 'name' attribute." None)
    (v_seq
       (_validate_required_attribute (obj_of_str (Joint.type joint))
          ("The <joint> tag misses a 'type' attribute or value is not part of allowed values ["
           ^^ Py.join ", " allowed_types ^^ "].")
          (Some allowed_types))
       (v_seq
          (_validate_required_attribute (obj_of_str (Joint.parent joint))
             "The <parent> of a <joint> is missing." None)
          (v_seq
             (_validate_required_attribute (obj_of_str (Joint.child joint))
                "The <child> of a <joint> is missing." None)
             (if option_str_eqb (Joint.type joint) "revolute"
                 || option_str_eqb (Joint.type joint) "prismatic"
              then
                v_seq
                  (_validate_required_attribute (obj_of (Joint.limit joint))
                     "The <limit> of a (prismatic, revolute) joint is missing." None)
                  (_validate_limit (Joint.limit joint))
              else v_skip)))).

Definition _validate_robot (robot : option Robot.t) : validator :=
  match robot with
  | None => v_skip
  | Some r =>
      v_seq
        (_validate_required_attribute (PyString (Robot.name r))
           "The <robot> tag misses a 'name' attribute." None)
        (v_seq (v_for _validate_link (Robot.links r))
               (v_for _validate_joint (Robot.joints r)))
  end.

Definition validation_handler_strict (errors : list exn) : bool :=
  Nat.eqb (List.length errors) 0.

(** [validate(validation_fn)]: the object afterwards (its error log
    replaced) and the verdict, or the exception that ended the call. *)
Definition validate (self : URDF.t) (validation_fn : option (list exn -> bool))
  : URDF.t * result bool :=
  let r := _validate_robot (Some (URDF.robot self)) [] in
  let self := URDF.set_errors self (log r) in
  match raised r with
  | Some e => (self, Err e)
  | None =>
      let validation_fn :=
        match validation_fn with
        | None => validation_handler_strict
        | Some f => f
        end in
      (self, Ok (validation_fn (URDF._errors self)))
  end.

(* ================================================================== *)
(** * Specification-level definitions *)
(* ================================================================== *)

(** ** Filename resolution *)

(** The [k]-th ancestor directory of a path. *)
Definition ancestor (k : nat) (path : string) : string :=
  Nat.iter k PosixPath.dirname path.

(** The number of components of the normalised path. *)
Definition depth (path : string) : nat :=
  List.length (Py.split (PosixPath.normpath path) PosixPath.sep).

(** The candidate paths of the default resolver for a reference whose
    package-relative remainder is [rest]: the join with the mesh
    directory, then the joins with its ancestors, nearest first. *)
Definition candidates (dir rest : string) : list string :=
  PosixPath.join dir rest
    :: List.map (fun i => PosixPath.join (ancestor (S i) dir) rest)
         (List.seq 0 (depth dir)).

(** The first path of the list that exists, else the reference itself. *)
Definition first_existing (isfile : string -> bool) (paths : list string)
  (fname : string) : string :=
  match List.find isfile paths with
  | Some p => p
  | None => fname
  end.

(** ** The kinematic graph *)

(** An object as [__init__] starts from: the robot, and nothing computed. *)
Definition blank_urdf (robot : Robot.t) : URDF.t :=
  URDF.mk robot (HandlerMagic "") [] [] [] [] [] None [] None None.

Definition link_names (r : Robot.t) : list string :=
  List.map Link.name (Robot.links r).

(** The child references of the joints, in declaration order. *)
Definition child_refs (r : Robot.t) : list (option string) :=
  List.map Joint.child (Robot.joints r).

Fixpoint nodupb (xs : list string) : bool :=
  match xs with
  | [] => true
  | x :: rest => negb (List.existsb (String.eqb x) rest) && nodupb rest
  end.

Fixpoint opt_nodupb (xs : list (option string)) : bool :=
  match xs with
  | [] => true
  | x :: rest => negb (mem_name x rest) && opt_nodupb rest
  end.

(** Some joint names the link as its child. *)
Definition has_incoming (r : Robot.t) (l : string) : bool :=
  mem_name (Some l) (child_refs r).

(** The links without an incoming joint edge, in declaration order. *)
Definition root_candidates (r : Robot.t) : list string :=
  List.filter (fun l => negb (has_incoming r l)) (link_names r).

(** Every child reference names a link of the robot. *)
Definition children_resolve (r : Robot.t) : bool :=
  List.forallb
    (fun c => match c with
              | Some s => List.existsb (String.eqb s) (link_names r)
              | None => false
              end)
    (child_refs r).

(** The exception of [list.remove] on a missing element. *)
Definition not_in_list : exn := Raise ValueError "list.remove(x): x not in list".

(** ** Example models *)

(** [Joint(name, type, parent, child)] as the parser fills it for a joint
    element with these four data only: the axis at its default. *)
Definition joint_between (n ty p c : string) : Joint.t :=
  Joint.mk n (Some ty) (Some p) (Some c) None (Some [1.0; 0; 0]%float)
    None None None None None.

(** Links [A], [B], [C] and joints [A -> B], [B -> C]. *)
Definition robot_abc : Robot.t :=
  Robot.mk "abc" [Link_default "A"; Link_default "B"; Link_default "C"]
    [joint_between "ab" "fixed" "A" "B"; joint_between "bc" "fixed" "B" "C"] [] [].

(** A joint whose child names no link of the robot. *)
Definition robot_dangling_child : Robot.t :=
  Robot.mk "dangling" [Link_default "A"]
    [joint_between "ab" "fixed" "A" "B"] [] [].

(** Two joints naming the same child link. *)
Definition robot_shared_child : Robot.t :=
  Robot.mk "shared" [Link_default "A"; Link_default "B"; Link_default "C"]
    [joint_between "ac" "fixed" "A" "C"; joint_between "bc" "fixed" "B" "C"] [] [].

(** [URDF(robot=r)]: every other parameter at its default. *)
Definition args_for (r : Robot.t) : init_args :=
  mk_args (Some r) true false true false None "".

(** ** The configuration vector *)

(** The exception is the [ValueError] of the length check of [update_cfg]. *)
Definition is_dimension_error (e : exn) : bool :=
  match exn_cls e with
  | ValueError => Py.startswith (exn_msg e) "Dimensionality of configuration"
  | _ => false
  end.

(** A computation that does not end in the length error. *)
Definition no_dimension_error {A : Type} (m : result A) : Prop :=
  match m with
  | Ok _ => True
  | Err e => is_dimension_error e = false
  end.

(** ** Example documents *)

(** The shape tags [_parse_geometry] knows. *)
Definition supported_shape (tag : string) : bool :=
  List.existsb (String.eqb tag) ["box"; "cylinder"; "sphere"; "mesh"].

(** [<geometry><capsule radius="1" length="2"/></geometry>] *)
Definition geometry_capsule : element :=
  Element "geometry" [] [Element "capsule" [("radius", "1"); ("length", "2")] []].

(** Python's [float] and [str] on the literals of the example documents. *)
Definition float_of_str_example (s : string) : option float :=
  if String.eqb s "1.0" || String.eqb s "1" then Some 1.0%float
  else if String.eqb s "0.0" || String.eqb s "0" then Some 0.0%float
  else if String.eqb s "2.0" || String.eqb s "2" then Some 2.0%float
  else None.

Definition str_of_float_example (x : float) : string :=
  if PrimFloat.eqb x 1.0 then "1.0"
  else if PrimFloat.eqb x 2.0 then "2.0"
  else "0.0".

Definition xml_link (name : string) : element :=
  Element "link" [("name", name)] [].

(** A two-joint arm whose second joint mimics the first:
    [<joint name="j2" type="continuous"> <parent link="b"/> <child link="c"/>
     <mimic joint="j1"/> </joint>]. *)
Definition xml_mimic_arm : element :=
  Element "robot" [("name", "arm")]
    [xml_link "a"; xml_link "b"; xml_link "c";
     Element "joint" [("name", "j1"); ("type", "continuous")]
       [Element "parent" [("link", "a")] []; Element "child" [("link", "b")] []];
     Element "joint" [("name", "j2"); ("type", "continuous")]
       [Element "parent" [("link", "b")] []; Element "child" [("link", "c")] [];
        Element "mimic" [("joint", "j1")] []]].

(** [Robot(name="r", links=[Link(name="l", visuals=[Visual()])])]: a visual
    whose geometry is absent. *)
Definition robot_missing_geometry : Robot.t :=
  Robot.mk "r" [Link.mk "l" None [Visual.mk None None None None] []] [] [] [].

(** A revolute joint without a [<limit>] element. *)
Definition xml_revolute_without_limit : element :=
  Element "robot" [("name", "r")]
    [xml_link "a"; xml_link "b";
     Element "joint" [("name", "j"); ("type", "revolute")]
       [Element "parent" [("link", "a")] []; Element "child" [("link", "b")] []]].

Definition robot_revolute_without_limit : Robot.t :=
  Robot.mk "r" [Link_default "a"; Link_default "b"]
    [joint_between "j" "revolute" "a" "b"] [] [].

(** Joints [J1 (fixed, A -> B)], [J2 (floating, B -> C)],
    [J3 (fixed, C -> D)]. *)
Definition robot_split_example : Robot.t :=
  Robot.mk "split"
    [Link_default "A"; Link_default "B"; Link_default "C"; Link_default "D"]
    [joint_between "J1" "fixed" "A" "B"; joint_between "J2" "floating" "B" "C";
     joint_between "J3" "fixed" "C" "D"] [] [].

(** The [TypeError] of a call of [URDF(...)] with the keyword
    [generate_scene_graph]. *)
Definition unexpected_generate_scene_graph : exn :=
  Raise TypeError "__init__() got an unexpected keyword argument 'generate_scene_graph'".

(** ** The default configuration, joint by joint *)

Definition type_is (j : Joint.t) (ty : string) : bool :=
  option_str_eqb (Joint.type j) ty.

(** The joint takes a branch of the first loop of [get_default_cfg] that
    binds [cfg] to a new list. *)
Definition allocating (j : Joint.t) : bool :=
  is_some (Joint.mimic j)
  || (type_is j "revolute" || type_is j "prismatic")
  || (type_is j "continuous" || type_is j "fixed")
  || type_is j "floating"
  || type_is j "planar".

(** The list that branch builds. *)
Definition initial_row (j : Joint.t) : result (list float) :=
  if is_some (Joint.mimic j) then Ok [0.0%float]
  else if type_is j "revolute" || type_is j "prismatic" then
    match Joint.limit j with
    | Some l => mid <- limit_midpoint (Limit.lower l) (Limit.upper l) ;; Ok [mid]
    | None => Ok [0.0%float]
    end
  else if type_is j "continuous" || type_is j "fixed" then Ok [0.0%float]
  else if type_is j "floating" then Ok (List.repeat 0.0%float 6)
  else Ok (List.repeat 0.0%float 2).

(** The number of new lists the first loop has built over [js]. *)
Definition allocs (js : list Joint.t) : nat :=
  List.length (List.filter allocating js).

(** What the array [get_default_cfg] returns holds for the [k]-th of [n]
    joints whose list is [row]: when the lists of the joints differ in
    length the array is an object array with one entry per joint, the
    list itself; when they all have one length the array is the float
    array of all their entries in order, so the entries of the joint are
    those from position [k * len(row)] on. *)
Definition array_assigns (cfg : list cell) (n k : nat) (row : list float) : Prop :=
  (List.length cfg = n /\ List.nth_error cfg k = Some (Row row))
  \/ (List.length cfg = n * List.length row
      /\ forall i x, List.nth_error row i = Some x ->
                     List.nth_error cfg (k * List.length row + i) = Some (Scalar x)).

(** The state of the first loop after the joints [pre]: one reference per
    joint, one list per allocating joint, and the reference of the [k]-th
    joint, when it allocates, is to its own list. *)
Definition builder_inv (pre : list Joint.t) (b : cfg_builder) : Prop :=
  List.length (heap b) = allocs pre
  /\ List.length (config b) = List.length pre
  /\ (forall id, In id (config b) -> id < List.length (heap b))
  /\ (forall id, cfg_var b = Some id -> id < List.length (heap b))
  /\ (forall row, In row (heap b) -> row <> [])
  /\ (forall k j, List.nth_error pre k = Some j -> allocating j = true ->
                  List.nth_error (config b) k = Some (allocs (List.firstn k pre))
                  /\ exists row, initial_row j = Ok row
                                 /\ List.nth_error (heap b) (allocs (List.firstn k pre))
                                    = Some row).

(** Every joint takes a known branch, every limit of a revolute or
    prismatic joint that is no mimic has both bounds, and every mimic
    names a joint of the robot and has its multiplier and offset. *)
Definition default_cfg_defined (r : Robot.t) : bool :=
  List.forallb
    (fun j =>
       match Joint.mimic j with
       | Some m =>
           match Mimic.joint m with
           | Some t => List.existsb (String.eqb t) (List.map Joint.name (Robot.joints r))
           | None => false
           end
           && is_some (Mimic.multiplier m) && is_some (Mimic.offset m)
       | None =>
           if type_is j "revolute" || type_is j "prismatic" then
             match Joint.limit j with
             | Some l => is_some (Limit.lower l) && is_some (Limit.upper l)
             | None => true
             end
           else (type_is j "continuous" || type_is j "fixed")
                || type_is j "floating" || type_is j "planar"
       end)
    (Robot.joints r).

(** The state of the second loop: the lists of the joints that are no
    mimics are as the first loop built them. *)
Definition rows_inv (js : list Joint.t) (b : cfg_builder) (hp : list (list float)) : Prop :=
  List.length hp = List.length (heap b)
  /\ (forall row, In row hp -> row <> [])
  /\ (forall k j, List.nth_error js k = Some j -> allocating j = true ->
                  Joint.mimic j = None ->
                  exists row, initial_row j = Ok row
                              /\ List.nth_error hp (allocs (List.firstn k js)) = Some row).

(** A revolute joint with limits [0 .. 2] and a revolute joint with limits
    [0 .. 10] that mimics it with multiplier 2 and offset 1. *)
Definition robot_mimic_pair : Robot.t :=
  Robot.mk "pair" [Link_default "A"; Link_default "B"; Link_default "C"]
    [Joint.mk "j1" (Some "revolute") (Some "A") (Some "B") None
       (Some [1.0; 0; 0]%float) None
       (Some (Limit.mk None None (Some 0.0%float) (Some 2.0%float))) None None None;
     Joint.mk "j2" (Some "revolute") (Some "B") (Some "C") None
       (Some [1.0; 0; 0]%float) None
       (Some (Limit.mk None None (Some 0.0%float) (Some 10.0%float)))
       (Some (Mimic.mk (Some "j1") (Some 2.0%float) (Some 1.0%float))) None None]
    [] [].

(** ** What the validator can log *)

(** Every entry the validator adds to a log satisfies [P]. *)
Definition logs_only (P : exn -> Prop) (v : validator) : Prop :=
  forall errors, List.Forall P errors -> List.Forall P (log (v errors)).

(** The classes of the entries the validation methods append. *)
Definition validation_class (e : exn) : Prop :=
  exn_cls e = URDFIncompleteError
  \/ exn_cls e = URDFAttributeValueError
  \/ exn_cls e = URDFError.

(** ** Objects built by [__init__] *)

(** [URDF(robot=r)] when the call returns. *)
Definition urdf_of (r : Robot.t) : URDF.t :=
  match URDF__init__ (args_for r) with
  | Ok self => self
  | Err _ => blank_urdf r
  end.

(** The object after [update_cfg(c)] when the call returns. *)
Definition updated (self : URDF.t) (c : configuration) : URDF.t :=
  match update_cfg self c with
  | Ok self' => self'
  | Err _ => self
  end.

(** The second joint of [robot_mimic_pair] and its mimic. *)
Definition mimic_of_pair : Mimic.t :=
  Mimic.mk (Some "j1") (Some 2.0%float) (Some 1.0%float).

Definition joint_j2 : Joint.t :=
  Joint.mk "j2" (Some "revolute") (Some "B") (Some "C") None
    (Some [1.0; 0; 0]%float) None
    (Some (Limit.mk None None (Some 0.0%float) (Some 10.0%float)))
    (Some mimic_of_pair) None None.

(** ** Checking the mesh files *)

(** [m.geometry.mesh] for a visual or collision [m] *)
Definition geometry_mesh (g : option Geometry.t) : result (option Mesh.t) :=
  match g with
  | None => raise AttributeError "'NoneType' object has no attribute 'mesh'"
  | Some g' => Ok (Geometry.mesh g')
  end.

(** [[m.geometry.mesh for m in l.collisions + l.visuals
      if m.geometry.mesh is not None]] *)
Definition link_meshes (l : Link.t) : result (list Mesh.t) :=
  ms <- mapM geometry_mesh
          (List.map Collision.geometry (Link.collisions l)
           ++ List.map Visual.geometry (Link.visuals l)) ;;
  Ok (List.concat (List.map (fun m => match m with Some x => [x] | None => [] end) ms)).

(** [os.path.isfile(self._filename_handler(m.filename))]; a handler given
    [None] fails on the first string method it calls. *)
Definition mesh_is_file (isfile : string -> bool) (h : filename_handler_t) (m : Mesh.t)
  : result bool :=
  match Mesh.filename m with
  | None => raise AttributeError "'NoneType' object has no attribute 'startswith'"
  | Some fname => Ok (isfile (call_filename_handler isfile h fname))
  end.

(** The inner loop of [validate_filenames]: [false] is the early
    [return False]. *)
Fixpoint meshes_are_files (isfile : string -> bool) (h : filename_handler_t)
  (meshes : list Mesh.t) : result bool :=
  match meshes with
  | [] => Ok true
  | m :: rest =>
      b <- mesh_is_file isfile h m ;;
      if b then meshes_are_files isfile h rest else Ok false
  end.

Fixpoint validate_filenames_links (isfile : string -> bool) (h : filename_handler_t)
  (links : list Link.t) : result bool :=
  match links with
  | [] => Ok true
  | l :: rest =>
      meshes <- link_meshes l ;;
      b <- meshes_are_files isfile h meshes ;;
      if b then validate_filenames_links isfile h rest else Ok false
  end.

Definition validate_filenames (isfile : string -> bool) (self : URDF.t) : result bool :=
  validate_filenames_links isfile (URDF._filename_handler self)
    (Robot.links (URDF.robot self)).

(** ** Auxiliary notions for the properties below *)

(** [sep in s] for strings *)
Fixpoint contains_sub (sep s : string) : bool :=
  String.prefix sep s
  || match s with
     | EmptyString => false
     | String _ r => contains_sub sep r
     end.

(** The geometries of a link, collisions first, as [validate_filenames]
    walks them. *)
Definition link_geometries (l : Link.t) : list (option Geometry.t) :=
  List.map Collision.geometry (Link.collisions l)
  ++ List.map Visual.geometry (Link.visuals l).

(** The mesh file names of a robot in that order. *)
Definition mesh_filenames (r : Robot.t) : list (option string) :=
  List.concat
    (List.map
       (fun l =>
          List.concat
            (List.map
               (fun g => match g with
                         | Some g' =>
                             match Geometry.mesh g' with
                             | Some m => [Mesh.filename m]
                             | None => []
                             end
                         | None => []
                         end)
               (link_geometries l)))
       (Robot.links r)).

(** The last element of a list that satisfies a test. *)
Definition find_last {A : Type} (p : A -> bool) (xs : list A) : option A :=
  List.find p (List.rev xs).

(** ** What the validator needs to return and to stay silent *)

(** Every visual and collision has a geometry, and every revolute or
    prismatic joint a limit. *)
Definition robot_complete (r : Robot.t) : bool :=
  List.forallb
    (fun l => List.forallb (fun v => is_some (Visual.geometry v)) (Link.visuals l)
              && List.forallb (fun c => is_some (Collision.geometry c)) (Link.collisions l))
    (Robot.links r)
  && List.forallb
       (fun j => negb (option_str_eqb (Joint.type j) "revolute"
                       || option_str_eqb (Joint.type j) "prismatic")
                 || is_some (Joint.limit j))
       (Robot.joints r).

(** Whatever a validation method raises satisfies [P]. *)
Definition raises_only (P : exn -> Prop) (v : validator) : Prop :=
  forall errors e, raised (v errors) = Some e -> P e.

(** A validation method only ever extends the log. *)
Definition extends_log (v : validator) : Prop :=
  forall errors, List.length errors <= List.length (log (v errors)).

(** The method has returned and the log is empty. *)
Definition quiet (o : outcome) : bool :=
  match log o, raised o with
  | [], None => true
  | _, _ => false
  end.

Definition nonempty (s : string) : bool := negb (String.eqb s "").

Definition present (s : option string) : bool :=
  match s with Some t => nonempty t | None => false end.

(** Exactly one shape. *)
Definition geometry_ok (g : option Geometry.t) : bool :=
  match g with
  | Some g' => Nat.eqb (count_present g') 1
  | None => false
  end.

Definition limit_ok (l : option Limit.t) : bool :=
  match l with
  | Some l' => is_some (Limit.effort l') && is_some (Limit.velocity l')
  | None => false
  end.

Definition link_ok (l : Link.t) : bool :=
  nonempty (Link.name l)
  && (List.forallb (fun v => geometry_ok (Visual.geometry v)) (Link.visuals l)
      && List.forallb (fun c => geometry_ok (Collision.geometry c)) (Link.collisions l)).

Definition joint_ok (j : Joint.t) : bool :=
  nonempty (Joint.name j)
  && (match Joint.type j with
      | Some t => List.existsb (String.eqb t) allowed_types
      | None => false
      end
      && (present (Joint.parent j)
          && (present (Joint.child j)
              && (if option_str_eqb (Joint.type j) "revolute"
                     || option_str_eqb (Joint.type j) "prismatic"
                  then limit_ok (Joint.limit j) else true)))).

(** A named robot whose links and joints are named, whose visuals and
    collisions have exactly one shape each, whose joints have an allowed
    type, a parent and a child, and whose revolute and prismatic joints
    have a limit with effort and velocity. *)
Definition well_formed (r : Robot.t) : bool :=
  nonempty (Robot.name r)
  && (List.forallb link_ok (Robot.links r) && List.forallb joint_ok (Robot.joints r)).


(** ** Numbers that survive printing and reading *)

Fixpoint no_space (s : string) : bool :=
  match s with
  | EmptyString => true
  | String c r => negb (Py.is_space c) && no_space r
  end.

(** A piece [str.split()] returns whole. *)
Definition is_word (s : string) : bool := negb (String.eqb s "") && no_space s.

(** [str(x)] is one word and [float(str(x))] is [x]. *)
Definition prints_back (float_of_str : string -> option float)
  (str_of_float : float -> string) (x : float) : Prop :=
  is_word (str_of_float x) = true /\ float_of_str (str_of_float x) = Some x.

Definition opt_prints_back (float_of_str : string -> option float)
  (str_of_float : float -> string) (x : option float) : Prop :=
  match x with
  | Some x' => float_of_str (str_of_float x') = Some x'
  | None => True
  end.

(** How a mesh scale comes back from its attribute. *)
Definition scale_read_back (scale : option mesh_scale) : option mesh_scale :=
  match scale with
  | None => None
  | Some (ScaleFloat f) => Some (ScaleArray [f; f; f])
  | Some (ScaleArray []) => None
  | Some (ScaleArray [f]) => Some (ScaleFloat f)
  | Some (ScaleArray fs) => Some (ScaleArray fs)
  end.

(** The numbers of a mesh scale. *)
Definition scale_numbers (scale : option mesh_scale) : list float :=
  match scale with
  | None => []
  | Some (ScaleFloat f) => [f]
  | Some (ScaleArray fs) => fs
  end.


(** ** Documents and file names *)

(** The children [_parse_robot] looks at. *)
Definition link_or_joint (e : element) : bool :=
  String.eqb (Xml.tag e) "link" || String.eqb (Xml.tag e) "joint".

(** Every revolute or prismatic joint has a limit. *)
Definition joints_limited (r : Robot.t) : bool :=
  List.forallb
    (fun j => negb (option_str_eqb (Joint.type j) "revolute"
                    || option_str_eqb (Joint.type j) "prismatic")
              || is_some (Joint.limit j))
    (Robot.joints r).

(** The file a mesh file name resolves to exists. *)
Definition resolves (isfile : string -> bool) (h : filename_handler_t)
  (fname : option string) : bool :=
  match fname with
  | Some s => isfile (call_filename_handler isfile h s)
  | None => false
  end.

(** [str] of an entry, as the text read back. *)
Definition as_text (str_of_float : float -> string) (x : str_or_float) : str_or_float :=
  PyStr (py_str str_of_float x).

(** The dynamics read back from a written joint: every field that is
    present as the text [str] prints for it. *)
Definition dynamics_as_text (str_of_float : float -> string) (d : Dynamics.t)
  : Dynamics.t :=
  Dynamics.mk (option_map (as_text str_of_float) (Dynamics.damping d))
              (option_map (as_text str_of_float) (Dynamics.friction d)).

(** The geometry with its first shape only, in the order box, cylinder,
    sphere, mesh; the entries of a box as the text [str] prints for
    them. *)
Definition first_shape (str_of_float : float -> string) (g : Geometry.t) : Geometry.t :=
  match Geometry.box g, Geometry.cylinder g, Geometry.sphere g with
  | Some b, _, _ =>
      Geometry.mk (Some (Box.mk (List.map (as_text str_of_float) (Box.size b))))
        None None None
  | None, Some c, _ => Geometry.mk None (Some c) None None
  | None, None, Some s => Geometry.mk None None (Some s) None
  | None, None, None => Geometry.mk None None None (Geometry.mesh g)
  end.

(** The first shape is a box whose entries print as words, or a cylinder
    or sphere whose numbers read back from their printed form. *)
Definition shape_prints_back (float_of_str : string -> option float)
  (str_of_float : float -> string) (g : Geometry.t) : Prop :=
  match Geometry.box g, Geometry.cylinder g, Geometry.sphere g with
  | Some b, _, _ =>
      List.forallb is_word (List.map (py_str str_of_float) (Box.size b)) = true
  | None, Some c, _ =>
      float_of_str (str_of_float (Cylinder.radius c)) = Some (Cylinder.radius c)
      /\ float_of_str (str_of_float (Cylinder.length c)) = Some (Cylinder.length c)
  | None, None, Some s =>
      float_of_str (str_of_float (Sphere.radius s)) = Some (Sphere.radius s)
  | None, None, None => False
  end.

(** The joint names a configuration dict has as keys. *)
Definition dict_names (d : list (dict_key * float)) : list string :=
  List.concat
    (List.map (fun kv => match fst kv with KeyStr s => [s] | KeyOther => [] end) d).


(* ================================================================== *)
(** * Properties of the filename handlers *)
(* ================================================================== *)

Lemma foldM_app {A S : Type} (f : S -> A -> result S) (xs ys : list A) (s : S) :
  foldM f (xs ++ ys) s = (s' <- foldM f xs s ;; foldM f ys s').
Proof.
  revert s; induction xs as [|x xs IH]; intros s; simpl; [reflexivity|].
  destruct (f s x) as [s'|e]; simpl; [apply IH | reflexivity].
Qed.

Lemma split_fst_dirname (p : string) : fst (PosixPath.split p) = PosixPath.dirname p.
Proof. reflexivity. Qed.

Lemma ancestor_shift (k : nat) (path : string) :
  ancestor (S k) path = ancestor k (PosixPath.dirname path).
Proof.
  unfold ancestor. induction k as [|k IH]; [reflexivity|].
  change (Nat.iter (S (S k)) PosixPath.dirname path)
    with (PosixPath.dirname (Nat.iter (S k) PosixPath.dirname path)).
  rewrite IH. reflexivity.
Qed.

(** The handler of level [i] joins the reference with the [(i+1)]-th
    ancestor of the path it was made for. *)
Lemma recursive_handler_level (fname urdf_fname : string) (level : nat) :
  filename_handler_relative_to_urdf_file_recursive fname urdf_fname level
  = PosixPath.join (ancestor (S level) urdf_fname)
      (filename_handler_ignore_directive_package fname).
Proof.
  revert urdf_fname. induction level as [|level IH]; intros urdf_fname.
  - reflexivity.
  - change (filename_handler_relative_to_urdf_file_recursive fname urdf_fname (S level))
      with (filename_handler_relative_to_urdf_file_recursive
              fname (fst (PosixPath.split urdf_fname)) level).
    rewrite split_fst_dirname, IH, <- ancestor_shift. reflexivity.
Qed.

(** The meta handler returns the first produced path that is a file, and
    its input when there is none. *)
Lemma filename_handler_meta_first_existing (isfile : string -> bool)
  (fname : string) (handlers : list (string -> string)) :
  filename_handler_meta isfile fname handlers
  = first_existing isfile (List.map (fun fn => fn fname) handlers) fname.
Proof.
  unfold first_existing.
  induction handlers as [|fn rest IH]; simpl; [reflexivity|].
  destruct (isfile (fn fname)); [reflexivity | exact IH].
Qed.

Lemma filename_handler_magic_candidates (isfile : string -> bool) (fname dir : string) :
  filename_handler_magic isfile fname dir
  = first_existing isfile
      (candidates dir (filename_handler_ignore_directive_package fname)) fname.
Proof.
  unfold filename_handler_magic. rewrite filename_handler_meta_first_existing.
  f_equal. unfold candidates, _create_filename_handlers_to_urdf_file_recursive, depth.
  simpl List.map. f_equal. rewrite List.map_map.
  apply List.map_ext. intros i. apply recursive_handler_level.
Qed.

Lemma first_existing_none (isfile : string -> bool) (paths : list string) (fname : string) :
  List.forallb (fun p => negb (isfile p)) paths = true ->
  first_existing isfile paths fname = fname.
Proof.
  unfold first_existing. induction paths as [|p rest IH]; simpl; [reflexivity|].
  intros H. apply andb_prop in H. destruct H as [Hp Hrest].
  destruct (isfile p); [discriminate | exact (IH Hrest)].
Qed.

Lemma first_existing_found (isfile : string -> bool) (before after : list string)
  (p fname : string) :
  List.forallb (fun q => negb (isfile q)) before = true ->
  isfile p = true ->
  first_existing isfile (before ++ p :: after) fname = p.
Proof.
  unfold first_existing. induction before as [|q rest IH]; simpl; intros Hb Hp.
  - rewrite Hp. reflexivity.
  - apply andb_prop in Hb. destruct Hb as [Hq Hrest].
    destruct (isfile q); [discriminate | exact (IH Hrest Hp)].
Qed.

(** C6. For the reference ["package://pkg/meshes/part.stl"] the default
    resolver strips the directive and the package segment, leaving
    ["meshes/part.stl"]; its candidates are the join of that remainder with
    the mesh directory followed by the joins with the ancestor directories,
    one per component of the normalised directory path and nearest first;
    it returns the first candidate that is a file; and when no candidate is
    a file it returns the reference unchanged.  The functions are total: no
    exception is raised on any path. *)
Theorem filename_handler_magic_package_reference
  (isfile : string -> bool) (dir : string) :
  let fname := "package://pkg/meshes/part.stl" in
  let paths :=
    PosixPath.join dir "meshes/part.stl"
      :: List.map (fun i => PosixPath.join (ancestor (S i) dir) "meshes/part.stl")
           (List.seq 0 (depth dir)) in
  filename_handler_ignore_directive_package fname = "meshes/part.stl"
  /\ filename_handler_magic isfile fname dir = first_existing isfile paths fname
  /\ (forall before p after,
         paths = before ++ p :: after ->
         List.forallb (fun q => negb (isfile q)) before = true ->
         isfile p = true ->
         filename_handler_magic isfile fname dir = p)
  /\ (List.forallb (fun q => negb (isfile q)) paths = true ->
      filename_handler_magic isfile fname dir = fname).
Proof.
  intros fname paths.
  assert (Hstrip : filename_handler_ignore_directive_package fname = "meshes/part.stl")
    by reflexivity.
  assert (Hmagic : filename_handler_magic isfile fname dir
                   = first_existing isfile paths fname).
  { rewrite filename_handler_magic_candidates, Hstrip. reflexivity. }
  split; [exact Hstrip|]. split; [exact Hmagic|]. split.
  - intros before p after Hsplit Hbefore Hp.
    rewrite Hmagic, Hsplit. apply first_existing_found; assumption.
  - intros Hnone. rewrite Hmagic. apply first_existing_none. exact Hnone.
Qed.

(** The resolution on a concrete tree: the mesh directory is
    [/home/u/robots] and the mesh lies two levels up. *)
Lemma filename_handler_magic_two_levels_up :
  filename_handler_magic (fun p => String.eqb p "/home/meshes/part.stl")
    "package://pkg/meshes/part.stl" "/home/u/robots"
  = "/home/meshes/part.stl".
Proof.
  apply (proj1 (proj2 (proj2
           (filename_handler_magic_package_reference
              (fun p => String.eqb p "/home/meshes/part.stl") "/home/u/robots")))
           ["/home/u/robots/meshes/part.stl"; "/home/u/meshes/part.stl"]
           "/home/meshes/part.stl"
           ["/meshes/part.stl"; "/meshes/part.stl"]).
  - vm_compute. reflexivity.
  - vm_compute. reflexivity.
  - vm_compute. reflexivity.
Defined.

Example filename_handler_magic_example :
  filename_handler_magic (fun p => String.eqb p "/home/meshes/part.stl")
    "package://pkg/meshes/part.stl" "/home/u/robots"
  = "/home/meshes/part.stl"
  /\ candidates "/home/u/robots" "meshes/part.stl"
     = ["/home/u/robots/meshes/part.stl"; "/home/u/meshes/part.stl";
        "/home/meshes/part.stl"; "/meshes/part.stl"; "/meshes/part.stl"]
  /\ filename_handler_magic (fun _ => false)
       "package://pkg/meshes/part.stl" "/home/u/robots"
     = "package://pkg/meshes/part.stl".
Proof. repeat split; vm_compute; reflexivity. Qed.

(* ================================================================== *)
(** * Base-link determination *)
(* ================================================================== *)

Lemma existsb_eqb_In (x : string) (xs : list string) :
  List.existsb (String.eqb x) xs = true <-> In x xs.
Proof.
  rewrite List.existsb_exists. split.
  - intros [y [Hy Heq]]. apply String.eqb_eq in Heq. subst. exact Hy.
  - intros H. exists x. split; [exact H | apply String.eqb_refl].
Qed.

Lemma nodupb_NoDup (xs : list string) : nodupb xs = true -> NoDup xs.
Proof.
  induction xs as [|x rest IH]; simpl; intros H; [constructor|].
  apply andb_prop in H. destruct H as [Hx Hrest].
  constructor; [|exact (IH Hrest)].
  intros Hin. apply existsb_eqb_In in Hin. rewrite Hin in Hx. discriminate.
Qed.

Lemma mem_name_Some_In (x : string) (xs : list (option string)) :
  mem_name (Some x) xs = true <-> In (Some x) xs.
Proof.
  unfold mem_name. rewrite List.existsb_exists. split.
  - intros [y [Hy Heq]]. destruct y as [y|]; simpl in Heq; [|discriminate].
    apply String.eqb_eq in Heq. subst. exact Hy.
  - intros H. exists (Some x). split; [exact H | simpl; apply String.eqb_refl].
Qed.

Lemma filter_id {A : Type} (p : A -> bool) (xs : list A) :
  (forall x, In x xs -> p x = true) -> List.filter p xs = xs.
Proof.
  induction xs as [|x rest IH]; simpl; intros H; [reflexivity|].
  rewrite (H x (or_introl eq_refl)). f_equal. apply IH. intros y Hy. apply H. right. exact Hy.
Qed.

Lemma filter_filter {A : Type} (p q : A -> bool) (xs : list A) :
  List.filter p (List.filter q xs) = List.filter (fun x => q x && p x) xs.
Proof.
  induction xs as [|x rest IH]; simpl; [reflexivity|].
  destruct (q x); simpl; [destruct (p x)|]; rewrite IH; reflexivity.
Qed.

(** Removing an element of a duplicate-free list filters it out. *)
Lemma list_remove_NoDup (xs : list string) (x : string) :
  NoDup xs -> In x xs ->
  list_remove xs x = Ok (List.filter (fun y => negb (String.eqb y x)) xs).
Proof.
  induction xs as [|y ys IH]; simpl; intros Hnd Hin; [contradiction|].
  inversion Hnd as [|? ? Hy Hys]; subst.
  destruct (String.eqb y x) eqn:E; simpl.
  - apply String.eqb_eq in E. subst y. f_equal. symmetry. apply filter_id.
    intros z Hz. destruct (String.eqb z x) eqn:Ez; [|reflexivity].
    apply String.eqb_eq in Ez. subst z. contradiction.
  - destruct Hin as [Heq|Hin]; [subst; rewrite String.eqb_refl in E; discriminate|].
    rewrite (IH Hys Hin). reflexivity.
Qed.

(** What [list.remove] returns is the list without one occurrence. *)
Lemma list_remove_inv (xs ys : list string) (x : string) :
  list_remove xs x = Ok ys ->
  In x xs /\ (forall z, In z ys -> In z xs) /\ (NoDup xs -> NoDup ys /\ ~ In x ys).
Proof.
  revert ys. induction xs as [|y rest IH]; simpl; intros ys H; [discriminate|].
  destruct (String.eqb y x) eqn:E.
  - apply String.eqb_eq in E. subst y. inversion H; subst ys. split; [left; reflexivity|].
    split; [intros z Hz; right; exact Hz|].
    intros Hnd. inversion Hnd; subst. split; assumption.
  - destruct (list_remove rest x) as [rest'|e] eqn:R; simpl in H; [|discriminate].
    inversion H; subst ys. destruct (IH rest' eq_refl) as [Hin [Hsub Hnd]].
    split; [right; exact Hin|]. split.
    + intros z [Hz|Hz]; [left; exact Hz | right; apply Hsub; exact Hz].
    + intros Hnd'. inversion Hnd' as [|? ? Hy Hrest]; subst.
      destruct (Hnd Hrest) as [Hnd'' Hx]. split.
      * constructor; [intros Hc; apply Hy, Hsub, Hc | exact Hnd''].
      * intros [Hc|Hc]; [subst; rewrite String.eqb_refl in E; discriminate | exact (Hx Hc)].
Qed.

Lemma list_remove_err (xs : list string) (x : string) (e : exn) :
  list_remove xs x = Err e -> e = not_in_list.
Proof.
  induction xs as [|y rest IH]; simpl; intros H.
  - inversion H. reflexivity.
  - destruct (String.eqb y x); [discriminate|].
    destruct (list_remove rest x) as [rest'|e'] eqn:R; simpl in H; [discriminate|].
    inversion H; subst. apply IH. reflexivity.
Qed.

Lemma list_remove_opt_err (xs : list string) (x : option string) (e : exn) :
  list_remove_opt xs x = Err e -> e = not_in_list.
Proof.
  destruct x as [x|]; simpl; intros H; [exact (list_remove_err _ _ _ H)|].
  inversion H. reflexivity.
Qed.

(** The loop of [_determine_base_link] over joints whose children are
    distinct names of the list. *)
Lemma remove_children_filter (joints : list Joint.t) (names : list string) :
  NoDup names ->
  opt_nodupb (List.map Joint.child joints) = true ->
  (forall c, In c (List.map Joint.child joints) ->
             exists s, c = Some s /\ In s names) ->
  foldM (fun link_names j => list_remove_opt link_names (Joint.child j)) joints names
  = Ok (List.filter
          (fun l => negb (mem_name (Some l) (List.map Joint.child joints))) names).
Proof.
  revert names. induction joints as [|j rest IH]; intros names Hnd Hch Hres.
  - simpl. f_equal. symmetry. apply filter_id. reflexivity.
  - simpl in Hch. apply andb_prop in Hch. destruct Hch as [Hj Hrest].
    destruct (Hres (Joint.child j) (or_introl eq_refl)) as [c [Hc Hin]].
    simpl foldM. rewrite Hc. simpl list_remove_opt.
    rewrite (list_remove_NoDup _ _ Hnd Hin). simpl bind.
    rewrite IH.
    + f_equal. rewrite filter_filter. apply List.filter_ext. intros l.
      simpl. rewrite Hc. simpl. rewrite negb_orb. reflexivity.
    + apply List.NoDup_filter. exact Hnd.
    + exact Hrest.
    + intros c' Hc'. destruct (Hres c' (or_intror Hc')) as [s [Hs Hsin]].
      exists s. split; [exact Hs|]. apply List.filter_In. split; [exact Hsin|].
      destruct (String.eqb s c) eqn:E; [|reflexivity].
      apply String.eqb_eq in E. subst s c'. rewrite Hc in Hj.
      apply mem_name_Some_In in Hc'. rewrite Hc' in Hj. discriminate.
Qed.

(** C9. For a robot whose link names are distinct and whose joints name
    distinct existing links as their children (a tree, and also a forest
    or a cycle), base-link determination returns the first link, in
    declaration order, without an incoming joint edge: the unique such link
    when there is exactly one, and none when every link has an incoming
    edge. *)
Theorem determine_base_link_root (self : URDF.t) :
  let r := URDF.robot self in
  nodupb (link_names r) = true ->
  children_resolve r = true ->
  opt_nodupb (child_refs r) = true ->
  _determine_base_link self = Ok (List.hd_error (root_candidates r))
  /\ (forall l, root_candidates r = [l] -> _determine_base_link self = Ok (Some l))
  /\ (root_candidates r = [] -> _determine_base_link self = Ok None).
Proof.
  intros r Hlinks Hres Hch.
  assert (Heq : _determine_base_link self = Ok (List.hd_error (root_candidates r))).
  { unfold _determine_base_link.
    change (List.map Link.name (Robot.links (URDF.robot self))) with (link_names r).
    change (URDF.robot self) with r.
    rewrite (remove_children_filter (Robot.joints r) (link_names r)).
    - simpl. unfold root_candidates, has_incoming, child_refs.
      destruct (List.filter _ (link_names r)); reflexivity.
    - apply nodupb_NoDup. exact Hlinks.
    - exact Hch.
    - intros c Hc. unfold children_resolve in Hres.
      rewrite List.forallb_forall in Hres. specialize (Hres c Hc).
      destruct c as [s|]; [|discriminate].
      exists s. split; [reflexivity | apply existsb_eqb_In; exact Hres]. }
  split; [exact Heq|]. split.
  - intros l Hl. rewrite Heq, Hl. reflexivity.
  - intros Hnil. rewrite Heq, Hnil. reflexivity.
Qed.

Lemma determine_base_link_abc :
  nodupb (link_names robot_abc) = true
  /\ children_resolve robot_abc = true
  /\ opt_nodupb (child_refs robot_abc) = true
  /\ _determine_base_link (blank_urdf robot_abc) = Ok (Some "A").
Proof.
  split; [reflexivity|]. split; [reflexivity|]. split; [reflexivity|].
  exact (proj1 (determine_base_link_root (blank_urdf robot_abc)
                  eq_refl eq_refl eq_refl)).
Defined.

(** A child reference that is [None] or names no element of the list makes
    the loop raise. *)
Lemma remove_children_dangling (joints : list Joint.t) (names : list string)
  (j : Joint.t) :
  In j joints ->
  (forall c, Joint.child j = Some c -> ~ In c names) ->
  foldM (fun link_names j => list_remove_opt link_names (Joint.child j)) joints names
  = Err not_in_list.
Proof.
  revert names. induction joints as [|j0 rest IH]; intros names Hin Hc; [contradiction|].
  simpl foldM.
  destruct (list_remove_opt names (Joint.child j0)) as [names'|e] eqn:R; simpl.
  - destruct (Joint.child j0) as [c0|] eqn:C0; simpl in R; [|discriminate].
    destruct (list_remove_inv _ _ _ R) as [Hin0 [Hsub _]].
    destruct Hin as [Heq|Hin].
    + subst j0. exfalso. exact (Hc c0 C0 Hin0).
    + apply IH; [exact Hin|]. intros c Hjc Hc'. exact (Hc c Hjc (Hsub c Hc')).
  - rewrite (list_remove_opt_err _ _ _ R). reflexivity.
Qed.

(** With distinct names in the list, a child named twice makes the loop
    raise at the second removal at the latest. *)
Lemma remove_children_duplicate (joints : list Joint.t) (names : list string) :
  NoDup names ->
  opt_nodupb (List.map Joint.child joints) = false ->
  foldM (fun link_names j => list_remove_opt link_names (Joint.child j)) joints names
  = Err not_in_list.
Proof.
  revert names. induction joints as [|j0 rest IH]; intros names Hnd Hdup; [discriminate|].
  simpl foldM.
  destruct (list_remove_opt names (Joint.child j0)) as [names'|e] eqn:R; simpl.
  - destruct (Joint.child j0) as [c0|] eqn:C0; simpl in R; [|discriminate].
    destruct (list_remove_inv _ _ _ R) as [_ [_ Hnd']].
    destruct (Hnd' Hnd) as [Hnd'' Hout].
    simpl in Hdup. rewrite C0 in Hdup.
    destruct (mem_name (Some c0) (List.map Joint.child rest)) eqn:M; simpl in Hdup.
    + apply mem_name_Some_In in M. apply List.in_map_iff in M.
      destruct M as [j [Hj Hin]].
      apply (remove_children_dangling rest names' j Hin).
      intros c Hjc. rewrite Hj in Hjc. inversion Hjc; subst c. exact Hout.
    + apply IH; assumption.
  - rewrite (list_remove_opt_err _ _ _ R). reflexivity.
Qed.

Lemma determine_base_link_broken (self : URDF.t) :
  children_resolve (URDF.robot self) = false
  \/ (nodupb (link_names (URDF.robot self)) = true
      /\ opt_nodupb (child_refs (URDF.robot self)) = false) ->
  _determine_base_link self = Err not_in_list.
Proof.
  intros H. unfold _determine_base_link.
  match goal with |- bind ?m _ = _ => assert (Hm : m = Err not_in_list) end.
  { destruct H as [Hres | [Hnd Hdup]].
    - unfold children_resolve, child_refs in Hres.
      assert (Hex : List.existsb
                      (fun c => negb match c with
                                     | Some s => List.existsb (String.eqb s)
                                                   (link_names (URDF.robot self))
                                     | None => false
                                     end)
                      (List.map Joint.child (Robot.joints (URDF.robot self))) = true).
      { clear -Hres. induction (List.map Joint.child (Robot.joints (URDF.robot self)))
          as [|c rest IH]; simpl in *; [discriminate|].
        destruct c as [s|]; simpl; [|reflexivity].
        destruct (List.existsb (String.eqb s) (link_names (URDF.robot self)));
          simpl in *; [exact (IH Hres) | reflexivity]. }
      apply List.existsb_exists in Hex. destruct Hex as [c [Hc Hbad]].
      apply List.in_map_iff in Hc. destruct Hc as [j [Hj Hin]].
      apply (remove_children_dangling _ _ j Hin).
      intros s Hs Hmem. rewrite Hj in Hs. subst c.
      apply existsb_eqb_In in Hmem. unfold link_names in Hbad.
      rewrite Hs, Hmem in Hbad. discriminate.
    - apply remove_children_duplicate; [apply nodupb_NoDup; exact Hnd | exact Hdup]. }
  rewrite Hm. reflexivity.
Qed.

Lemma get_default_cfg_robot (s1 s2 : URDF.t) :
  URDF.robot s1 = URDF.robot s2 -> get_default_cfg s1 = get_default_cfg s2.
Proof.
  intros H. unfold get_default_cfg, default_config_rows. rewrite H. reflexivity.
Qed.

Lemma logs_only_skip (P : exn -> Prop) : logs_only P v_skip.
Proof. intros errors H. exact H. Qed.

Lemma logs_only_append (P : exn -> Prop) (cls : exn_class) (msg : string) :
  P (Raise cls msg) -> logs_only P (v_append cls msg).
Proof.
  intros HP errors H. simpl. apply List.Forall_app. split; [exact H|].
  constructor; [exact HP | constructor].
Qed.

Lemma logs_only_raise (P : exn -> Prop) (cls : exn_class) (msg : string) :
  logs_only P (v_raise cls msg).
Proof. intros errors H. exact H. Qed.

Lemma logs_only_seq (P : exn -> Prop) (a b : validator) :
  logs_only P a -> logs_only P b -> logs_only P (v_seq a b).
Proof.
  intros Ha Hb errors H. unfold v_seq.
  destruct (raised (a errors)); [apply Ha; exact H | apply Hb, Ha; exact H].
Qed.

Lemma logs_only_for {A : Type} (P : exn -> Prop) (f : A -> validator) (xs : list A) :
  (forall x, logs_only P (f x)) -> logs_only P (v_for f xs).
Proof.
  intros Hf. induction xs as [|x rest IH]; simpl;
    [apply logs_only_skip | apply logs_only_seq; [apply Hf | exact IH]].
Qed.

Lemma logs_only_required_attribute (attribute : pyobj) (msg : string)
  (allowed : option (list string)) :
  logs_only validation_class (_validate_required_attribute attribute msg allowed).
Proof.
  unfold _validate_required_attribute. apply logs_only_seq.
  - destruct attribute as [|s|]; try apply logs_only_skip.
    + apply logs_only_append. left. reflexivity.
    + destruct (Nat.eqb (String.length s) 0);
        [apply logs_only_append; left; reflexivity | apply logs_only_skip].
  - destruct allowed as [al|]; destruct attribute as [|s|]; try apply logs_only_skip.
    + destruct (List.existsb (String.eqb s) al);
        [apply logs_only_skip | apply logs_only_append; right; left; reflexivity].
    + apply logs_only_append. right. left. reflexivity.
Qed.

Lemma logs_only_geometry (g : option Geometry.t) :
  logs_only validation_class (_validate_geometry g).
Proof.
  unfold _validate_geometry. apply logs_only_seq.
  - destruct g; [apply logs_only_skip | apply logs_only_append; left; reflexivity].
  - destruct g as [g|]; [|apply logs_only_raise].
    destruct (Nat.ltb (count_present g) 1);
      [apply logs_only_append; left; reflexivity|].
    destruct (Nat.ltb 1 (count_present g));
      [apply logs_only_append; right; right; reflexivity | apply logs_only_skip].
Qed.

(** The validator logs entries of the classes [URDFIncompleteError],
    [URDFAttributeValueError] and [URDFError] only. *)
Lemma logs_only_robot (robot : option Robot.t) :
  logs_only validation_class (_validate_robot robot).
Proof.
  destruct robot as [r|]; [|apply logs_only_skip].
  unfold _validate_robot.
  apply logs_only_seq; [apply logs_only_required_attribute|].
  apply logs_only_seq; apply logs_only_for.
  - intros l. unfold _validate_link.
    apply logs_only_seq; [apply logs_only_required_attribute|].
    apply logs_only_seq; apply logs_only_for; intros x; apply logs_only_geometry.
  - intros j. unfold _validate_joint.
    repeat (apply logs_only_seq; [apply logs_only_required_attribute|]).
    destruct (option_str_eqb (Joint.type j) "revolute"
              || option_str_eqb (Joint.type j) "prismatic"); [|apply logs_only_skip].
    apply logs_only_seq; [apply logs_only_required_attribute|].
    unfold _validate_limit. destruct (Joint.limit j); [|apply logs_only_raise].
    apply logs_only_seq; apply logs_only_required_attribute.
Qed.

(** C10. When a joint's child names no link of the robot, or when the link
    names are distinct and two joints name the same child, base-link
    determination raises [ValueError] from [list.remove]; hence
    constructing the object with a scene graph to build (the default, and
    so [URDF.load] of such a document) raises: the exception is the one of
    base-link determination whenever the default configuration before it
    was computed.  No object is left to validate, and the validator logs
    no [URDFBrokenRefError] for any robot. *)
Theorem init_raises_on_broken_child_reference (a : init_args) (r : Robot.t) :
  arg_robot a = Some r ->
  arg_build_scene_graph a || arg_build_collision_scene_graph a = true ->
  children_resolve r = false
  \/ (nodupb (link_names r) = true /\ opt_nodupb (child_refs r) = false) ->
  (forall self, URDF.robot self = r -> _determine_base_link self = Err not_in_list)
  /\ (exists e, URDF__init__ a = Err e)
  /\ (forall cfg, get_default_cfg (blank_urdf r) = Ok cfg ->
                  URDF__init__ a = Err not_in_list)
  /\ (forall float_of_str xml_root,
         a = args_for r ->
         _parse_robot float_of_str xml_root = Ok r ->
         exists e, load float_of_str xml_root [] = Err e)
  /\ List.Forall (fun e => exn_cls e <> URDFBrokenRefError)
       (log (_validate_robot (Some r) [])).
Proof.
  intros Hr Hbuild Hbroken.
  assert (Hbase : forall self, URDF.robot self = r ->
                               _determine_base_link self = Err not_in_list).
  { intros self Hself. apply determine_base_link_broken. rewrite Hself. exact Hbroken. }
  assert (Hinit : forall cfg, get_default_cfg (blank_urdf r) = Ok cfg ->
                              URDF__init__ a = Err not_in_list).
  { intros cfg Hcfg. unfold URDF__init__. rewrite Hr.
    match goal with
    | |- context [get_default_cfg ?s] =>
        rewrite (get_default_cfg_robot s (blank_urdf r) eq_refl), Hcfg
    end.
    simpl bind. rewrite Hbuild. rewrite Hbase; reflexivity. }
  assert (Hex : exists e, URDF__init__ a = Err e).
  { destruct (get_default_cfg (blank_urdf r)) as [cfg|e] eqn:Hcfg.
    - exists not_in_list. exact (Hinit cfg eq_refl).
    - exists e. unfold URDF__init__. rewrite Hr.
      match goal with
      | |- context [get_default_cfg ?s] =>
          rewrite (get_default_cfg_robot s (blank_urdf r) eq_refl), Hcfg
      end.
      reflexivity. }
  split; [exact Hbase|]. split; [exact Hex|]. split; [exact Hinit|]. split.
  - intros float_of_str xml_root Ha Hparse. unfold load. rewrite Hparse. simpl bind.
    subst a. exact Hex.
  - eapply List.Forall_impl; [|apply (logs_only_robot (Some r) []); constructor].
    intros e [H|[H|H]]; rewrite H; discriminate.
Qed.

Lemma init_raises_on_dangling_child :
  children_resolve robot_dangling_child = false
  /\ URDF__init__ (args_for robot_dangling_child) = Err not_in_list.
Proof.
  split; [reflexivity|].
  exact (proj1 (proj2 (proj2
           (init_raises_on_broken_child_reference
              (args_for robot_dangling_child) robot_dangling_child
              eq_refl eq_refl (or_introl eq_refl))))
           [Scalar 0%float] eq_refl).
Defined.

Example init_raises_on_shared_child :
  URDF__init__ (args_for robot_shared_child) = Err not_in_list.
Proof. vm_compute. reflexivity. Qed.

(* ================================================================== *)
(** * The length check of [update_cfg] *)
(* ================================================================== *)

Lemma no_dimension_error_bind {A B : Type} (m : result A) (k : A -> result B) :
  no_dimension_error m -> (forall a, no_dimension_error (k a)) ->
  no_dimension_error (bind m k).
Proof.
  intros Hm Hk. destruct m as [a|e]; simpl; [apply Hk | exact Hm].
Qed.

Lemma no_dimension_error_foldM {A S : Type} (f : S -> A -> result S)
  (xs : list A) (s : S) :
  (forall s' x, no_dimension_error (f s' x)) -> no_dimension_error (foldM f xs s).
Proof.
  intros Hf. revert s. induction xs as [|x rest IH]; intros s; simpl; [exact I|].
  apply no_dimension_error_bind; [apply Hf | intros s'; apply IH].
Qed.

Lemma no_dimension_error_index (xs : list string) (x : string) :
  no_dimension_error (Py.index xs x).
Proof.
  unfold Py.index. destruct (Py.index_from x xs 0); simpl; [exact I | reflexivity].
Qed.

Lemma no_dimension_error_index_opt (xs : list string) (x : option string) :
  no_dimension_error (index_opt xs x).
Proof.
  destruct x as [x|]; simpl; [apply no_dimension_error_index | reflexivity].
Qed.

Lemma no_dimension_error_fk (self : URDF.t) (joint : Joint.t) (q : cell) :
  no_dimension_error (_forward_kinematics_joint self joint q).
Proof.
  unfold _forward_kinematics_joint.
  apply no_dimension_error_bind.
  - destruct (Joint.mimic joint) as [m|]; [|exact I].
    apply no_dimension_error_bind; [apply no_dimension_error_index_opt|].
    intros i. apply no_dimension_error_bind.
    + unfold cfg_getitem. destruct (List.nth_error _ i); simpl; [exact I | reflexivity].
    + intros c. apply no_dimension_error_bind; [|intros v; exact I].
      destruct c as [x|xs]; simpl; [|reflexivity].
      destruct (Mimic.multiplier m); simpl; [|reflexivity].
      destruct (Mimic.offset m); simpl; [exact I | reflexivity].
  - intros q'. apply no_dimension_error_bind; [|intros mtx; exact I].
    destruct (option_str_eqb (Joint.type joint) "revolute").
    + destruct q' as [x|xs]; [destruct (Joint.axis joint)|]; simpl;
        first [exact I | reflexivity].
    + destruct (option_str_eqb (Joint.type joint) "prismatic"
                || option_str_eqb (Joint.type joint) "continuous"); [|exact I].
      destruct q' as [x|xs]; [destruct (Joint.axis joint)|]; simpl;
        first [exact I | reflexivity].
Qed.

Lemma no_dimension_error_update_joint (self : URDF.t) (jq : Joint.t * cell) :
  no_dimension_error (update_joint self jq).
Proof.
  unfold update_joint.
  apply no_dimension_error_bind; [apply no_dimension_error_fk|].
  intros [matrix joint_q].
  apply no_dimension_error_bind; [apply no_dimension_error_index|].
  intros i. apply no_dimension_error_bind; [|intros cfg; exact I].
  unfold cfg_setitem. destruct (Nat.ltb i _); simpl; [exact I | reflexivity].
Qed.

Lemma filter_enumerated (js : list Joint.t) (a : nat) :
  List.map snd
    (List.filter (fun ij : nat * Joint.t => is_actuated (snd ij))
       (List.combine (List.seq a (List.length js)) js))
  = List.filter is_actuated js.
Proof.
  revert a. induction js as [|j rest IH]; intros a; [reflexivity|].
  simpl. destruct (is_actuated j); simpl; rewrite IH; reflexivity.
Qed.

(** The actuated joints an object holds after [__init__]: the joints of
    its robot that are neither mimics nor fixed. *)
Lemma init_actuated_joints (a : init_args) (self : URDF.t) :
  URDF__init__ a = Ok self ->
  arg_robot a = Some (URDF.robot self)
  /\ URDF._actuated_joints self
     = List.filter is_actuated (Robot.joints (URDF.robot self)).
Proof.
  unfold URDF__init__. intros H.
  destruct (arg_robot a) as [r|]; [|discriminate].
  repeat match type of H with
         | bind ?m _ = _ => destruct m; simpl bind in H; [|discriminate]
         end.
  inversion H; subst self; clear H. simpl.
  split; [reflexivity | apply filter_enumerated].
Qed.

(** C3. [update_cfg] on a sequence whose length is neither the number of
    joints nor the number of actuated joints raises the [ValueError] of the
    length check (the module's dimension-mismatch error); on a sequence of
    either length the values are paired with the joints and the update loop
    runs, and whatever it then raises is not that error.  For an object
    built by [__init__] the actuated joints are the joints that are neither
    fixed nor mimics. *)
Theorem update_cfg_dimension_check (self : URDF.t) (xs : list float) :
  let n := List.length xs in
  let n_all := List.length (Robot.joints (URDF.robot self)) in
  let n_act := num_actuated_joints self in
  (n <> n_all /\ n <> n_act ->
   update_cfg self (CfgSeq xs)
   = Err (Raise ValueError (dimensionality_msg n n_all n_act)))
  /\ is_dimension_error (Raise ValueError (dimensionality_msg n n_all n_act)) = true
  /\ (n = n_all ->
      update_cfg self (CfgSeq xs)
      = foldM update_joint
          (List.combine (Robot.joints (URDF.robot self)) (List.map Scalar xs)
           ++ mimic_updates self) self)
  /\ (n <> n_all -> n = n_act ->
      update_cfg self (CfgSeq xs)
      = foldM update_joint
          (List.combine (URDF._actuated_joints self) (List.map Scalar xs)
           ++ mimic_updates self) self)
  /\ (n = n_all \/ n = n_act ->
      forall e, update_cfg self (CfgSeq xs) = Err e -> is_dimension_error e = false)
  /\ (forall a, URDF__init__ a = Ok self ->
                n_act = List.length
                          (List.filter is_actuated (Robot.joints (URDF.robot self)))).
Proof.
  intros n n_all n_act.
  assert (Hall : n = n_all ->
                 update_cfg self (CfgSeq xs)
                 = foldM update_joint
                     (List.combine (Robot.joints (URDF.robot self)) (List.map Scalar xs)
                      ++ mimic_updates self) self).
  { intros H. unfold update_cfg, build_joint_cfg. fold n n_all.
    rewrite H, Nat.eqb_refl. reflexivity. }
  assert (Hact : n <> n_all -> n = n_act ->
                 update_cfg self (CfgSeq xs)
                 = foldM update_joint
                     (List.combine (URDF._actuated_joints self) (List.map Scalar xs)
                      ++ mimic_updates self) self).
  { intros Hne H. unfold update_cfg, build_joint_cfg. fold n n_all n_act.
    apply Nat.eqb_neq in Hne. rewrite Hne, H, Nat.eqb_refl. reflexivity. }
  split; [|split; [|split; [exact Hall | split; [exact Hact | split]]]].
  - intros [H1 H2]. unfold update_cfg, build_joint_cfg. fold n n_all n_act.
    apply Nat.eqb_neq in H1. apply Nat.eqb_neq in H2. rewrite H1, H2. reflexivity.
  - reflexivity.
  - intros Hlen e He.
    assert (Hno : no_dimension_error (update_cfg self (CfgSeq xs))).
    { destruct (Nat.eq_dec n n_all) as [H|H].
      - rewrite (Hall H). apply no_dimension_error_foldM.
        intros; apply no_dimension_error_update_joint.
      - destruct Hlen as [Hlen|Hlen]; [contradiction|].
        rewrite (Hact H Hlen). apply no_dimension_error_foldM.
        intros; apply no_dimension_error_update_joint. }
    rewrite He in Hno. exact Hno.
  - intros a Ha. unfold n_act, num_actuated_joints.
    rewrite (proj2 (init_actuated_joints a self Ha)). reflexivity.
Qed.

Lemma update_cfg_dimension_three_values :
  update_cfg (urdf_of robot_mimic_pair) (CfgSeq [0.25; 1.0; 3.0]%float)
  = Err (Raise ValueError (dimensionality_msg 3 2 1)).
Proof.
  apply (proj1 (update_cfg_dimension_check (urdf_of robot_mimic_pair)
                  [0.25; 1.0; 3.0]%float)).
  split; vm_compute; intros H; discriminate H.
Defined.

Example update_cfg_dimension_example :
  update_cfg (urdf_of robot_mimic_pair) (CfgSeq [0.25; 1.0; 3.0]%float)
  = Err (Raise ValueError
           "Dimensionality of configuration (3) doesn't match number of all (2) or actuated joints (1).")
  /\ is_ok (update_cfg (urdf_of robot_mimic_pair) (CfgSeq [0.25; 1.0]%float)) = true
  /\ is_ok (update_cfg (urdf_of robot_mimic_pair) (CfgSeq [0.25]%float)) = true.
Proof. repeat split; vm_compute; reflexivity. Qed.

(* ================================================================== *)
(** * Parsing a geometry element *)
(* ================================================================== *)

(** C8 (as the code has it). A [<geometry>] element whose first child
    carries a tag other than [box], [cylinder], [sphere] and [mesh] makes
    [_parse_geometry] raise the builtin [ValueError] with the message
    ["Unknown tag: "] followed by the tag.  The exception is not one of the
    [URDFError] classes. *)
Theorem parse_geometry_unknown_tag (float_of_str : string -> option float)
  (tag : string) (attrib g_attrib : list (string * string))
  (children rest : list element) :
  supported_shape tag = false ->
  _parse_geometry float_of_str
    (Some (Element "geometry" g_attrib (Element tag attrib children :: rest)))
  = Err (Raise ValueError ("Unknown tag: " ^^ tag)).
Proof.
  unfold supported_shape. simpl List.existsb. intros H.
  apply orb_false_elim in H. destruct H as [Hbox H].
  apply orb_false_elim in H. destruct H as [Hcyl H].
  apply orb_false_elim in H. destruct H as [Hsph H].
  apply orb_false_elim in H. destruct H as [Hmesh _].
  unfold _parse_geometry. simpl. rewrite Hbox, Hcyl, Hsph, Hmesh. reflexivity.
Qed.

Lemma parse_geometry_capsule :
  supported_shape "capsule" = false
  /\ _parse_geometry float_of_str_example (Some geometry_capsule)
     = Err (Raise ValueError "Unknown tag: capsule").
Proof.
  split; [reflexivity|].
  exact (parse_geometry_unknown_tag float_of_str_example "capsule"
           [("radius", "1"); ("length", "2")] [] [] [] eq_refl).
Defined.

(** The exception raised for an unknown tag is not [URDFUnsupportedError]. *)
Lemma parse_geometry_capsule_not_unsupported_error :
  ~ exists msg,
      _parse_geometry float_of_str_example (Some geometry_capsule)
      = Err (Raise URDFUnsupportedError msg).
Proof.
  intros [msg H]. vm_compute in H. discriminate H.
Qed.

(* ================================================================== *)
(** * Splitting *)
(* ================================================================== *)

(** C5 (what the code does). [split_along_joints] builds its first
    [URDF] object with the keyword [generate_scene_graph], which is no
    parameter of [__init__]: the call raises [TypeError] before any joint
    is looked at, for every model and every joint type. *)
Theorem split_along_joints_raises (self : URDF.t) (joint_type : string) :
  split_along_joints self joint_type = Err unexpected_generate_scene_graph.
Proof. reflexivity. Qed.

Example split_along_joints_example :
  is_ok (URDF__init__ (args_for robot_split_example)) = true
  /\ (forall self, URDF__init__ (args_for robot_split_example) = Ok self ->
                   split_along_joints self "floating"
                   = Err unexpected_generate_scene_graph).
Proof.
  split; [vm_compute; reflexivity|].
  intros self _. reflexivity.
Qed.

(* ================================================================== *)
(** * Validation *)
(* ================================================================== *)

(** C7 (what the code does). On a model with a visual whose geometry is
    absent, [_validate_geometry] logs the missing geometry and then reads
    [geometry.box] of [None]: [validate] ends in [AttributeError] and gives
    no verdict.  The same happens for a revolute joint loaded from a
    document without a [<limit>] element: the missing limit is logged and
    [_validate_limit] then reads [limit.effort] of [None].  The log stays
    on the object as far as it got. *)
Theorem validate_raises_on_missing_parts :
  (exists self,
      URDF__init__ (args_for robot_missing_geometry) = Ok self
      /\ validate self None
         = (URDF.set_errors self [Raise URDFIncompleteError "<geometry> is missing."],
            Err (Raise AttributeError "'NoneType' object has no attribute 'box'")))
  /\ (exists self,
        load float_of_str_example xml_revolute_without_limit [] = Ok self
        /\ URDF.robot self = robot_revolute_without_limit
        /\ validate self None
           = (URDF.set_errors self
                [Raise URDFIncompleteError
                   "The <limit> of a (prismatic, revolute) joint is missing."],
              Err (Raise AttributeError "'NoneType' object has no attribute 'effort'"))).
Proof.
  split.
  - eexists. split; vm_compute; reflexivity.
  - eexists. split; [vm_compute; reflexivity|]. split; vm_compute; reflexivity.
Qed.

(** Where every visual and collision has a geometry and every revolute or
    prismatic joint a limit, no validation method raises. *)
Lemma v_seq_returns (a b : validator) (errors : list exn) :
  raised (a errors) = None ->
  (forall errors', raised (b errors') = None) ->
  raised (v_seq a b errors) = None.
Proof.
  intros Ha Hb. unfold v_seq. rewrite Ha. apply Hb.
Qed.

Lemma v_for_returns {A : Type} (f : A -> validator) (xs : list A) (errors : list exn) :
  (forall x, In x xs -> forall errors', raised (f x errors') = None) ->
  raised (v_for f xs errors) = None.
Proof.
  revert errors. induction xs as [|x rest IH]; intros errors H; [reflexivity|].
  simpl. apply v_seq_returns.
  - apply H. left. reflexivity.
  - intros errors'. apply IH. intros y Hy. apply H. right. exact Hy.
Qed.

Lemma validate_required_attribute_returns (attribute : pyobj) (msg : string)
  (allowed : option (list string)) (errors : list exn) :
  raised (_validate_required_attribute attribute msg allowed errors) = None.
Proof.
  unfold _validate_required_attribute. apply v_seq_returns.
  - destruct attribute as [|s|]; try reflexivity.
    destruct (Nat.eqb (String.length s) 0); reflexivity.
  - intros errors'. destruct allowed as [al|]; destruct attribute as [|s|];
      try reflexivity.
    destruct (List.existsb (String.eqb s) al); reflexivity.
Qed.

Lemma validate_geometry_returns (g : Geometry.t) (errors : list exn) :
  raised (_validate_geometry (Some g) errors) = None.
Proof.
  unfold _validate_geometry. apply v_seq_returns; [reflexivity|].
  intros errors'. destruct (Nat.ltb (count_present g) 1); [reflexivity|].
  destruct (Nat.ltb 1 (count_present g)); reflexivity.
Qed.

Lemma validate_robot_returns (r : Robot.t) (errors : list exn) :
  List.forallb
    (fun l => List.forallb (fun v => is_some (Visual.geometry v)) (Link.visuals l)
              && List.forallb (fun c => is_some (Collision.geometry c)) (Link.collisions l))
    (Robot.links r) = true ->
  List.forallb
    (fun j => negb (option_str_eqb (Joint.type j) "revolute"
                    || option_str_eqb (Joint.type j) "prismatic")
              || is_some (Joint.limit j))
    (Robot.joints r) = true ->
  raised (_validate_robot (Some r) errors) = None.
Proof.
  intros Hgeo Hlim. rewrite List.forallb_forall in Hgeo, Hlim.
  unfold _validate_robot. apply v_seq_returns;
    [apply validate_required_attribute_returns|].
  intros e1. apply v_seq_returns.
  - apply v_for_returns. intros l Hl e2. specialize (Hgeo l Hl).
    apply andb_prop in Hgeo. destruct Hgeo as [Hv Hc].
    rewrite List.forallb_forall in Hv, Hc.
    unfold _validate_link. apply v_seq_returns;
      [apply validate_required_attribute_returns|].
    intros e3. apply v_seq_returns.
    + apply v_for_returns. intros v Hin e4. specialize (Hv v Hin).
      unfold _validate_visual. destruct (Visual.geometry v); [|discriminate].
      apply validate_geometry_returns.
    + intros e4. apply v_for_returns. intros c Hin e5. specialize (Hc c Hin).
      unfold _validate_collision. destruct (Collision.geometry c); [|discriminate].
      apply validate_geometry_returns.
  - intros e2. apply v_for_returns. intros j Hj e3. specialize (Hlim j Hj).
    unfold _validate_joint.
    repeat (apply v_seq_returns;
            [apply validate_required_attribute_returns | intros ?]).
    destruct (option_str_eqb (Joint.type j) "revolute"
              || option_str_eqb (Joint.type j) "prismatic"); [|reflexivity].
    simpl in Hlim. destruct (Joint.limit j) as [l|]; [|discriminate].
    apply v_seq_returns; [apply validate_required_attribute_returns|].
    intros e4. unfold _validate_limit.
    apply v_seq_returns; [apply validate_required_attribute_returns|].
    intros e5. apply validate_required_attribute_returns.
Qed.

(** On such a model [validate] with no validation function returns, the
    verdict is [true] exactly when the log is empty, and the log stays on
    the object. *)
Lemma validate_verdict_when_complete (self : URDF.t) :
  raised (_validate_robot (Some (URDF.robot self)) []) = None ->
  let '(self', verdict) := validate self None in
  verdict = Ok (Nat.eqb (List.length (URDF._errors self')) 0)
  /\ URDF._errors self' = log (_validate_robot (Some (URDF.robot self)) []).
Proof.
  intros H. unfold validate. rewrite H. split; reflexivity.
Qed.

(* ================================================================== *)
(** * The codec round trip *)
(* ================================================================== *)

(** The element [_write_joint] produces has no [mimic], [calibration] or
    [safety_controller] child. *)
Lemma write_joint_children (str_of_float : float -> string)
  (tra_t tra_e : matrix -> list float) (joint : Joint.t) (els : list element) :
  _write_joint str_of_float tra_t tra_e joint = Ok els ->
  exists e, els = [e]
            /\ Xml.find e "mimic" = None
            /\ Xml.find e "calibration" = None
            /\ Xml.find e "safety_controller" = None.
Proof.
  unfold _write_joint, Xml.attr_value. intros H.
  destruct (Joint.type joint); simpl in H; [|discriminate].
  destruct (Joint.parent joint); simpl in H; [|discriminate].
  destruct (Joint.child joint); simpl in H; [|discriminate].
  inversion H; subst els. eexists. split; [reflexivity|].
  destruct (Joint.origin joint), (Joint.axis joint), (Joint.limit joint),
    (Joint.dynamics joint); repeat split; reflexivity.
Qed.

(** Whatever joint is written, the joint parsed back has no mimic, no
    calibration and no safety controller. *)
Lemma parse_written_joint (float_of_str : string -> option float)
  (str_of_float : float -> string) (tra_t tra_e : matrix -> list float)
  (joint joint' : Joint.t) (els : list element) (e : element) :
  _write_joint str_of_float tra_t tra_e joint = Ok els ->
  In e els ->
  _parse_joint float_of_str e = Ok joint' ->
  Joint.mimic joint' = None
  /\ Joint.calibration joint' = None
  /\ Joint.safety_controller joint' = None.
Proof.
  intros Hw Hin Hp.
  destruct (write_joint_children _ _ _ _ _ Hw) as [e0 [Hels [Hm [Hc Hs]]]].
  subst els. destruct Hin as [Heq|[]]. subst e0.
  unfold _parse_joint in Hp. rewrite Hm, Hc, Hs in Hp.
  repeat match type of Hp with
         | bind ?m _ = _ => destruct m eqn:?; simpl bind in Hp; [|discriminate]
         end.
  simpl in *.
  repeat match goal with
         | H : Ok _ = Ok _ |- _ => inversion H; clear H; subst
         end.
  repeat split; reflexivity.
Qed.

(** C1 (what the code does). The arm whose second joint mimics the first
    is parsed with the mimic in place; written and parsed again, the
    second joint has no mimic: the round trip does not return the model of
    the first parse. *)
Theorem reparse_loses_mimic (tra_t tra_e : matrix -> list float)
  (handler : string -> string)
  (handler_none : result (option string)) :
  exists r1 r2,
    _parse_robot float_of_str_example xml_mimic_arm = Ok r1
    /\ reparse float_of_str_example str_of_float_example tra_t tra_e handler handler_none
         xml_mimic_arm = Ok r2
    /\ List.map Joint.mimic (Robot.joints r1)
       = [None; Some (Mimic.mk (Some "j1") (Some 1.0%float) (Some 0.0%float))]
    /\ List.map Joint.mimic (Robot.joints r2) = [None; None]
    /\ List.map Joint.name (Robot.joints r2) = List.map Joint.name (Robot.joints r1)
    /\ r2 <> r1.
Proof.
  eexists. eexists.
  split; [vm_compute; reflexivity|].
  split; [vm_compute; reflexivity|].
  split; [reflexivity|]. split; [reflexivity|]. split; [reflexivity|].
  intros H. apply (f_equal (fun r => List.map Joint.mimic (Robot.joints r))) in H.
  simpl in H. discriminate H.
Qed.

(* ================================================================== *)
(** * The default configuration *)
(* ================================================================== *)

Lemma default_cfg_step_cases (b : cfg_builder) (j : Joint.t) :
  default_cfg_step b j
  = if allocating j then
      row <- initial_row j ;;
      Ok (mk_builder (heap b ++ [row]) (config b ++ [List.length (heap b)])
            (Some (List.length (heap b))))
    else
      match cfg_var b with
      | None => raise UnboundLocalError "local variable 'cfg' referenced before assignment"
      | Some id => Ok (mk_builder (heap b) (config b ++ [id]) (cfg_var b))
      end.
Proof.
  unfold default_cfg_step, allocating, initial_row, type_is.
  destruct (is_some (Joint.mimic j)); simpl; [reflexivity|].
  destruct (option_str_eqb (Joint.type j) "revolute"
            || option_str_eqb (Joint.type j) "prismatic"); simpl.
  { destruct (Joint.limit j) as [l|]; simpl; [|reflexivity].
    destruct (limit_midpoint (Limit.lower l) (Limit.upper l)); reflexivity. }
  destruct (option_str_eqb (Joint.type j) "continuous"
            || option_str_eqb (Joint.type j) "fixed"); simpl; [reflexivity|].
  destruct (option_str_eqb (Joint.type j) "floating"); simpl; [reflexivity|].
  destruct (option_str_eqb (Joint.type j) "planar"); simpl; reflexivity.
Qed.

Lemma allocs_cons (j : Joint.t) (js : list Joint.t) :
  allocs (j :: js) = (if allocating j then 1 else 0) + allocs js.
Proof. unfold allocs. simpl. destruct (allocating j); reflexivity. Qed.

Lemma allocs_app (xs ys : list Joint.t) : allocs (xs ++ ys) = allocs xs + allocs ys.
Proof.
  unfold allocs. rewrite List.filter_app, List.length_app. reflexivity.
Qed.

Lemma allocs_firstn_lt (pre : list Joint.t) (k k' : nat) (j : Joint.t) :
  List.nth_error pre k = Some j -> allocating j = true -> k < k' ->
  allocs (List.firstn k pre) < allocs (List.firstn k' pre).
Proof.
  revert k k'. induction pre as [|x rest IH]; intros k k' Hk Hj Hlt.
  - destruct k; discriminate.
  - destruct k' as [|k']; [lia|]. destruct k as [|k]; simpl in Hk.
    + inversion Hk; subst x. simpl List.firstn. rewrite allocs_cons, Hj.
      unfold allocs at 1. simpl. lia.
    + simpl List.firstn. rewrite !allocs_cons.
      assert (allocs (List.firstn k rest) < allocs (List.firstn k' rest))
        by (apply (IH k k' Hk Hj); lia).
      lia.
Qed.

Lemma allocs_firstn_lt_all (pre : list Joint.t) (k : nat) (j : Joint.t) :
  List.nth_error pre k = Some j -> allocating j = true ->
  allocs (List.firstn k pre) < allocs pre.
Proof.
  intros Hk Hj.
  assert (Hlt : k < List.length pre) by (apply List.nth_error_Some; congruence).
  rewrite <- (List.firstn_all pre) at 2.
  exact (allocs_firstn_lt pre k (List.length pre) j Hk Hj Hlt).
Qed.

Lemma initial_row_nonempty (j : Joint.t) (row : list float) :
  initial_row j = Ok row -> row <> [].
Proof.
  unfold initial_row. intros H.
  destruct (is_some (Joint.mimic j)); [inversion H; discriminate|].
  destruct (type_is j "revolute" || type_is j "prismatic").
  { destruct (Joint.limit j) as [l|]; [|inversion H; discriminate].
    destruct (limit_midpoint (Limit.lower l) (Limit.upper l)); simpl in H;
      inversion H; discriminate. }
  destruct (type_is j "continuous" || type_is j "fixed"); [inversion H; discriminate|].
  destruct (type_is j "floating"); inversion H; discriminate.
Qed.

Lemma builder_inv_step (pre : list Joint.t) (b b' : cfg_builder) (j : Joint.t) :
  builder_inv pre b -> default_cfg_step b j = Ok b' -> builder_inv (pre ++ [j]) b'.
Proof.
  intros (Hheap & Hconf & Hids & Hcur & Hrows & Hown) Hstep.
  rewrite default_cfg_step_cases in Hstep.
  assert (Hown' : forall k j0, k < List.length pre ->
            List.nth_error (pre ++ [j]) k = Some j0 -> allocating j0 = true ->
            List.nth_error (config b) k = Some (allocs (List.firstn k (pre ++ [j])))
            /\ exists row, initial_row j0 = Ok row
                 /\ List.nth_error (heap b) (allocs (List.firstn k (pre ++ [j]))) = Some row).
  { intros k j0 Hk Hnth Hj0. rewrite List.nth_error_app1 in Hnth by exact Hk.
    rewrite List.firstn_app. replace (k - List.length pre) with 0 by lia.
    simpl List.firstn. rewrite List.app_nil_r. exact (Hown k j0 Hnth Hj0). }
  destruct (allocating j) eqn:Hj.
  - destruct (initial_row j) as [row|e] eqn:Hrow; simpl in Hstep; [|discriminate].
    inversion Hstep; subst b'; clear Hstep. unfold builder_inv; simpl.
    repeat split.
    + rewrite List.length_app, allocs_app, allocs_cons, Hj. simpl. unfold allocs at 2.
      simpl. lia.
    + rewrite !List.length_app. simpl. lia.
    + intros id Hin. rewrite List.length_app. simpl.
      apply List.in_app_or in Hin. destruct Hin as [Hin|[Heq|[]]].
      * specialize (Hids id Hin). lia.
      * lia.
    + intros id Hid. inversion Hid; subst id. rewrite List.length_app. simpl. lia.
    + intros r Hin. apply List.in_app_or in Hin. destruct Hin as [Hin|[Heq|[]]].
      * exact (Hrows r Hin).
      * subst r. exact (initial_row_nonempty j row Hrow).
    + destruct (Nat.lt_ge_cases k (List.length pre)) as [Hk|Hk].
      * destruct (Hown' k j0 Hk H H0) as [Hc _].
        rewrite List.nth_error_app1 by lia. exact Hc.
      * assert (k = List.length pre).
        { assert (k < List.length (pre ++ [j])) by (apply List.nth_error_Some; congruence).
          rewrite List.length_app in *. simpl in *. lia. }
        subst k. rewrite List.nth_error_app2 by lia.
        rewrite Hconf, Nat.sub_diag. simpl.
        rewrite List.firstn_app, Nat.sub_diag, List.firstn_all. simpl.
        rewrite List.app_nil_r. congruence.
    + destruct (Nat.lt_ge_cases k (List.length pre)) as [Hk|Hk].
      * destruct (Hown' k j0 Hk H H0) as [_ [r [Hr Hn]]].
        exists r. split; [exact Hr|]. rewrite List.nth_error_app1; [exact Hn|].
        apply List.nth_error_Some. congruence.
      * assert (k = List.length pre).
        { assert (k < List.length (pre ++ [j])) by (apply List.nth_error_Some; congruence).
          rewrite List.length_app in *. simpl in *. lia. }
        subst k. rewrite List.nth_error_app2 in H by lia.
        rewrite Nat.sub_diag in H. simpl in H. inversion H; subst j0.
        exists row. split; [exact Hrow|].
        rewrite List.firstn_app, Nat.sub_diag, List.firstn_all. simpl.
        rewrite List.app_nil_r, <- Hheap.
        rewrite List.nth_error_app2 by lia. rewrite Nat.sub_diag. reflexivity.
  - destruct (cfg_var b) as [id|] eqn:Hcv; [|discriminate].
    inversion Hstep; subst b'; clear Hstep. unfold builder_inv; simpl.
    repeat split.
    + rewrite allocs_app, allocs_cons, Hj. simpl. unfold allocs at 2. simpl. lia.
    + rewrite !List.length_app. simpl. lia.
    + intros id' Hin. apply List.in_app_or in Hin. destruct Hin as [Hin|[Heq|[]]].
      * exact (Hids id' Hin).
      * subst id'. exact (Hcur id eq_refl).
    + intros id' Hid. exact (Hcur id' Hid).
    + exact Hrows.
    + destruct (Nat.lt_ge_cases k (List.length pre)) as [Hk|Hk].
      * destruct (Hown' k j0 Hk H H0) as [Hc _].
        rewrite List.nth_error_app1 by lia. exact Hc.
      * assert (k = List.length pre).
        { assert (k < List.length (pre ++ [j])) by (apply List.nth_error_Some; congruence).
          rewrite List.length_app in *. simpl in *. lia. }
        subst k. rewrite List.nth_error_app2 in H by lia.
        rewrite Nat.sub_diag in H. simpl in H. inversion H; subst j0. congruence.
    + destruct (Nat.lt_ge_cases k (List.length pre)) as [Hk|Hk].
      * exact (proj2 (Hown' k j0 Hk H H0)).
      * assert (k = List.length pre).
        { assert (k < List.length (pre ++ [j])) by (apply List.nth_error_Some; congruence).
          rewrite List.length_app in *. simpl in *. lia. }
        subst k. rewrite List.nth_error_app2 in H by lia.
        rewrite Nat.sub_diag in H. simpl in H. inversion H; subst j0. congruence.
Qed.

Lemma builder_inv_foldM (js pre : list Joint.t) (b b' : cfg_builder) :
  builder_inv pre b -> foldM default_cfg_step js b = Ok b' ->
  builder_inv (pre ++ js) b'.
Proof.
  revert pre b. induction js as [|j rest IH]; intros pre b Hinv Hfold; simpl in Hfold.
  - inversion Hfold; subst b'. rewrite List.app_nil_r. exact Hinv.
  - destruct (default_cfg_step b j) as [b1|e] eqn:Hstep; simpl in Hfold; [|discriminate].
    replace (pre ++ j :: rest) with ((pre ++ [j]) ++ rest)
      by (rewrite <- List.app_assoc; reflexivity).
    apply (IH (pre ++ [j]) b1); [|exact Hfold].
    exact (builder_inv_step pre b b1 j Hinv Hstep).
Qed.

Lemma builder_inv_init : builder_inv [] (mk_builder [] [] None).
Proof.
  unfold builder_inv. simpl.
  split; [reflexivity|]. split; [reflexivity|]. split; [intros ? []|].
  split; [discriminate|]. split; [intros ? []|].
  intros k j H. destruct k; discriminate.
Qed.

Lemma foldM_inv {A S : Type} (f : S -> A -> result S) (P : S -> Prop)
  (xs : list A) (s s' : S) :
  (forall s0 x s1, In x xs -> P s0 -> f s0 x = Ok s1 -> P s1) ->
  P s -> foldM f xs s = Ok s' -> P s'.
Proof.
  revert s. induction xs as [|x rest IH]; intros s Hstep Hs Hfold; simpl in Hfold.
  - inversion Hfold; subst. exact Hs.
  - destruct (f s x) as [s1|e] eqn:Hf; simpl in Hfold; [|discriminate].
    apply (IH s1); [|apply (Hstep s x s1); [left; reflexivity | exact Hs | exact Hf]
                    | exact Hfold].
    intros s0 y s2 Hy. apply Hstep. right. exact Hy.
Qed.

Lemma foldM_defined {A S : Type} (f : S -> A -> result S) (P : S -> Prop)
  (xs : list A) (s : S) :
  (forall s0 x, In x xs -> P s0 -> exists s1, f s0 x = Ok s1 /\ P s1) ->
  P s -> exists s', foldM f xs s = Ok s' /\ P s'.
Proof.
  revert s. induction xs as [|x rest IH]; intros s Hstep Hs; simpl.
  - exists s. split; [reflexivity | exact Hs].
  - destruct (Hstep s x (or_introl eq_refl) Hs) as [s1 [Hf Hs1]].
    rewrite Hf. simpl. apply IH; [|exact Hs1].
    intros s0 y Hy. apply Hstep. right. exact Hy.
Qed.

Lemma in_combine_seq {A : Type} (xs : list A) (a i : nat) (x : A) :
  In (i, x) (List.combine (List.seq a (List.length xs)) xs) ->
  a <= i /\ List.nth_error xs (i - a) = Some x.
Proof.
  revert a. induction xs as [|y rest IH]; intros a Hin; simpl in Hin; [contradiction|].
  destruct Hin as [Heq|Hin].
  - inversion Heq; subst. rewrite Nat.sub_diag. split; [lia | reflexivity].
  - destruct (IH (S a) Hin) as [Hle Hnth]. split; [lia|].
    replace (i - a) with (S (i - S a)) by lia. exact Hnth.
Qed.

Lemma in_enumerate {A : Type} (xs : list A) (i : nat) (x : A) :
  In (i, x) (enumerate xs) -> List.nth_error xs i = Some x.
Proof.
  intros H. destruct (in_combine_seq xs 0 i x H) as [_ Hn].
  rewrite Nat.sub_0_r in Hn. exact Hn.
Qed.

Lemma list_set_length {A : Type} (xs : list A) (i : nat) (v : A) :
  List.length (list_set xs i v) = List.length xs.
Proof.
  revert i. induction xs as [|x rest IH]; intros i; [reflexivity|].
  destruct i; simpl; [reflexivity | rewrite IH; reflexivity].
Qed.

Lemma nth_error_list_set_other {A : Type} (xs : list A) (i k : nat) (v : A) :
  i <> k -> List.nth_error (list_set xs i v) k = List.nth_error xs k.
Proof.
  revert i k. induction xs as [|x rest IH]; intros i k Hne; [reflexivity|].
  destruct i, k; simpl; try reflexivity; [contradiction | apply IH; lia].
Qed.

Lemma nth_error_list_set_same {A : Type} (xs : list A) (i : nat) (v : A) :
  i < List.length xs -> List.nth_error (list_set xs i v) i = Some v.
Proof.
  revert i. induction xs as [|x rest IH]; intros i Hlt; simpl in Hlt; [lia|].
  destruct i; simpl; [reflexivity | apply IH; lia].
Qed.

Lemma in_list_set {A : Type} (xs : list A) (i : nat) (v x : A) :
  In x (list_set xs i v) -> x = v \/ In x xs.
Proof.
  revert i. induction xs as [|y rest IH]; intros i Hin; [contradiction|].
  destruct i; simpl in Hin.
  - destruct Hin as [Heq|Hin]; [left; symmetry; exact Heq | right; right; exact Hin].
  - destruct Hin as [Heq|Hin]; [right; left; exact Heq|].
    destruct (IH i Hin) as [H|H]; [left; exact H | right; right; exact H].
Qed.

Lemma mimic_allocating (j : Joint.t) (m : Mimic.t) :
  Joint.mimic j = Some m -> allocating j = true.
Proof. intros H. unfold allocating. rewrite H. reflexivity. Qed.

Lemma rows_inv_init (js : list Joint.t) (b : cfg_builder) :
  builder_inv js b -> rows_inv js b (heap b).
Proof.
  intros (Hheap & Hconf & Hids & Hcur & Hrows & Hown).
  split; [reflexivity|]. split; [exact Hrows|].
  intros k j Hk Hj _. exact (proj2 (Hown k j Hk Hj)).
Qed.

Lemma rows_inv_step (js : list Joint.t) (b : cfg_builder) (names : list string)
  (hp hp' : list (list float)) (ij : nat * Joint.t) :
  builder_inv js b -> In ij (enumerate js) -> rows_inv js b hp ->
  default_mimic_step names (config b) hp ij = Ok hp' -> rows_inv js b hp'.
Proof.
  intros (Hheap & Hconf & Hids & Hcur & Hrows & Hown) Hin (Hlen & Hne & Hkeep) Hstep.
  destruct ij as [i j]. apply in_enumerate in Hin.
  unfold default_mimic_step in Hstep. simpl in Hstep.
  destruct (Joint.mimic j) as [m|] eqn:Hm.
  2:{ cbv beta iota in Hstep. injection Hstep as Heq. rewrite <- Heq. split; [exact Hlen|]. split; assumption. }
  cbv beta iota in Hstep.
  destruct (index_opt names (Mimic.joint m)) as [index|e]; simpl in Hstep; [|discriminate].
  destruct (config_get0 hp (config b) index) as [x|e]; simpl in Hstep; [|discriminate].
  destruct (py_mul x (Mimic.multiplier m)) as [xm|e]; simpl in Hstep; [|discriminate].
  destruct (py_add xm (Mimic.offset m)) as [v|e]; simpl in Hstep; [|discriminate].
  unfold config_set0 in Hstep.
  destruct (Hown i j Hin (mimic_allocating j m Hm)) as [Hci _].
  rewrite Hci in Hstep.
  destruct (List.nth_error hp (allocs (List.firstn i js))) as [[|x0 rest]|] eqn:Hrow;
    try discriminate.
  cbv beta iota in Hstep. injection Hstep as Heq. rewrite <- Heq. clear Heq.
  split; [rewrite list_set_length; exact Hlen|]. split.
  - intros row Hr. destruct (in_list_set _ _ _ _ Hr) as [Heq|Hold].
    + subst row. discriminate.
    + exact (Hne row Hold).
  - intros k j' Hk Hj' Hm'. destruct (Hkeep k j' Hk Hj' Hm') as [row [Hr Hn]].
    exists row. split; [exact Hr|].
    rewrite nth_error_list_set_other; [exact Hn|].
    assert (Hik : i <> k) by (intros ->; congruence).
    destruct (Nat.lt_total i k) as [Hlt|[Heq|Hlt]]; [|contradiction|].
    + pose proof (allocs_firstn_lt js i k j Hin (mimic_allocating j m Hm) Hlt). lia.
    + pose proof (allocs_firstn_lt js k i j' Hk Hj' Hlt). lia.
Qed.

Lemma nth_error_nth_default {A : Type} (xs : list A) (i : nat) (x d : A) :
  List.nth_error xs i = Some x -> List.nth i xs d = x.
Proof.
  revert i. induction xs as [|y rest IH]; intros i H; destruct i; simpl in *;
    try discriminate; [inversion H; reflexivity | apply IH; exact H].
Qed.

(** After both loops the row of a joint that is no mimic and takes a known
    branch is the list that branch built. *)
Lemma default_config_rows_initial (self : URDF.t) (rows : list (list float))
  (k : nat) (j : Joint.t) (row : list float) :
  default_config_rows self = Ok rows ->
  List.nth_error (Robot.joints (URDF.robot self)) k = Some j ->
  Joint.mimic j = None -> allocating j = true -> initial_row j = Ok row ->
  List.nth_error rows k = Some row.
Proof.
  unfold default_config_rows. intros H Hk Hm Hj Hrow.
  set (js := Robot.joints (URDF.robot self)) in *.
  destruct (foldM default_cfg_step js (mk_builder [] [] None)) as [b|e] eqn:H1;
    simpl in H; [|discriminate].
  destruct (foldM (default_mimic_step (List.map Joint.name js) (config b))
              (enumerate js) (heap b)) as [hp|e] eqn:H2; simpl in H; [|discriminate].
  inversion H; subst rows; clear H.
  pose proof (builder_inv_foldM js [] _ b builder_inv_init H1) as Hinv.
  simpl in Hinv.
  assert (Hrows : rows_inv js b hp).
  { apply (foldM_inv _ (rows_inv js b) _ _ _
             (fun s0 x s1 Hx Hs Hf => rows_inv_step js b _ s0 s1 x Hinv Hx Hs Hf)
             (rows_inv_init js b Hinv) H2). }
  destruct Hinv as (_ & _ & _ & _ & _ & Hown).
  destruct (Hown k j Hk Hj) as [Hc _].
  destruct Hrows as (_ & _ & Hkeep).
  destruct (Hkeep k j Hk Hj Hm) as [row' [Hr' Hn]].
  rewrite Hrow in Hr'. inversion Hr'; subst row'.
  rewrite List.nth_error_map, Hc. simpl.
  rewrite (nth_error_nth_default _ _ _ _ Hn). reflexivity.
Qed.

Lemma index_from_defined (x : string) (xs : list string) (a : nat) :
  In x xs -> exists i, Py.index_from x xs a = Some i /\ a <= i < a + List.length xs.
Proof.
  revert a. induction xs as [|y rest IH]; intros a Hin; [contradiction|].
  simpl. destruct (String.eqb y x) eqn:E.
  - exists a. split; [reflexivity | lia].
  - destruct Hin as [Heq|Hin]; [subst; rewrite String.eqb_refl in E; discriminate|].
    destruct (IH (S a) Hin) as [i [Hi Hr]]. exists i. split; [exact Hi | lia].
Qed.

Lemma index_defined (x : string) (xs : list string) :
  In x xs -> exists i, Py.index xs x = Ok i /\ i < List.length xs.
Proof.
  intros Hin. destruct (index_from_defined x xs 0 Hin) as [i [Hi Hr]].
  exists i. unfold Py.index. rewrite Hi. split; [reflexivity | lia].
Qed.

Lemma defined_joint (r : Robot.t) (j : Joint.t) :
  default_cfg_defined r = true -> In j (Robot.joints r) ->
  allocating j = true /\ exists row, initial_row j = Ok row.
Proof.
  unfold default_cfg_defined. rewrite List.forallb_forall. intros H Hin.
  specialize (H j Hin). unfold allocating, initial_row.
  destruct (Joint.mimic j) as [m|]; simpl.
  - split; [reflexivity | eexists; reflexivity].
  - destruct (type_is j "revolute" || type_is j "prismatic"); simpl.
    + split; [reflexivity|]. destruct (Joint.limit j) as [l|]; [|eexists; reflexivity].
      destruct (Limit.lower l), (Limit.upper l); simpl in H; try discriminate.
      eexists. reflexivity.
    + rewrite H. split; [reflexivity|].
      destruct (type_is j "continuous" || type_is j "fixed"); [eexists; reflexivity|].
      destruct (type_is j "floating"); eexists; reflexivity.
Qed.

Lemma default_config_rows_defined (self : URDF.t) :
  default_cfg_defined (URDF.robot self) = true ->
  exists rows, default_config_rows self = Ok rows.
Proof.
  intros Hwf. unfold default_config_rows.
  set (js := Robot.joints (URDF.robot self)) in *.
  destruct (foldM_defined default_cfg_step (fun _ => True) js (mk_builder [] [] None))
    as [b [H1 _]]; [|exact I|].
  { intros b j Hin _. rewrite default_cfg_step_cases.
    destruct (defined_joint _ j Hwf Hin) as [Ha [row Hrow]].
    rewrite Ha, Hrow. eexists. split; [reflexivity | exact I]. }
  rewrite H1. simpl bind.
  pose proof (builder_inv_foldM js [] _ b builder_inv_init H1) as Hinv.
  simpl in Hinv. destruct Hinv as (Hheap & Hconf & Hids & Hcur & Hrows & Hown).
  destruct (foldM_defined (default_mimic_step (List.map Joint.name js) (config b))
              (fun hp => List.length hp = List.length (heap b)
                         /\ forall row, In row hp -> row <> [])
              (enumerate js) (heap b)) as [hp [H2 _]].
  - intros hp [i j] Hin [Hlen Hne]. apply in_enumerate in Hin.
    assert (Hj : In j js) by (eapply List.nth_error_In; exact Hin).
    assert (Hi : i < List.length js) by (apply List.nth_error_Some; congruence).
    unfold default_mimic_step. simpl.
    destruct (Joint.mimic j) as [m|] eqn:Hm;
      [|exists hp; split; [reflexivity | split; assumption]].
    pose proof Hwf as Hwfj. unfold default_cfg_defined in Hwfj.
    rewrite List.forallb_forall in Hwfj. specialize (Hwfj j Hj). rewrite Hm in Hwfj.
    apply andb_prop in Hwfj. destruct Hwfj as [Hwfj Hoff].
    apply andb_prop in Hwfj. destruct Hwfj as [Htgt Hmul].
    destruct (Mimic.joint m) as [t|]; [|discriminate].
    apply List.existsb_exists in Htgt. destruct Htgt as [t' [Ht' Heq]].
    apply String.eqb_eq in Heq. subst t'.
    destruct (index_defined t _ Ht') as [index [Hidx Hlt]].
    rewrite List.length_map in Hlt. fold js in Hlt, Hidx.
    simpl index_opt. rewrite Hidx. simpl bind.
    assert (Hget : forall n, n < List.length js ->
              exists id x rest, List.nth_error (config b) n = Some id
                                /\ List.nth_error hp id = Some (x :: rest)).
    { intros n Hn.
      destruct (List.nth_error (config b) n) as [id|] eqn:Hc.
      2:{ apply List.nth_error_None in Hc. lia. }
      assert (Hid : id < List.length hp).
      { rewrite Hlen. apply Hids. eapply List.nth_error_In. exact Hc. }
      destruct (List.nth_error hp id) as [row|] eqn:Hr.
      2:{ apply List.nth_error_None in Hr. lia. }
      destruct row as [|x rest].
      - exfalso. apply (Hne []); [eapply List.nth_error_In; exact Hr | reflexivity].
      - exists id, x, rest. split; [reflexivity | exact Hr]. }
    destruct (Hget index Hlt) as [id [x [rest [Hc Hr]]]].
    unfold config_get0. rewrite Hc, Hr. simpl bind.
    destruct (Mimic.multiplier m) as [mu|]; [|discriminate].
    destruct (Mimic.offset m) as [off|]; [|discriminate]. simpl.
    destruct (Hget i Hi) as [id' [x' [rest' [Hc' Hr']]]].
    unfold config_set0. rewrite Hc', Hr'. eexists. split; [reflexivity|].
    split; [rewrite list_set_length; exact Hlen|].
    intros row Hin'. destruct (in_list_set _ _ _ _ Hin') as [Heq|Hold].
    + subst row. discriminate.
    + exact (Hne row Hold).
  - split; [reflexivity | exact Hrows].
  - rewrite H2. simpl. eexists. reflexivity.
Qed.


(** The two loops of [get_default_cfg], when they return, leave a state
    that satisfies both invariants. *)
Lemma default_config_rows_state (self : URDF.t) (rows : list (list float)) :
  default_config_rows self = Ok rows ->
  exists b hp,
    foldM default_cfg_step (Robot.joints (URDF.robot self)) (mk_builder [] [] None) = Ok b
    /\ foldM (default_mimic_step
                (List.map Joint.name (Robot.joints (URDF.robot self))) (config b))
         (enumerate (Robot.joints (URDF.robot self))) (heap b) = Ok hp
    /\ builder_inv (Robot.joints (URDF.robot self)) b
    /\ rows_inv (Robot.joints (URDF.robot self)) b hp
    /\ rows = List.map (fun id => List.nth id hp []) (config b).
Proof.
  unfold default_config_rows. intros H.
  set (js := Robot.joints (URDF.robot self)) in *.
  destruct (foldM default_cfg_step js (mk_builder [] [] None)) as [b|e] eqn:H1;
    simpl in H; [|discriminate].
  destruct (foldM (default_mimic_step (List.map Joint.name js) (config b))
              (enumerate js) (heap b)) as [hp|e] eqn:H2; simpl in H; [|discriminate].
  inversion H; subst rows; clear H.
  pose proof (builder_inv_foldM js [] _ b builder_inv_init H1) as Hinv.
  simpl in Hinv. exists b, hp.
  split; [reflexivity|]. split; [exact H2|]. split; [exact Hinv|]. split; [|reflexivity].
  apply (foldM_inv _ (rows_inv js b) _ _ _
           (fun s0 x s1 Hx Hs Hf => rows_inv_step js b _ s0 s1 x Hinv Hx Hs Hf)
           (rows_inv_init js b Hinv) H2).
Qed.

Lemma Forall_list_set {A : Type} (P : A -> Prop) (xs : list A) (i : nat) (v : A) :
  List.Forall P xs -> P v -> List.Forall P (list_set xs i v).
Proof.
  intros H Hv. revert i. induction H as [|x rest Hx Hrest IH]; intros i; [constructor|].
  destruct i; simpl; constructor; try assumption. apply IH.
Qed.

Lemma initial_row_single (j : Joint.t) (row : list float) :
  initial_row j = Ok row ->
  (Joint.mimic j = None -> type_is j "floating" = false /\ type_is j "planar" = false) ->
  allocating j = true ->
  List.length row = 1.
Proof.
  unfold initial_row, allocating. intros H Hty Ha.
  destruct (Joint.mimic j) as [m|]; simpl in *; [inversion H; reflexivity|].
  destruct (Hty eq_refl) as [Hf Hp]. rewrite Hf, Hp in *.
  destruct (type_is j "revolute" || type_is j "prismatic").
  { destruct (Joint.limit j) as [l|]; [|inversion H; reflexivity].
    destruct (limit_midpoint (Limit.lower l) (Limit.upper l)); simpl in H;
      inversion H; reflexivity. }
  destruct (type_is j "continuous" || type_is j "fixed"); [inversion H; reflexivity|].
  simpl in Ha. discriminate.
Qed.









Example get_default_cfg_example :
  default_cfg_defined robot_mimic_pair = true
  /\ List.nth_error (np_array_flatten [[1.0%float]; [3.0%float]]) 0
     = Some (Scalar (0.0 + 0.5 * (2.0 - 0.0))%float).
Proof. split; vm_compute; reflexivity. Qed.

(** With a floating joint among fixed ones the lists differ in length:
    the returned array holds the lists themselves. *)
Example get_default_cfg_floating_example :
  get_default_cfg (blank_urdf robot_split_example)
  = Ok [Row [0.0%float]; Row (List.repeat 0.0%float 6); Row [0.0%float]]
  /\ array_assigns
       [Row [0.0%float]; Row (List.repeat 0.0%float 6); Row [0.0%float]] 3 1
       (List.repeat 0.0%float 6).
Proof.
  split; [vm_compute; reflexivity|]. left. split; reflexivity.
Qed.

(* ================================================================== *)
(** * Mimic joints in [update_cfg] *)
(* ================================================================== *)

Lemma float_mul_comm (x y : float) : (x * y)%float = (y * x)%float.
Proof.
  apply Prim2SF_inj. rewrite !mul_spec. unfold SF64mul, SFmul.
  destruct (Prim2SF x) as [sx|sx| |sx mx ex], (Prim2SF y) as [sy|sy| |sy my ey];
    try reflexivity; try (rewrite (xorb_comm sx sy); reflexivity).
  rewrite (xorb_comm sx sy), (Pos.mul_comm mx my), (Z.add_comm ex ey). reflexivity.
Qed.

Lemma index_from_nth (x : string) (xs : list string) (a i : nat) :
  Py.index_from x xs a = Some i -> a <= i /\ List.nth_error xs (i - a) = Some x.
Proof.
  revert a. induction xs as [|y rest IH]; intros a H; simpl in H; [discriminate|].
  destruct (String.eqb y x) eqn:E.
  - inversion H; subst. apply String.eqb_eq in E. subst.
    rewrite Nat.sub_diag. split; [lia | reflexivity].
  - destruct (IH (S a) H) as [Hle Hn]. split; [lia|].
    replace (i - a) with (S (i - S a)) by lia. exact Hn.
Qed.

Lemma index_nth (xs : list string) (x : string) (i : nat) :
  Py.index xs x = Ok i -> List.nth_error xs i = Some x.
Proof.
  unfold Py.index. destruct (Py.index_from x xs 0) as [k|] eqn:E; [|discriminate].
  intros H. inversion H; subst. destruct (index_from_nth _ _ _ _ E) as [_ Hn].
  rewrite Nat.sub_0_r in Hn. exact Hn.
Qed.

Lemma index_distinct (xs : list string) (x y : string) (i k : nat) :
  Py.index xs x = Ok i -> Py.index xs y = Ok k -> x <> y -> i <> k.
Proof.
  intros Hx Hy Hne Heq. subst k.
  apply index_nth in Hx. apply index_nth in Hy. congruence.
Qed.

(** What one iteration of the loop of [update_cfg] does to the object:
    the robot stays, and the configuration changes at the index of the
    joint's name only. *)
Lemma update_joint_effect (self self' : URDF.t) (j : Joint.t) (q : cell) :
  update_joint self (j, q) = Ok self' ->
  URDF.robot self' = URDF.robot self
  /\ exists i v,
       Py.index (joint_names self) (Joint.name j) = Ok i
       /\ i < List.length (URDF._cfg self)
       /\ URDF._cfg self' = list_set (URDF._cfg self) i v
       /\ (Joint.mimic j = None -> v = q)
       /\ (forall m, Joint.mimic j = Some m ->
             exists t mult off it x,
               Mimic.joint m = Some t /\ Mimic.multiplier m = Some mult
               /\ Mimic.offset m = Some off
               /\ Py.index (joint_names self) t = Ok it
               /\ List.nth_error (URDF._cfg self) it = Some (Scalar x)
               /\ v = Scalar (x * mult + off)%float).
Proof.
  unfold update_joint. simpl fst. simpl snd. intros H.
  destruct (_forward_kinematics_joint self j q) as [[matrix joint_q]|e] eqn:Hfk;
    simpl in H; [|discriminate].
  destruct (Py.index (joint_names self) (Joint.name j)) as [i|e] eqn:Hi;
    simpl in H; [|discriminate].
  unfold cfg_setitem in H.
  destruct (Nat.ltb i (List.length (URDF._cfg self))) eqn:Hlt; simpl in H; [|discriminate].
  inversion H; subst self'; clear H. simpl. split; [reflexivity|].
  exists i, joint_q. split; [reflexivity|]. split; [apply Nat.ltb_lt; exact Hlt|].
  split; [reflexivity|].
  unfold _forward_kinematics_joint in Hfk.
  destruct (Joint.mimic j) as [m|] eqn:Hm.
  - split; [discriminate|]. intros m' Hm'. inversion Hm'; subst m'.
    destruct (Mimic.joint m) as [t|] eqn:Ht; simpl in Hfk; [|discriminate].
    destruct (Py.index (joint_names self) t) as [it|e] eqn:Hit; simpl in Hfk; [|discriminate].
    unfold cfg_getitem in Hfk.
    destruct (List.nth_error (URDF._cfg self) it) as [c|] eqn:Hc; simpl in Hfk; [|discriminate].
    destruct c as [x|xs]; simpl in Hfk; [|discriminate].
    destruct (Mimic.multiplier m) as [mult|] eqn:Hmu; simpl in Hfk; [|discriminate].
    destruct (Mimic.offset m) as [off|] eqn:Hoff; simpl in Hfk; [|discriminate].
    exists t, mult, off, it, x.
    split; [reflexivity|]. split; [reflexivity|]. split; [reflexivity|].
    split; [exact Hit|]. split; [exact Hc|].
    match type of Hfk with
    | bind ?mm _ = _ => destruct mm as [mtx|e]; simpl in Hfk; [|discriminate]
    end.
    inversion Hfk. reflexivity.
  - split; [|discriminate]. intros _. simpl in Hfk.
    match type of Hfk with
    | bind ?mm _ = _ => destruct mm as [mtx|e]; simpl in Hfk; [|discriminate]
    end.
    inversion Hfk. reflexivity.
Qed.

(** Updates of joints with other names leave the entry of a name alone. *)
Lemma updates_keep_entry (xs : list (Joint.t * cell)) (self self' : URDF.t)
  (n : string) (i : nat) :
  (forall jq, In jq xs -> Joint.name (fst jq) <> n) ->
  Py.index (joint_names self) n = Ok i ->
  foldM update_joint xs self = Ok self' ->
  URDF.robot self' = URDF.robot self
  /\ List.nth_error (URDF._cfg self') i = List.nth_error (URDF._cfg self) i.
Proof.
  revert self. induction xs as [|[j q] rest IH]; intros self Hne Hi Hfold; simpl in Hfold.
  - inversion Hfold; subst. split; reflexivity.
  - destruct (update_joint self (j, q)) as [s1|e] eqn:Hstep; simpl in Hfold; [|discriminate].
    destruct (update_joint_effect _ _ _ _ Hstep) as [Hrob [k [v [Hk [Hlt [Hcfg _]]]]]].
    assert (Hnames : joint_names s1 = joint_names self)
      by (unfold joint_names; rewrite Hrob; reflexivity).
    destruct (IH s1) as [Hrob' Hnth].
    + intros jq Hin. apply Hne. right. exact Hin.
    + rewrite Hnames. exact Hi.
    + exact Hfold.
    + split; [congruence|]. rewrite Hnth, Hcfg.
      apply nth_error_list_set_other.
      apply (index_distinct _ _ _ _ _ Hk Hi). apply (Hne (j, q)). left. reflexivity.
Qed.

Lemma foldM_robot (xs : list (Joint.t * cell)) (self self' : URDF.t) :
  foldM update_joint xs self = Ok self' -> URDF.robot self' = URDF.robot self.
Proof.
  revert self. induction xs as [|[j q] rest IH]; intros self Hfold; simpl in Hfold.
  - inversion Hfold; reflexivity.
  - destruct (update_joint self (j, q)) as [s1|e] eqn:Hstep; simpl in Hfold; [|discriminate].
    rewrite (IH s1 Hfold). exact (proj1 (update_joint_effect _ _ _ _ Hstep)).
Qed.

Lemma NoDup_map_eq {A B : Type} (f : A -> B) (xs : list A) (x y : A) :
  NoDup (List.map f xs) -> In x xs -> In y xs -> f x = f y -> x = y.
Proof.
  induction xs as [|z rest IH]; simpl; intros Hnd Hx Hy Heq; [contradiction|].
  inversion Hnd as [|? ? Hz Hrest]; subst.
  destruct Hx as [Hx|Hx], Hy as [Hy|Hy].
  - congruence.
  - subst z. exfalso. apply Hz. rewrite Heq. apply List.in_map. exact Hy.
  - subst z. exfalso. apply Hz. rewrite <- Heq. apply List.in_map. exact Hx.
  - exact (IH Hrest Hx Hy Heq).
Qed.

(** With distinct joint names, a mimic joint splits the appended updates
    into those before it and those after it, all of other joints. *)
Lemma mimic_updates_split (self : URDF.t) (J : Joint.t) (m : Mimic.t) :
  NoDup (joint_names self) ->
  In J (Robot.joints (URDF.robot self)) ->
  Joint.mimic J = Some m ->
  exists pre post,
    mimic_updates self = pre ++ (J, Scalar 0.0%float) :: post
    /\ (forall jq, In jq (pre ++ post) ->
                   In (fst jq) (Robot.joints (URDF.robot self))
                   /\ Joint.mimic (fst jq) <> None
                   /\ Joint.name (fst jq) <> Joint.name J).
Proof.
  unfold mimic_updates, joint_names. intros Hnd Hin Hm.
  destruct (List.in_split _ _ Hin) as [l1 [l2 Hsplit]].
  rewrite Hsplit in *. rewrite List.filter_app, List.map_app. simpl.
  rewrite Hm. simpl.
  eexists. eexists. split; [reflexivity|].
  rewrite List.map_app in Hnd. simpl in Hnd.
  pose proof (List.NoDup_remove_2 _ _ _ Hnd) as Hout.
  intros [j q] Hjq. simpl.
  assert (Hj : In j (l1 ++ l2) /\ Joint.mimic j <> None).
  { rewrite <- List.map_app, <- List.filter_app in Hjq.
    apply List.in_map_iff in Hjq. destruct Hjq as [j' [Heq Hf]].
    inversion Heq; subst j'. apply List.filter_In in Hf. destruct Hf as [Hf1 Hf2].
    split; [exact Hf1|]. intros Hc. rewrite Hc in Hf2. discriminate. }
  destruct Hj as [Hj Hmj]. split; [|split; [exact Hmj|]].
  - apply List.in_app_or in Hj. apply List.in_or_app.
    destruct Hj as [Hj|Hj]; [left; exact Hj | right; right; exact Hj].
  - intros Hname. apply Hout. rewrite <- Hname, <- List.map_app.
    apply List.in_map. exact Hj.
Qed.

(** C2. For a robot with distinct joint names and a mimic joint [J] of
    it, after [update_cfg] has returned on any input, the entry of [J] in
    the configuration is [multiplier * x + offset], where [x] is the entry
    of the target as it stood when [J] was reached in the single pass over
    the updates: after the updates built from the input and the mimic
    joints declared before [J].  When the target is no mimic joint itself,
    [x] is also its entry in the final configuration. *)
Theorem update_cfg_mimic (self self' : URDF.t) (c : configuration)
  (J : Joint.t) (m : Mimic.t) :
  nodupb (joint_names self) = true ->
  In J (Robot.joints (URDF.robot self)) ->
  Joint.mimic J = Some m ->
  update_cfg self c = Ok self' ->
  exists joint_cfg pre post mid t mult off it ij x,
    build_joint_cfg self c = Ok joint_cfg
    /\ mimic_updates self = pre ++ (J, Scalar 0.0%float) :: post
    /\ foldM update_joint (joint_cfg ++ pre) self = Ok mid
    /\ Mimic.joint m = Some t
    /\ Mimic.multiplier m = Some mult
    /\ Mimic.offset m = Some off
    /\ Py.index (joint_names self) t = Ok it
    /\ Py.index (joint_names self) (Joint.name J) = Ok ij
    /\ List.nth_error (Robot.joints (URDF.robot self)) ij = Some J
    /\ List.nth_error (URDF._cfg mid) it = Some (Scalar x)
    /\ List.nth_error (URDF._cfg self') ij = Some (Scalar (mult * x + off)%float)
    /\ (forall T, In T (Robot.joints (URDF.robot self)) ->
                  Joint.name T = t -> Joint.mimic T = None ->
                  List.nth_error (URDF._cfg self') it = Some (Scalar x)).
Proof.
  intros Hnames HJ Hm Hupd.
  apply nodupb_NoDup in Hnames.
  unfold update_cfg in Hupd.
  destruct (build_joint_cfg self c) as [joint_cfg|e] eqn:Hbuild; simpl in Hupd;
    [|discriminate].
  destruct (mimic_updates_split self J m Hnames HJ Hm) as [pre [post [Hsplit Hothers]]].
  rewrite Hsplit, List.app_assoc, foldM_app in Hupd.
  destruct (foldM update_joint (joint_cfg ++ pre) self) as [mid|e] eqn:Hmid;
    simpl in Hupd; [|discriminate].
  destruct (update_joint mid (J, Scalar 0.0%float)) as [s1|e] eqn:Hstep;
    simpl in Hupd; [|discriminate].
  pose proof (foldM_robot _ _ _ Hmid) as Hrob.
  assert (Hnm : joint_names mid = joint_names self)
    by (unfold joint_names; rewrite Hrob; reflexivity).
  destruct (update_joint_effect _ _ _ _ Hstep)
    as [Hrob1 [ij [v [Hij [Hlt [Hcfg [_ Hv]]]]]]].
  destruct (Hv m Hm) as [t [mult [off [it [x [Ht [Hmu [Hoff [Hit [Hx Hval]]]]]]]]]].
  rewrite Hnm in Hij, Hit.
  assert (Hns1 : joint_names s1 = joint_names self)
    by (unfold joint_names; rewrite Hrob1, Hrob; reflexivity).
  exists joint_cfg, pre, post, mid, t, mult, off, it, ij, x.
  split; [reflexivity|]. split; [exact Hsplit|]. split; [exact Hmid|].
  split; [exact Ht|]. split; [exact Hmu|]. split; [exact Hoff|].
  split; [exact Hit|]. split; [exact Hij|].
  assert (HJij : List.nth_error (Robot.joints (URDF.robot self)) ij = Some J).
  { pose proof (index_nth _ _ _ Hij) as Hn. unfold joint_names in Hn.
    rewrite List.nth_error_map in Hn.
    destruct (List.nth_error (Robot.joints (URDF.robot self)) ij) as [J'|] eqn:HJ';
      simpl in Hn; [|discriminate].
    inversion Hn as [Hname]. f_equal.
    apply (NoDup_map_eq Joint.name (Robot.joints (URDF.robot self))); try assumption.
    eapply List.nth_error_In. exact HJ'. }
  split; [exact HJij|]. split; [exact Hx|]. split.
  - destruct (updates_keep_entry post s1 self' (Joint.name J) ij) as [_ Hkeep].
    + intros jq Hin. apply Hothers. apply List.in_or_app. right. exact Hin.
    + rewrite Hns1. exact Hij.
    + exact Hupd.
    + rewrite Hkeep, Hcfg, nth_error_list_set_same by exact Hlt.
      rewrite Hval, (float_mul_comm x mult). reflexivity.
  - intros T HT HTname HTm.
    destruct (updates_keep_entry ((J, Scalar 0.0%float) :: post) mid self' t it)
      as [_ Hkeep].
    + intros jq [Heq|Hin].
      * subst jq. simpl. intros Hname.
        assert (J = T).
        { apply (NoDup_map_eq Joint.name (Robot.joints (URDF.robot self)));
            try assumption. congruence. }
        subst T. congruence.
      * destruct (Hothers jq (List.in_or_app _ _ _ (or_intror Hin)))
          as [Hjin [Hjm _]].
        intros Hname. apply Hjm.
        assert (fst jq = T).
        { apply (NoDup_map_eq Joint.name (Robot.joints (URDF.robot self)));
            try assumption. congruence. }
        congruence.
    + rewrite Hnm. exact Hit.
    + simpl. rewrite Hstep. simpl. exact Hupd.
    + rewrite Hkeep. exact Hx.
Qed.

Lemma update_cfg_mimic_pair :
  nodupb (joint_names (urdf_of robot_mimic_pair)) = true
  /\ update_cfg (urdf_of robot_mimic_pair) (CfgSeq [0.25%float])
     = Ok (updated (urdf_of robot_mimic_pair) (CfgSeq [0.25%float]))
  /\ exists joint_cfg pre post mid t mult off it ij x,
       build_joint_cfg (urdf_of robot_mimic_pair) (CfgSeq [0.25%float]) = Ok joint_cfg
       /\ mimic_updates (urdf_of robot_mimic_pair)
          = pre ++ (joint_j2, Scalar 0.0%float) :: post
       /\ foldM update_joint (joint_cfg ++ pre) (urdf_of robot_mimic_pair) = Ok mid
       /\ Mimic.joint mimic_of_pair = Some t
       /\ Mimic.multiplier mimic_of_pair = Some mult
       /\ Mimic.offset mimic_of_pair = Some off
       /\ Py.index (joint_names (urdf_of robot_mimic_pair)) t = Ok it
       /\ Py.index (joint_names (urdf_of robot_mimic_pair)) (Joint.name joint_j2) = Ok ij
       /\ List.nth_error (Robot.joints (URDF.robot (urdf_of robot_mimic_pair))) ij
          = Some joint_j2
       /\ List.nth_error (URDF._cfg mid) it = Some (Scalar x)
       /\ List.nth_error
            (URDF._cfg (updated (urdf_of robot_mimic_pair) (CfgSeq [0.25%float]))) ij
          = Some (Scalar (mult * x + off)%float)
       /\ (forall T, In T (Robot.joints (URDF.robot (urdf_of robot_mimic_pair))) ->
                     Joint.name T = t -> Joint.mimic T = None ->
                     List.nth_error
                       (URDF._cfg (updated (urdf_of robot_mimic_pair)
                                     (CfgSeq [0.25%float]))) it
                     = Some (Scalar x)).
Proof.
  split; [vm_compute; reflexivity|]. split; [vm_compute; reflexivity|].
  apply (update_cfg_mimic (urdf_of robot_mimic_pair)
           (updated (urdf_of robot_mimic_pair) (CfgSeq [0.25%float]))
           (CfgSeq [0.25%float]) joint_j2 mimic_of_pair).
  - vm_compute. reflexivity.
  - vm_compute. right. left. reflexivity.
  - reflexivity.
  - vm_compute. reflexivity.
Defined.

Example update_cfg_mimic_pair_values :
  URDF._cfg (updated (urdf_of robot_mimic_pair) (CfgSeq [0.25%float]))
  = [Scalar 0.25%float; Scalar (2.0 * 0.25 + 1.0)%float].
Proof. vm_compute. reflexivity. Qed.
(* ================================================================== *)
(** * Further properties of the filename handlers *)
(* ================================================================== *)

Lemma prefix_append (p s : string) : String.prefix p (p ^^ s) = true.
Proof.
  induction p as [|c p IH]; simpl; [destruct s; reflexivity|].
  destruct (Ascii.ascii_dec c c) as [_|Hne]; [exact IH | contradiction].
Qed.

Lemma substring_append (p s : string) :
  String.substring (String.length p) (String.length (p ^^ s) - String.length p) (p ^^ s)
  = s.
Proof.
  induction p as [|c p IH]; simpl.
  - rewrite Nat.sub_0_r. induction s as [|a s IHs]; simpl; [reflexivity|].
    rewrite IHs. reflexivity.
  - exact IH.
Qed.

(** X1. Adding a prefix and then making the name relative to that prefix
    gives the name back; a name that does not start with the directory is
    returned as it is. *)
Theorem absolute2relative_add_prefix (fname prefix : string) :
  filename_handler_absolute2relative (filename_handler_add_prefix fname prefix) prefix
  = fname
  /\ (forall dir, Py.startswith fname dir = false ->
                  filename_handler_absolute2relative fname dir = fname).
Proof.
  split.
  - unfold filename_handler_absolute2relative, filename_handler_add_prefix, Py.startswith.
    rewrite prefix_append. apply substring_append.
  - intros dir H. unfold filename_handler_absolute2relative. rewrite H. reflexivity.
Qed.

(** X2. The meta handler returns either a path produced by one of its
    handlers that is a file, all handlers before it having produced paths
    that are no files, or, when no handler produces a file, its input. *)
Theorem filename_handler_meta_result (isfile : string -> bool) (fname : string)
  (handlers : list (string -> string)) :
  (exists before fn after,
      handlers = before ++ fn :: after
      /\ List.forallb (fun f => negb (isfile (f fname))) before = true
      /\ isfile (fn fname) = true
      /\ filename_handler_meta isfile fname handlers = fn fname)
  \/ (List.forallb (fun f => negb (isfile (f fname))) handlers = true
      /\ filename_handler_meta isfile fname handlers = fname).
Proof.
  induction handlers as [|fn rest IH]; simpl.
  - right. split; reflexivity.
  - destruct (isfile (fn fname)) eqn:E; simpl.
    + left. exists [], fn, rest. repeat split; try reflexivity. exact E.
    + destruct IH as [(before & g & after & Hsplit & Hb & Hg & Hr) | [Hall Hr]].
      * left. exists (fn :: before), g, after. subst rest. simpl. rewrite E. simpl.
        repeat split; assumption.
      * right. split; assumption.
Qed.

Lemma append_assoc' (a b c : string) : (a ^^ b) ^^ c = a ^^ (b ^^ c).
Proof. induction a as [|x a IH]; simpl; [reflexivity | rewrite IH; reflexivity]. Qed.

Lemma append_empty_r (a : string) : a ^^ "" = a.
Proof. induction a as [|x a IH]; simpl; [reflexivity | rewrite IH; reflexivity]. Qed.

(** Splitting a string in which the separator does not occur gives the
    string, after the piece under construction. *)
Lemma split_go_absent (sep cur s : string) :
  contains_sub sep s = false -> Py.split_go sep 0 cur s = [cur ^^ s].
Proof.
  revert cur. induction s as [|c r IH]; intros cur H.
  - simpl. rewrite append_empty_r. reflexivity.
  - change (contains_sub sep (String c r))
      with (String.prefix sep (String c r) || contains_sub sep r) in H.
    apply orb_false_elim in H. destruct H as [Hp Hr].
    change (Py.split_go sep 0 cur (String c r))
      with (if String.prefix sep (String c r)
            then cur :: Py.split_go sep (String.length sep - 1) "" r
            else Py.split_go sep 0 (cur ^^ String c "") r).
    rewrite Hp, (IH _ Hr), append_assoc'. reflexivity.
Qed.

Lemma prefix_empty (s : string) : String.prefix "" s = true.
Proof. destruct s; reflexivity. Qed.

Lemma prefix_sep_char (c : ascii) (r : string) :
  String.prefix "/" (String c r) = Ascii.eqb c "/".
Proof.
  change (String.prefix "/" (String c r))
    with (if Ascii.ascii_dec "/" c then String.prefix "" r else false).
  destruct (Ascii.ascii_dec "/" c) as [Heq|Hne].
  - subst c. rewrite prefix_empty. reflexivity.
  - symmetry. apply Ascii.eqb_neq. congruence.
Qed.

Lemma split_go_nonempty (sep : string) (skip : nat) (cur s : string) :
  Py.split_go sep skip cur s <> [].
Proof.
  revert skip cur. induction s as [|c r IH]; intros skip cur; simpl; [discriminate|].
  destruct skip; [|apply IH].
  match goal with |- (if ?b then _ else _) <> _ => destruct b end;
    [discriminate | apply IH].
Qed.

Lemma concat_cons (sep x : string) (xs : list string) :
  xs <> [] -> String.concat sep (x :: xs) = x ^^ sep ^^ String.concat sep xs.
Proof. destruct xs; [contradiction | reflexivity]. Qed.

(** Joining the pieces of a path split at ["/"] gives the path back. *)
Lemma join_split_sep (cur s : string) :
  Py.join "/" (Py.split_go "/" 0 cur s) = cur ^^ s.
Proof.
  unfold Py.join. revert cur. induction s as [|c r IH]; intros cur.
  - simpl. rewrite append_empty_r. reflexivity.
  - change (Py.split_go "/" 0 cur (String c r))
      with (if String.prefix "/" (String c r)
            then cur :: Py.split_go "/" (String.length "/" - 1) "" r
            else Py.split_go "/" 0 (cur ^^ String c "") r).
    rewrite prefix_sep_char. destruct (Ascii.eqb c "/") eqn:E.
    + apply Ascii.eqb_eq in E. subst c.
      rewrite concat_cons by apply split_go_nonempty.
      simpl String.length. simpl Nat.sub. rewrite IH. reflexivity.
    + rewrite IH, append_assoc'. reflexivity.
Qed.

(** Splitting at ["/"] a string that starts with a segment free of ["/"]. *)
Lemma split_first_segment (cur seg rest : string) :
  Py.contains_char "/" seg = false ->
  Py.split_go "/" 0 cur (seg ^^ "/" ^^ rest)
  = (cur ^^ seg) :: Py.split_go "/" 0 "" rest.
Proof.
  revert cur. induction seg as [|c seg IH]; intros cur H.
  - change ("" ^^ "/" ^^ rest) with (String "/" rest).
    change (Py.split_go "/" 0 cur (String "/" rest))
      with (if String.prefix "/" (String "/" rest)
            then cur :: Py.split_go "/" (String.length "/" - 1) "" rest
            else Py.split_go "/" 0 (cur ^^ String "/" "") rest).
    rewrite prefix_sep_char, append_empty_r. reflexivity.
  - simpl in H. apply orb_false_elim in H. destruct H as [Hc Hseg].
    change (String c seg ^^ "/" ^^ rest) with (String c (seg ^^ "/" ^^ rest)).
    change (Py.split_go "/" 0 cur (String c (seg ^^ "/" ^^ rest)))
      with (if String.prefix "/" (String c (seg ^^ "/" ^^ rest))
            then cur :: Py.split_go "/" (String.length "/" - 1) "" (seg ^^ "/" ^^ rest)
            else Py.split_go "/" 0 (cur ^^ String c "") (seg ^^ "/" ^^ rest)).
    rewrite prefix_sep_char, Hc, (IH _ Hseg), append_assoc'. reflexivity.
Qed.

(** Splitting at ["://"] a string that starts with it. *)
Lemma split_go_directive (cur s : string) :
  Py.split_go "://" 0 cur ("://" ^^ s) = cur :: Py.split_go "://" 0 "" s.
Proof.
  change (Py.split_go "://" 0 cur ("://" ^^ s))
    with (if String.prefix "://" ("://" ^^ s)
          then cur :: Py.split_go "://" 0 "" s
          else Py.split_go "://" 0 (cur ^^ ":") ("//" ^^ s)).
  rewrite prefix_append. reflexivity.
Qed.

(** X3. A reference [package://<pkg>/<rest>], where the package name has
    no ["/"] and ["://"] does not occur in [<pkg>/<rest>] (neither inside
    the two parts nor across the ["/"] that joins them), is stripped to
    [<rest>], and the relative handler joins the directory with
    [<rest>]. *)
Theorem ignore_directive_package_strips (pkg rest : string) :
  Py.contains_char "/" pkg = false ->
  contains_sub "://" (pkg ^^ "/" ^^ rest) = false ->
  filename_handler_ignore_directive_package ("package://" ^^ pkg ^^ "/" ^^ rest) = rest
  /\ (forall dir,
        filename_handler_relative ("package://" ^^ pkg ^^ "/" ^^ rest) dir
        = PosixPath.join dir rest).
Proof.
  intros Hpkg Hno.
  assert (Hstrip : filename_handler_ignore_directive_package
                     ("package://" ^^ pkg ^^ "/" ^^ rest) = rest).
  { unfold filename_handler_ignore_directive_package.
    change (Py.startswith ("package://" ^^ pkg ^^ "/" ^^ rest) "package:") with true.
    cbv iota.
    assert (Hsplit : Py.split ("package://" ^^ pkg ^^ "/" ^^ rest)
                       (":" ^^ PosixPath.sep ^^ PosixPath.sep)
                     = ["package"; pkg ^^ "/" ^^ rest]).
    { change (Py.split ("package://" ^^ pkg ^^ "/" ^^ rest)
                (":" ^^ PosixPath.sep ^^ PosixPath.sep))
        with (Py.split_go "://" 0 "package" ("://" ^^ pkg ^^ "/" ^^ rest)).
      rewrite split_go_directive, (split_go_absent _ _ _ Hno). reflexivity. }
    rewrite Hsplit. unfold Py.last_item. simpl List.last.
    unfold Py.split, PosixPath.sep. change (pkg ^^ String "/" rest) with (pkg ^^ "/" ^^ rest).
    rewrite (split_first_segment "" pkg rest Hpkg).
    simpl List.tl. apply (join_split_sep "" rest). }
  split; [exact Hstrip|].
  intros dir. unfold filename_handler_relative. rewrite Hstrip. reflexivity.
Qed.

Lemma ignore_directive_package_example :
  Py.contains_char "/" "my_robot" = false
  /\ contains_sub "://" ("my_robot" ^^ "/" ^^ "meshes/arm/link1.dae") = false
  /\ filename_handler_ignore_directive_package "package://my_robot/meshes/arm/link1.dae"
     = "meshes/arm/link1.dae".
Proof.
  split; [reflexivity|]. split; [reflexivity|].
  exact (proj1 (ignore_directive_package_strips "my_robot" "meshes/arm/link1.dae"
                  eq_refl eq_refl)).
Defined.

(** X4. [filename_handler_ignore_directive] returns every name in which
    ["://"] does not occur unchanged.  When such a name does not start
    with ["package:"] either, [filename_handler_ignore_directive_package]
    returns it unchanged too, and the relative handler joins it to the
    directory as it is. *)
Theorem ignore_directive_plain_name (fname : string) :
  contains_sub "://" fname = false ->
  filename_handler_ignore_directive fname = fname
  /\ (Py.startswith fname "package:" = false ->
      filename_handler_ignore_directive_package fname = fname
      /\ (forall dir, filename_handler_relative fname dir = PosixPath.join dir fname)).
Proof.
  intros Hno.
  assert (H1 : filename_handler_ignore_directive fname = fname).
  { unfold filename_handler_ignore_directive, Py.split.
    change (":" ^^ PosixPath.sep ^^ PosixPath.sep) with "://".
    rewrite (split_go_absent _ _ _ Hno). reflexivity. }
  split; [exact H1|]. intros Hpkg.
  assert (H2 : filename_handler_ignore_directive_package fname = fname).
  { unfold filename_handler_ignore_directive_package. rewrite Hpkg. exact H1. }
  split; [exact H2|].
  intros dir. unfold filename_handler_relative. rewrite H2. reflexivity.
Qed.

Lemma ignore_directive_plain_example :
  contains_sub "://" "meshes/base.stl" = false
  /\ Py.startswith "meshes/base.stl" "package:" = false
  /\ filename_handler_relative "meshes/base.stl" "/opt/robots"
     = "/opt/robots/meshes/base.stl"
  /\ contains_sub "://" "package:foo/bar" = false
  /\ filename_handler_ignore_directive "package:foo/bar" = "package:foo/bar".
Proof.
  split; [reflexivity|]. split; [reflexivity|]. split; [|split; [reflexivity|]].
  - exact (proj2 (proj2 (ignore_directive_plain_name "meshes/base.stl" eq_refl) eq_refl)
             "/opt/robots").
  - exact (proj1 (ignore_directive_plain_name "package:foo/bar" eq_refl)).
Defined.

(* ================================================================== *)
(** * The name maps and the actuated joints *)
(* ================================================================== *)

Lemma dict_get_set_same {V : Type} (d : list (string * V)) (k : string) (v : V) :
  dict_get (dict_set d k v) k = Some v.
Proof.
  induction d as [|[k' v'] rest IH]; simpl.
  - rewrite String.eqb_refl. reflexivity.
  - destruct (String.eqb k' k) eqn:E; simpl.
    + rewrite String.eqb_refl. reflexivity.
    + rewrite E. exact IH.
Qed.

Lemma dict_get_set_other {V : Type} (d : list (string * V)) (k k0 : string) (v : V) :
  k <> k0 -> dict_get (dict_set d k v) k0 = dict_get d k0.
Proof.
  intros Hne. induction d as [|[k' v'] rest IH]; simpl.
  - destruct (String.eqb k k0) eqn:E; [apply String.eqb_eq in E; contradiction | reflexivity].
  - destruct (String.eqb k' k) eqn:E; simpl.
    + apply String.eqb_eq in E. subst k'.
      destruct (String.eqb k k0) eqn:E'; [apply String.eqb_eq in E'; contradiction|].
      reflexivity.
    + destruct (String.eqb k' k0); [reflexivity | exact IH].
Qed.

Lemma find_app_last {A : Type} (p : A -> bool) (xs : list A) (x : A) :
  List.find p (List.rev (xs ++ [x]))
  = if p x then Some x else List.find p (List.rev xs).
Proof. rewrite List.rev_app_distr. reflexivity. Qed.

(** A map filled by successive assignments [m[key(x)] = x] holds, under
    each key, the last element with that key. *)
Lemma dict_fold_get {A : Type} (key : A -> string) (xs : list A)
  (d : list (string * A)) (k : string) :
  dict_get (List.fold_left (fun m x => dict_set m (key x) x) xs d) k
  = match find_last (fun x => String.eqb (key x) k) xs with
    | Some x => Some x
    | None => dict_get d k
    end.
Proof.
  unfold find_last. revert d. induction xs as [|x rest IH] using List.rev_ind; intros d.
  - reflexivity.
  - rewrite List.fold_left_app, find_app_last. simpl.
    destruct (String.eqb (key x) k) eqn:E.
    + apply String.eqb_eq in E. subst k. apply dict_get_set_same.
    + rewrite dict_get_set_other; [apply IH|].
      intros Heq. rewrite Heq, String.eqb_refl in E. discriminate.
Qed.

Lemma find_last_unique {A : Type} (key : A -> string) (xs : list A) (x : A) :
  NoDup (List.map key xs) -> In x xs ->
  find_last (fun y => String.eqb (key y) (key x)) xs = Some x.
Proof.
  unfold find_last. intros Hnd Hin.
  destruct (List.find (fun y => String.eqb (key y) (key x)) (List.rev xs)) as [y|] eqn:F.
  - apply List.find_some in F. destruct F as [Hy Hk].
    apply String.eqb_eq in Hk. apply List.in_rev in Hy. f_equal.
    revert Hnd Hin Hy Hk. clear. induction xs as [|z rest IH]; simpl; [contradiction|].
    intros Hnd Hx Hy Hk. inversion Hnd as [|? ? Hz Hrest]; subst.
    destruct Hx as [Hx|Hx], Hy as [Hy|Hy].
    + congruence.
    + subst z. exfalso. apply Hz. rewrite <- Hk. apply List.in_map. exact Hy.
    + subst z. exfalso. apply Hz. rewrite Hk. apply List.in_map. exact Hx.
    + exact (IH Hrest Hx Hy Hk).
  - apply List.in_rev in Hin. pose proof (List.find_none _ _ F x Hin) as Hf.
    simpl in Hf. rewrite String.eqb_refl in Hf. discriminate.
Qed.

(** X5. After [_create_maps] the joint map and the link map hold, under a
    name, the last joint (link) declared with that name, and nothing under
    a name no joint (link) has; with distinct names every joint and every
    link is found under its own name. *)
Theorem create_maps_lookup (self : URDF.t) :
  (forall k,
      dict_get (URDF._joint_map (_create_maps self)) k
      = find_last (fun j => String.eqb (Joint.name j) k) (Robot.joints (URDF.robot self)))
  /\ (forall k,
         dict_get (URDF._link_map (_create_maps self)) k
         = find_last (fun l => String.eqb (Link.name l) k) (Robot.links (URDF.robot self)))
  /\ (NoDup (List.map Joint.name (Robot.joints (URDF.robot self))) ->
      forall j, In j (Robot.joints (URDF.robot self)) ->
                dict_getitem (URDF._joint_map (_create_maps self)) (Joint.name j) = Ok j)
  /\ (NoDup (List.map Link.name (Robot.links (URDF.robot self))) ->
      forall l, In l (Robot.links (URDF.robot self)) ->
                dict_getitem (URDF._link_map (_create_maps self)) (Link.name l) = Ok l)
  /\ (forall k, ~ In k (List.map Joint.name (Robot.joints (URDF.robot self))) ->
                dict_getitem (URDF._joint_map (_create_maps self)) k
                = Err (Raise KeyError (Py.repr k))).
Proof.
  assert (Hj : forall k,
             dict_get (URDF._joint_map (_create_maps self)) k
             = find_last (fun j => String.eqb (Joint.name j) k)
                 (Robot.joints (URDF.robot self))).
  { intros k. unfold _create_maps. simpl. rewrite dict_fold_get.
    destruct (find_last _ _); reflexivity. }
  assert (Hl : forall k,
             dict_get (URDF._link_map (_create_maps self)) k
             = find_last (fun l => String.eqb (Link.name l) k)
                 (Robot.links (URDF.robot self))).
  { intros k. unfold _create_maps. simpl. rewrite dict_fold_get.
    destruct (find_last _ _); reflexivity. }
  split; [exact Hj|]. split; [exact Hl|]. split; [|split].
  - intros Hnd j Hin. unfold dict_getitem.
    rewrite Hj, (find_last_unique Joint.name _ j Hnd Hin). reflexivity.
  - intros Hnd l Hin. unfold dict_getitem.
    rewrite Hl, (find_last_unique Link.name _ l Hnd Hin). reflexivity.
  - intros k Hk. unfold dict_getitem. rewrite Hj. unfold find_last.
    destruct (List.find _ _) as [j|] eqn:F; [|reflexivity].
    apply List.find_some in F. destruct F as [Hin Heq].
    apply String.eqb_eq in Heq. exfalso. apply Hk. rewrite <- Heq.
    apply List.in_map. apply List.in_rev. exact Hin.
Qed.

Lemma enumerate_nth {A : Type} (xs : list A) (a p : nat) (k : nat) (x : A) :
  List.nth_error (List.combine (List.seq a (List.length xs)) xs) p = Some (k, x) ->
  k = a + p /\ List.nth_error xs p = Some x.
Proof.
  revert a p. induction xs as [|y rest IH]; intros a p H; simpl in H.
  - destruct p; discriminate.
  - destruct p as [|p]; simpl in H.
    + inversion H; subst. split; [lia | reflexivity].
    + destruct (IH (S a) p H) as [Hk Hn]. split; [lia | exact Hn].
Qed.

(** X6. [_update_actuated_joints] keeps the joints that have no mimic and
    whose type is not ["fixed"], in declaration order, and records for each
    of them its position among all joints: the [k]-th index is the position
    of the [k]-th actuated joint, and the indices increase. *)
Theorem update_actuated_joints_indices (self : URDF.t) :
  let self' := _update_actuated_joints self in
  URDF._actuated_joints self'
  = List.filter is_actuated (Robot.joints (URDF.robot self))
  /\ List.length (URDF._actuated_joint_indices self')
     = List.length (URDF._actuated_joints self')
  /\ (forall k i,
         List.nth_error (URDF._actuated_joint_indices self') k = Some i ->
         exists j, List.nth_error (URDF._actuated_joints self') k = Some j
                   /\ List.nth_error (Robot.joints (URDF.robot self)) i = Some j
                   /\ is_actuated j = true)
  /\ (forall k1 k2 i1 i2,
         k1 < k2 ->
         List.nth_error (URDF._actuated_joint_indices self') k1 = Some i1 ->
         List.nth_error (URDF._actuated_joint_indices self') k2 = Some i2 ->
         i1 < i2).
Proof.
  intros self'. unfold self', _update_actuated_joints. simpl.
  set (js := Robot.joints (URDF.robot self)).
  set (en := List.combine (List.seq 0 (List.length js)) js).
  set (act := List.filter (fun ij : nat * Joint.t => is_actuated (snd ij)) en).
  split; [apply filter_enumerated|]. split; [rewrite !List.length_map; reflexivity|].
  assert (Hin : forall k i j, List.nth_error act k = Some (i, j) ->
                              List.nth_error js i = Some j /\ is_actuated j = true).
  { intros k i j Hk. apply List.nth_error_In in Hk. apply List.filter_In in Hk.
    destruct Hk as [Hen Hact]. split; [|exact Hact].
    apply List.In_nth_error in Hen. destruct Hen as [p Hp].
    destruct (enumerate_nth js 0 p i j Hp) as [Hi Hn]. simpl in Hi. subst i. exact Hn. }
  split.
  - intros k i Hk. rewrite List.nth_error_map in Hk.
    destruct (List.nth_error act k) as [[i' j]|] eqn:E; simpl in Hk; [|discriminate].
    inversion Hk; subst i'. exists j. rewrite List.nth_error_map, E. simpl.
    destruct (Hin k i j E) as [H1 H2]. repeat split; assumption.
  - clear Hin.
    assert (Hmono : forall (xs : list Joint.t) a k1 k2 i1 i2,
              k1 < k2 ->
              List.nth_error
                (List.map fst
                   (List.filter (fun ij : nat * Joint.t => is_actuated (snd ij))
                      (List.combine (List.seq a (List.length xs)) xs))) k1 = Some i1 ->
              List.nth_error
                (List.map fst
                   (List.filter (fun ij : nat * Joint.t => is_actuated (snd ij))
                      (List.combine (List.seq a (List.length xs)) xs))) k2 = Some i2 ->
              a <= i1 /\ i1 < i2).
    { induction xs as [|x rest IH]; intros a k1 k2 i1 i2 Hlt H1 H2; simpl in *.
      - destruct k1; discriminate.
      - destruct (is_actuated x); simpl in *.
        + destruct k2 as [|k2]; [lia|]. destruct k1 as [|k1]; simpl in *.
          * inversion H1; subst i1. split; [lia|].
            assert (Hge : forall k i,
                      List.nth_error
                        (List.map fst
                           (List.filter (fun ij : nat * Joint.t => is_actuated (snd ij))
                              (List.combine (List.seq (S a) (List.length rest)) rest))) k
                      = Some i -> S a <= i).
            { clear. intros k i H. apply List.nth_error_In in H.
              apply List.in_map_iff in H. destruct H as [[i' j] [Hi Hf]]. simpl in Hi.
              subst i'. apply List.filter_In in Hf. destruct Hf as [Hc _].
              apply List.in_combine_l in Hc. apply List.in_seq in Hc. lia. }
            specialize (Hge k2 i2 H2). lia.
          * destruct (IH (S a) k1 k2 i1 i2) as [Ha Hi]; [lia | exact H1 | exact H2 |].
            split; lia.
        + destruct (IH (S a) k1 k2 i1 i2 Hlt H1 H2) as [Ha Hi]. split; lia. }
    intros k1 k2 i1 i2 Hlt H1 H2.
    exact (proj2 (Hmono js 0 k1 k2 i1 i2 Hlt H1 H2)).
Qed.

(** X7. What [_determine_base_link] returns is the name of a link of the
    robot; a robot without joints has its first link as base link, and a
    robot without links has none when it has no joints. *)
Theorem determine_base_link_is_link (self : URDF.t) :
  (forall l, _determine_base_link self = Ok (Some l) ->
             In l (List.map Link.name (Robot.links (URDF.robot self))))
  /\ (Robot.joints (URDF.robot self) = [] ->
      _determine_base_link self
      = Ok (List.hd_error (List.map Link.name (Robot.links (URDF.robot self))))).
Proof.
  split.
  - unfold _determine_base_link.
    generalize (List.map Link.name (Robot.links (URDF.robot self))) as names.
    induction (Robot.joints (URDF.robot self)) as [|j rest IH]; intros names l H.
    + simpl in H. destruct names as [|first tl]; inversion H. left. reflexivity.
    + simpl in H.
      destruct (list_remove_opt names (Joint.child j)) as [names'|e] eqn:R;
        simpl in H; [|discriminate].
      destruct (Joint.child j) as [c|]; simpl in R; [|discriminate].
      destruct (list_remove_inv _ _ _ R) as [_ [Hsub _]].
      apply Hsub. apply (IH names' l). exact H.
  - intros Hj. unfold _determine_base_link. rewrite Hj. simpl.
    destruct (List.map Link.name (Robot.links (URDF.robot self))); reflexivity.
Qed.

(* ================================================================== *)
(** * Further properties of the default configuration *)
(* ================================================================== *)

Lemma nth_in_default {A : Type} (xs : list A) (i : nat) (d : A) :
  i < List.length xs -> In (List.nth i xs d) xs.
Proof. intros H. apply List.nth_In. exact H. Qed.

(** X8. Whenever [get_default_cfg] returns, the nested list it has built
    holds one row per joint, in the order of the joints, and no row is
    empty. *)
Theorem default_config_rows_shape (self : URDF.t) (rows : list (list float)) :
  default_config_rows self = Ok rows ->
  List.length rows = List.length (Robot.joints (URDF.robot self))
  /\ (forall row, In row rows -> row <> []).
Proof.
  intros H.
  destruct (default_config_rows_state self rows H)
    as (b & hp & _ & _ & Hb & Hr & Hrows).
  destruct Hb as (_ & Hconf & Hids & _ & _ & _).
  destruct Hr as (Hlen & Hne & _).
  subst rows. split; [rewrite List.length_map; exact Hconf|].
  intros row Hin. apply List.in_map_iff in Hin. destruct Hin as [id [Hid Hin]].
  subst row. apply Hne. apply List.nth_In. rewrite Hlen. apply Hids. exact Hin.
Qed.

Lemma default_config_rows_shape_pair :
  default_config_rows (blank_urdf robot_mimic_pair) = Ok [[1.0%float]; [3.0%float]]
  /\ List.length [[1.0%float]; [3.0%float]]
     = List.length (Robot.joints (URDF.robot (blank_urdf robot_mimic_pair))).
Proof.
  assert (H : default_config_rows (blank_urdf robot_mimic_pair)
              = Ok [[1.0%float]; [3.0%float]]) by (vm_compute; reflexivity).
  split; [exact H|].
  exact (proj1 (default_config_rows_shape (blank_urdf robot_mimic_pair) _ H)).
Defined.

Lemma concat_singletons {A : Type} (rows : list (list A)) :
  (forall r, In r rows -> List.length r = 1) ->
  List.length (List.concat rows) = List.length rows.
Proof.
  induction rows as [|r rest IH]; intros H; [reflexivity|].
  simpl. rewrite List.length_app, IH, (H r); [reflexivity | left; reflexivity|].
  intros r' Hr'. apply H. right. exact Hr'.
Qed.

(** X9. For a robot in which no joint without mimic is floating or planar,
    the array [get_default_cfg] returns is flat: it has exactly one entry
    per joint and every entry is a number. *)
Theorem get_default_cfg_flat (self : URDF.t) (cfg : list cell) :
  (forall j, In j (Robot.joints (URDF.robot self)) -> Joint.mimic j = None ->
             type_is j "floating" = false /\ type_is j "planar" = false) ->
  get_default_cfg self = Ok cfg ->
  List.length cfg = List.length (Robot.joints (URDF.robot self))
  /\ (forall c, In c cfg -> exists x, c = Scalar x).
Proof.
  intros Hty Hcfg. unfold get_default_cfg in Hcfg.
  destruct (default_config_rows self) as [rows|e] eqn:Hrows; simpl in Hcfg; [|discriminate].
  inversion Hcfg; subst cfg; clear Hcfg.
  destruct (default_config_rows_state self rows Hrows)
    as (b & hp & H1 & H2 & Hb & Hr & Heq).
  set (js := Robot.joints (URDF.robot self)) in *.
  assert (Hheap : List.Forall (fun r => List.length r = 1) (heap b)).
  { apply (foldM_inv default_cfg_step
             (fun b0 => List.Forall (fun r => List.length r = 1) (heap b0))
             js (mk_builder [] [] None) b); [| constructor | exact H1].
    intros b0 j b1 Hin Hb0 Hstep. rewrite default_cfg_step_cases in Hstep.
    destruct (allocating j) eqn:Ha.
    - destruct (initial_row j) as [row|e] eqn:Hrow; simpl in Hstep; [|discriminate].
      inversion Hstep; subst b1. simpl. apply List.Forall_app. split; [exact Hb0|].
      constructor; [|constructor].
      exact (initial_row_single j row Hrow (Hty j Hin) Ha).
    - destruct (cfg_var b0); [|discriminate]. inversion Hstep; subst b1. exact Hb0. }
  assert (Hhp : List.Forall (fun r => List.length r = 1) hp).
  { apply (foldM_inv (default_mimic_step (List.map Joint.name js) (config b))
             (fun h => List.Forall (fun r => List.length r = 1) h)
             (enumerate js) (heap b) hp); [| exact Hheap | exact H2].
    intros h [i j] h' _ Hh Hstep. unfold default_mimic_step in Hstep. simpl in Hstep.
    destruct (Joint.mimic j) as [m|]; [|inversion Hstep; subst; exact Hh].
    destruct (index_opt _ (Mimic.joint m)) as [index|e]; simpl in Hstep; [|discriminate].
    destruct (config_get0 h (config b) index) as [x|e]; simpl in Hstep; [|discriminate].
    destruct (py_mul x (Mimic.multiplier m)) as [xm|e]; simpl in Hstep; [|discriminate].
    destruct (py_add xm (Mimic.offset m)) as [v|e]; simpl in Hstep; [|discriminate].
    unfold config_set0 in Hstep.
    destruct (List.nth_error (config b) i) as [id|]; [|discriminate].
    destruct (List.nth_error h id) as [[|x0 rest]|] eqn:Hrow; try discriminate.
    inversion Hstep; subst h'. apply Forall_list_set; [exact Hh|].
    rewrite List.Forall_forall in Hh.
    exact (Hh (x0 :: rest) (List.nth_error_In _ _ Hrow)). }
  destruct Hb as (_ & Hconf & Hids & _ & _ & _).
  destruct Hr as (Hlen & _ & _).
  assert (Hone : forall r, In r rows -> List.length r = 1).
  { intros r Hin. subst rows. apply List.in_map_iff in Hin.
    destruct Hin as [id [Hid Hin]]. subst r.
    rewrite List.Forall_forall in Hhp. apply Hhp. apply List.nth_In.
    rewrite Hlen. apply Hids. exact Hin. }
  assert (Hn : List.length rows = List.length js)
    by (subst rows; rewrite List.length_map; exact Hconf).
  unfold np_array_flatten. destruct rows as [|first rest] eqn:Erows.
  - split; [exact Hn | intros c []].
  - rewrite <- Erows in *.
    assert (Hall : List.forallb
                     (fun r => Nat.eqb (List.length r) (List.length first)) rows = true).
    { apply List.forallb_forall. intros r Hin. rewrite (Hone r Hin).
      rewrite (Hone first); [reflexivity|]. rewrite Erows. left. reflexivity. }
    rewrite Hall. split.
    + rewrite List.length_map, (concat_singletons rows Hone). exact Hn.
    + intros c Hin. apply List.in_map_iff in Hin. destruct Hin as [x [Hx _]].
      exists x. symmetry. exact Hx.
Qed.

Lemma get_default_cfg_flat_pair :
  get_default_cfg (blank_urdf robot_mimic_pair) = Ok [Scalar 1.0%float; Scalar 3.0%float]
  /\ List.length [Scalar 1.0%float; Scalar 3.0%float]
     = List.length (Robot.joints (URDF.robot (blank_urdf robot_mimic_pair))).
Proof.
  assert (H : get_default_cfg (blank_urdf robot_mimic_pair)
              = Ok [Scalar 1.0%float; Scalar 3.0%float]) by (vm_compute; reflexivity).
  split; [exact H|].
  refine (proj1 (get_default_cfg_flat (blank_urdf robot_mimic_pair) _ _ H)).
  intros j Hin Hm. simpl in Hin. destruct Hin as [Hj|[Hj|[]]]; subst j.
  - split; reflexivity.
  - discriminate Hm.
Defined.

Lemma combine_seq_nth_error {A : Type} (xs : list A) (a i : nat) (x : A) :
  List.nth_error xs i = Some x ->
  List.nth_error (List.combine (List.seq a (List.length xs)) xs) i = Some (a + i, x).
Proof.
  revert a i. induction xs as [|y rest IH]; intros a i H; [destruct i; discriminate|].
  destruct i as [|i]; simpl in *.
  - inversion H. rewrite Nat.add_0_r. reflexivity.
  - rewrite (IH (S a) i H). f_equal. f_equal. lia.
Qed.

Lemma enumerate_nth_error {A : Type} (xs : list A) (i : nat) (x : A) :
  List.nth_error xs i = Some x -> List.nth_error (enumerate xs) i = Some (i, x).
Proof. intros H. exact (combine_seq_nth_error xs 0 i x H). Qed.

(** The pairs of [enumerate] before and after a position carry other
    indices. *)
Lemma enumerate_split {A : Type} (xs : list A) (i : nat) (x : A) :
  List.nth_error xs i = Some x ->
  exists pre post,
    enumerate xs = pre ++ (i, x) :: post
    /\ (forall y, In y (pre ++ post) -> In y (enumerate xs) /\ fst y <> i).
Proof.
  intros H. pose proof (enumerate_nth_error xs i x H) as He.
  destruct (List.nth_error_split _ _ He) as [pre [post [Hsplit Hlen]]].
  exists pre, post. split; [exact Hsplit|].
  intros [k y] Hin. split.
  - rewrite Hsplit. apply List.in_app_or in Hin. apply List.in_or_app.
    destruct Hin as [Hin|Hin]; [left; exact Hin | right; right; exact Hin].
  - simpl. intros Hk. subst k.
    apply List.in_app_or in Hin.
    assert (Hpos : forall p, List.nth_error (enumerate xs) p = Some (i, y) -> p = i).
    { intros p Hp. destruct (enumerate_nth xs 0 p i y Hp) as [Hi _]. simpl in Hi. lia. }
    destruct Hin as [Hin|Hin]; apply List.In_nth_error in Hin; destruct Hin as [p Hp].
    + assert (Hlt : p < List.length pre) by (apply List.nth_error_Some; congruence).
      assert (p = i).
      { apply Hpos. rewrite Hsplit, List.nth_error_app1 by exact Hlt. exact Hp. }
      lia.
    + assert (S (List.length pre + p) = i).
      { apply Hpos. rewrite Hsplit, List.nth_error_app2 by lia.
        replace (S (List.length pre + p) - List.length pre) with (S p) by lia.
        exact Hp. }
      lia.
Qed.

(** Steps of the second loop at other positions leave the list of an
    allocating joint alone. *)
Lemma mimic_steps_frame (js : list Joint.t) (b : cfg_builder) (names : list string)
  (xs : list (nat * Joint.t)) (hp hp' : list (list float)) (k : nat) (jk : Joint.t) :
  builder_inv js b ->
  List.nth_error js k = Some jk -> allocating jk = true ->
  (forall x, In x xs -> In x (enumerate js) /\ fst x <> k) ->
  foldM (default_mimic_step names (config b)) xs hp = Ok hp' ->
  List.nth_error hp' (allocs (List.firstn k js))
  = List.nth_error hp (allocs (List.firstn k js)).
Proof.
  intros Hinv Hk Hjk. pose proof Hinv as (_ & _ & _ & _ & _ & Hown).
  revert hp. induction xs as [|[i j] rest IH]; intros hp Hxs Hfold; simpl in Hfold.
  - inversion Hfold. reflexivity.
  - destruct (default_mimic_step names (config b) hp (i, j)) as [hp1|e] eqn:Hstep;
      simpl in Hfold; [|discriminate].
    rewrite (IH hp1); [| intros x Hx; apply Hxs; right; exact Hx | exact Hfold].
    destruct (Hxs (i, j) (or_introl eq_refl)) as [Hin Hne]. simpl in Hne.
    apply in_enumerate in Hin.
    unfold default_mimic_step in Hstep. simpl in Hstep.
    destruct (Joint.mimic j) as [m|] eqn:Hm; [|inversion Hstep; reflexivity].
    destruct (index_opt names (Mimic.joint m)) as [index|e]; simpl in Hstep; [|discriminate].
    destruct (config_get0 hp (config b) index) as [x|e]; simpl in Hstep; [|discriminate].
    destruct (py_mul x (Mimic.multiplier m)) as [xm|e]; simpl in Hstep; [|discriminate].
    destruct (py_add xm (Mimic.offset m)) as [v|e]; simpl in Hstep; [|discriminate].
    unfold config_set0 in Hstep.
    destruct (Hown i j Hin (mimic_allocating j m Hm)) as [Hci _]. rewrite Hci in Hstep.
    destruct (List.nth_error hp (allocs (List.firstn i js))) as [[|x0 r]|];
      try discriminate.
    inversion Hstep; subst hp1. apply nth_error_list_set_other.
    destruct (Nat.lt_total i k) as [Hlt|[Heq|Hlt]]; [|contradiction|].
    + pose proof (allocs_firstn_lt js i k j Hin (mimic_allocating j m Hm) Hlt). lia.
    + pose proof (allocs_firstn_lt js k i jk Hk Hjk Hlt). lia.
Qed.

(** X10. Whenever [get_default_cfg] returns, a mimic joint whose target
    name is found at the position of a joint that is no mimic and takes a
    known branch defaults to the first number of the target's row times
    its multiplier plus its offset. *)
Theorem default_config_rows_mimic (self : URDF.t) (rows : list (list float))
  (i : nat) (J : Joint.t) (m : Mimic.t) :
  default_config_rows self = Ok rows ->
  List.nth_error (Robot.joints (URDF.robot self)) i = Some J ->
  Joint.mimic J = Some m ->
  exists t it mult off,
    Mimic.joint m = Some t
    /\ Py.index (List.map Joint.name (Robot.joints (URDF.robot self))) t = Ok it
    /\ Mimic.multiplier m = Some mult
    /\ Mimic.offset m = Some off
    /\ (forall T x xs,
           List.nth_error (Robot.joints (URDF.robot self)) it = Some T ->
           Joint.mimic T = None -> allocating T = true ->
           List.nth_error rows it = Some (x :: xs) ->
           List.nth_error rows i = Some [(x * mult + off)%float]).
Proof.
  intros Hrows Hi Hm.
  destruct (default_config_rows_state self rows Hrows)
    as (b & hp & H1 & H2 & Hb & Hr & Heq).
  set (js := Robot.joints (URDF.robot self)) in *.
  set (names := List.map Joint.name js) in *.
  destruct (enumerate_split js i J Hi) as [pre [post [Hsplit Hothers]]].
  rewrite Hsplit, foldM_app in H2.
  destruct (foldM (default_mimic_step names (config b)) pre (heap b)) as [hp1|e] eqn:Hpre;
    simpl in H2; [|discriminate].
  destruct (default_mimic_step names (config b) hp1 (i, J)) as [hp2|e] eqn:Hstep;
    simpl in H2; [|discriminate].
  pose proof Hb as (_ & _ & _ & _ & _ & Hown).
  assert (HJa : allocating J = true) by exact (mimic_allocating J m Hm).
  destruct (Hown i J Hi HJa) as [Hci [rowJ [HrowJ HheapJ]]].
  assert (HrowJ0 : rowJ = [0.0%float]).
  { unfold initial_row in HrowJ. rewrite Hm in HrowJ. simpl in HrowJ.
    inversion HrowJ. reflexivity. }
  subst rowJ.
  assert (Hhp1J : List.nth_error hp1 (allocs (List.firstn i js)) = Some [0.0%float]).
  { rewrite (mimic_steps_frame js b names pre (heap b) hp1 i J Hb Hi HJa); [exact HheapJ| |exact Hpre].
    intros x Hx. apply Hothers. apply List.in_or_app. left. exact Hx. }
  assert (Hinv1 : rows_inv js b hp1).
  { apply (foldM_inv (default_mimic_step names (config b)) (rows_inv js b) pre (heap b) hp1);
      [| exact (rows_inv_init js b Hb) | exact Hpre].
    intros s0 x s1 Hx Hs Hf. apply (rows_inv_step js b names s0 s1 x Hb); try assumption.
    apply (Hothers x). apply List.in_or_app. left. exact Hx. }
  unfold default_mimic_step in Hstep. simpl in Hstep. rewrite Hm in Hstep.
  destruct (Mimic.joint m) as [t|] eqn:Ht; simpl in Hstep; [|discriminate].
  destruct (Py.index names t) as [it|e] eqn:Hit; simpl in Hstep; [|discriminate].
  destruct (config_get0 hp1 (config b) it) as [x0|e] eqn:Hget; simpl in Hstep; [|discriminate].
  destruct (Mimic.multiplier m) as [mult|] eqn:Hmu; simpl in Hstep; [|discriminate].
  destruct (Mimic.offset m) as [off|] eqn:Hoff; simpl in Hstep; [|discriminate].
  unfold config_set0 in Hstep. rewrite Hci, Hhp1J in Hstep.
  inversion Hstep; subst hp2; clear Hstep.
  exists t, it, mult, off.
  split; [reflexivity|]. split; [exact Hit|]. split; [reflexivity|]. split; [reflexivity|].
  intros T x xs HT HTm HTa HrowT.
  destruct (Hown it T HT HTa) as [HcT _].
  destruct Hinv1 as (Hlen1 & _ & Hkeep1).
  destruct (Hkeep1 it T HT HTa HTm) as [rowT [HrT HnT]].
  assert (HrowT' : List.nth_error rows it = Some rowT)
    by exact (default_config_rows_initial self rows it T rowT Hrows HT HTm HTa HrT).
  rewrite HrowT in HrowT'. inversion HrowT'; subst rowT.
  unfold config_get0 in Hget. rewrite HcT, HnT in Hget. inversion Hget; subst x0.
  assert (Hfinal : List.nth_error hp (allocs (List.firstn i js))
                   = Some [(x * mult + off)%float]).
  { assert (Hpost : forall y, In y post -> In y (enumerate js) /\ fst y <> i).
    { intros y Hy. apply Hothers. apply List.in_or_app. right. exact Hy. }
    rewrite (mimic_steps_frame js b names post _ hp i J Hb Hi HJa Hpost H2).
    apply nth_error_list_set_same. apply List.nth_error_Some. rewrite Hhp1J. discriminate. }
  rewrite Heq, List.nth_error_map, Hci. simpl.
  rewrite (nth_error_nth_default _ _ _ _ Hfinal). reflexivity.
Qed.

Lemma default_config_rows_mimic_pair :
  default_config_rows (blank_urdf robot_mimic_pair) = Ok [[1.0%float]; [3.0%float]]
  /\ exists t it mult off,
       Mimic.joint mimic_of_pair = Some t
       /\ Py.index (List.map Joint.name
                      (Robot.joints (URDF.robot (blank_urdf robot_mimic_pair)))) t = Ok it
       /\ Mimic.multiplier mimic_of_pair = Some mult
       /\ Mimic.offset mimic_of_pair = Some off
       /\ (forall T x xs,
              List.nth_error (Robot.joints (URDF.robot (blank_urdf robot_mimic_pair))) it
              = Some T ->
              Joint.mimic T = None -> allocating T = true ->
              List.nth_error [[1.0%float]; [3.0%float]] it = Some (x :: xs) ->
              List.nth_error [[1.0%float]; [3.0%float]] 1
              = Some [(x * mult + off)%float]).
Proof.
  assert (H : default_config_rows (blank_urdf robot_mimic_pair)
              = Ok [[1.0%float]; [3.0%float]]) by (vm_compute; reflexivity).
  split; [exact H|].
  exact (default_config_rows_mimic (blank_urdf robot_mimic_pair) _ 1 joint_j2
           mimic_of_pair H eq_refl eq_refl).
Defined.
(* ================================================================== *)
(** * Further properties of [update_cfg] *)
(* ================================================================== *)

(** One iteration of the loop touches the configuration and the two
    scenes only. *)
Lemma update_joint_keeps (self self' : URDF.t) (jq : Joint.t * cell) :
  update_joint self jq = Ok self' ->
  URDF._joint_map self' = URDF._joint_map self
  /\ URDF._link_map self' = URDF._link_map self
  /\ URDF._actuated_joints self' = URDF._actuated_joints self
  /\ URDF._actuated_joint_indices self' = URDF._actuated_joint_indices self
  /\ URDF._base_link self' = URDF._base_link self
  /\ URDF._errors self' = URDF._errors self
  /\ List.length (URDF._cfg self') = List.length (URDF._cfg self).
Proof.
  unfold update_joint. intros H.
  destruct (_forward_kinematics_joint self (fst jq) (snd jq)) as [[matrix joint_q]|e];
    simpl in H; [|discriminate].
  destruct (Py.index (joint_names self) (Joint.name (fst jq))) as [i|e];
    simpl in H; [|discriminate].
  unfold cfg_setitem in H.
  destruct (Nat.ltb i (List.length (URDF._cfg self))); simpl in H; [|discriminate].
  inversion H; subst self'; clear H. simpl.
  repeat (split; [reflexivity|]). apply list_set_length.
Qed.

Lemma updates_keep (xs : list (Joint.t * cell)) (self self' : URDF.t) :
  foldM update_joint xs self = Ok self' ->
  URDF._joint_map self' = URDF._joint_map self
  /\ URDF._link_map self' = URDF._link_map self
  /\ URDF._actuated_joints self' = URDF._actuated_joints self
  /\ URDF._actuated_joint_indices self' = URDF._actuated_joint_indices self
  /\ URDF._base_link self' = URDF._base_link self
  /\ URDF._errors self' = URDF._errors self
  /\ List.length (URDF._cfg self') = List.length (URDF._cfg self).
Proof.
  revert self. induction xs as [|jq rest IH]; intros self Hfold; simpl in Hfold.
  - inversion Hfold; subst. repeat (split; [reflexivity|]). reflexivity.
  - destruct (update_joint self jq) as [s1|e] eqn:Hstep; simpl in Hfold; [|discriminate].
    destruct (IH s1 Hfold) as (A1 & A2 & A3 & A4 & A5 & A6 & A7).
    destruct (update_joint_keeps _ _ _ Hstep) as (B1 & B2 & B3 & B4 & B5 & B6 & B7).
    repeat (split; [congruence|]). congruence.
Qed.

(** X11. Whenever [update_cfg] returns, the robot, the maps, the actuated
    joints, the base link and the length of the configuration are as
    before, and the entry of a joint name that neither an update built
    from the argument nor a mimic joint carries is as before. *)
Theorem update_cfg_frame (self self' : URDF.t) (c : configuration) :
  update_cfg self c = Ok self' ->
  URDF.robot self' = URDF.robot self
  /\ URDF._joint_map self' = URDF._joint_map self
  /\ URDF._link_map self' = URDF._link_map self
  /\ URDF._actuated_joints self' = URDF._actuated_joints self
  /\ URDF._actuated_joint_indices self' = URDF._actuated_joint_indices self
  /\ URDF._base_link self' = URDF._base_link self
  /\ List.length (URDF._cfg self') = List.length (URDF._cfg self)
  /\ exists joint_cfg,
       build_joint_cfg self c = Ok joint_cfg
       /\ forall n i,
            Py.index (joint_names self) n = Ok i ->
            (forall jq, In jq joint_cfg -> Joint.name (fst jq) <> n) ->
            (forall j, In j (Robot.joints (URDF.robot self)) ->
                       Joint.mimic j <> None -> Joint.name j <> n) ->
            List.nth_error (URDF._cfg self') i = List.nth_error (URDF._cfg self) i.
Proof.
  unfold update_cfg. intros H.
  destruct (build_joint_cfg self c) as [joint_cfg|e] eqn:Hb; simpl in H; [|discriminate].
  destruct (updates_keep _ _ _ H) as (A1 & A2 & A3 & A4 & A5 & A6 & A7).
  split; [exact (foldM_robot _ _ _ H)|].
  repeat (split; [assumption|]).
  exists joint_cfg. split; [reflexivity|].
  intros n i Hi Hcfg Hmimic.
  apply (updates_keep_entry (joint_cfg ++ mimic_updates self) self self' n i); [|exact Hi|exact H].
  intros jq Hin. apply List.in_app_or in Hin. destruct Hin as [Hin|Hin].
  - exact (Hcfg jq Hin).
  - unfold mimic_updates in Hin. apply List.in_map_iff in Hin.
    destruct Hin as [j [Heq Hf]]. subst jq. simpl.
    apply List.filter_In in Hf. destruct Hf as [Hj Hm].
    apply Hmimic; [exact Hj|]. intros Hc. rewrite Hc in Hm. discriminate.
Qed.

Lemma update_cfg_frame_abc :
  update_cfg (urdf_of robot_abc) (CfgDict [(KeyStr "ab", 0.5%float)])
  = Ok (updated (urdf_of robot_abc) (CfgDict [(KeyStr "ab", 0.5%float)]))
  /\ URDF.robot (updated (urdf_of robot_abc) (CfgDict [(KeyStr "ab", 0.5%float)]))
     = URDF.robot (urdf_of robot_abc)
  /\ List.nth_error
       (URDF._cfg (updated (urdf_of robot_abc) (CfgDict [(KeyStr "ab", 0.5%float)]))) 1
     = List.nth_error (URDF._cfg (urdf_of robot_abc)) 1.
Proof.
  assert (H : update_cfg (urdf_of robot_abc) (CfgDict [(KeyStr "ab", 0.5%float)])
              = Ok (updated (urdf_of robot_abc) (CfgDict [(KeyStr "ab", 0.5%float)])))
    by (vm_compute; reflexivity).
  split; [exact H|].
  destruct (update_cfg_frame _ _ _ H) as (R & _ & _ & _ & _ & _ & _ & jc & Hjc & Hframe).
  split; [exact R|].
  apply (Hframe "bc" 1).
  - vm_compute. reflexivity.
  - vm_compute in Hjc. inversion Hjc; subst jc.
    intros jq [Hin|[]]. subst jq. simpl. discriminate.
  - intros j Hj Hm. vm_compute in Hj.
    destruct Hj as [Hj|[Hj|[]]]; subst j; exfalso; apply Hm; reflexivity.
Defined.

Lemma dict_fold_keyerror (self : URDF.t) (d : list (dict_key * float)) (n : string)
  (acc : list (Joint.t * cell)) :
  In (KeyStr n) (List.map fst d) ->
  dict_get (URDF._joint_map self) n = None ->
  exists e,
    foldM (fun joint_cfg kv =>
             match fst kv with
             | KeyStr joint =>
                 j <- dict_getitem (URDF._joint_map self) joint ;;
                 Ok (joint_cfg ++ [(j, Scalar (snd kv))])
             | KeyOther => Ok joint_cfg
             end) d acc = Err e
    /\ exn_cls e = KeyError.
Proof.
  revert acc. induction d as [|[k v] rest IH]; intros acc Hin Hnone; [contradiction|].
  simpl. destruct k as [s|].
  - unfold dict_getitem at 1. destruct (dict_get (URDF._joint_map self) s) as [j|] eqn:Hs.
    + simpl. apply IH; [|exact Hnone].
      destruct Hin as [Heq|Hin]; [|exact Hin]. simpl in Heq. inversion Heq; subst s. congruence.
    + simpl. eexists. split; reflexivity.
  - simpl. apply IH; [|exact Hnone].
    destruct Hin as [Heq|Hin]; [discriminate | exact Hin].
Qed.

(** X12. A dict that has a name under which the joint map holds nothing
    makes [update_cfg] raise a [KeyError]; no entry of the configuration
    is written before, since the updates are built first. *)
Theorem update_cfg_unknown_name (self : URDF.t) (d : list (dict_key * float)) (n : string) :
  In (KeyStr n) (List.map fst d) ->
  dict_get (URDF._joint_map self) n = None ->
  exists e,
    build_joint_cfg self (CfgDict d) = Err e
    /\ update_cfg self (CfgDict d) = Err e
    /\ exn_cls e = KeyError.
Proof.
  intros Hin Hnone.
  destruct (dict_fold_keyerror self d n [] Hin Hnone) as [e [He Hcls]].
  exists e. unfold update_cfg. simpl build_joint_cfg. rewrite He.
  split; [reflexivity|]. split; [reflexivity | exact Hcls].
Qed.

Lemma update_cfg_unknown_name_abc :
  exists e,
    build_joint_cfg (urdf_of robot_abc)
      (CfgDict [(KeyStr "ab", 0.5%float); (KeyStr "cd", 1.0%float)]) = Err e
    /\ update_cfg (urdf_of robot_abc)
         (CfgDict [(KeyStr "ab", 0.5%float); (KeyStr "cd", 1.0%float)]) = Err e
    /\ exn_cls e = KeyError.
Proof.
  apply (update_cfg_unknown_name (urdf_of robot_abc) _ "cd").
  - simpl. right. left. reflexivity.
  - vm_compute. reflexivity.
Defined.

Lemma nth_error_combine {A B : Type} (xs : list A) (ys : list B) (k : nat) (x : A) (y : B) :
  List.nth_error xs k = Some x -> List.nth_error ys k = Some y ->
  List.nth_error (List.combine xs ys) k = Some (x, y).
Proof.
  revert ys k. induction xs as [|a rest IH]; intros ys k Hx Hy; [destruct k; discriminate|].
  destruct ys as [|b ys]; [destruct k; discriminate|].
  destruct k as [|k]; simpl in *.
  - inversion Hx. inversion Hy. reflexivity.
  - apply IH; assumption.
Qed.

Lemma NoDup_app_cons_out {A : Type} (l1 l2 : list A) (x y : A) :
  NoDup (l1 ++ x :: l2) -> In y (l1 ++ l2) -> y <> x.
Proof.
  intros Hnd Hin Heq. subst y.
  exact (List.NoDup_remove_2 _ _ _ Hnd Hin).
Qed.

(** An update of a joint that is no mimic, in a list of updates with
    distinct names, is what the entry of its name holds at the end. *)
Lemma updates_set_entry (self self' : URDF.t) (joint_cfg : list (Joint.t * cell))
  (k : nat) (J : Joint.t) (q : cell) :
  NoDup (joint_names self) ->
  NoDup (List.map (fun jq => Joint.name (fst jq)) joint_cfg) ->
  In J (Robot.joints (URDF.robot self)) ->
  Joint.mimic J = None ->
  List.nth_error joint_cfg k = Some (J, q) ->
  foldM update_joint (joint_cfg ++ mimic_updates self) self = Ok self' ->
  exists i,
    Py.index (joint_names self) (Joint.name J) = Ok i
    /\ List.nth_error (URDF._cfg self') i = Some q.
Proof.
  intros Hnd Hndc HJ Hm Hk Hfold.
  destruct (List.nth_error_split _ _ Hk) as [l1 [l2 [Hsplit _]]].
  rewrite Hsplit, <- List.app_assoc in Hfold. simpl in Hfold.
  rewrite foldM_app in Hfold.
  destruct (foldM update_joint l1 self) as [s1|e] eqn:H1; simpl in Hfold; [|discriminate].
  destruct (update_joint s1 (J, q)) as [s2|e] eqn:H2; simpl in Hfold; [|discriminate].
  pose proof (foldM_robot _ _ _ H1) as Hrob1.
  assert (Hnames1 : joint_names s1 = joint_names self)
    by (unfold joint_names; rewrite Hrob1; reflexivity).
  destruct (update_joint_effect _ _ _ _ H2)
    as [Hrob2 [i [v [Hi [Hlt [Hcfg [Hv _]]]]]]].
  rewrite (Hv Hm) in Hcfg. rewrite Hnames1 in Hi.
  assert (Hnames2 : joint_names s2 = joint_names self)
    by (unfold joint_names; rewrite Hrob2, Hrob1; reflexivity).
  exists i. split; [exact Hi|].
  destruct (updates_keep_entry (l2 ++ mimic_updates self) s2 self' (Joint.name J) i)
    as [_ Hkeep].
  - intros jq Hin. apply List.in_app_or in Hin. destruct Hin as [Hin|Hin].
    + rewrite Hsplit, List.map_app in Hndc. simpl in Hndc.
      apply (NoDup_app_cons_out _ _ _ _ Hndc).
      apply List.in_or_app. right.
      exact (List.in_map (fun jq => Joint.name (fst jq)) l2 jq Hin).
    + unfold mimic_updates in Hin. apply List.in_map_iff in Hin.
      destruct Hin as [j [Heq Hf]]. subst jq. simpl.
      apply List.filter_In in Hf. destruct Hf as [Hj Hmj].
      intros Hname.
      assert (j = J) by exact (NoDup_map_eq Joint.name _ j J Hnd Hj HJ Hname).
      subst j. rewrite Hm in Hmj. discriminate.
  - rewrite Hnames2. exact Hi.
  - exact Hfold.
  - rewrite Hkeep, Hcfg. apply nth_error_list_set_same. exact Hlt.
Qed.

Lemma index_of_position (names : list string) (n : string) (i k : nat) :
  NoDup names -> Py.index names n = Ok i -> List.nth_error names k = Some n -> i = k.
Proof.
  intros Hnd Hi Hk. apply index_nth in Hi.
  apply (proj1 (List.NoDup_nth_error names) Hnd i k).
  - apply List.nth_error_Some. rewrite Hi. discriminate.
  - congruence.
Qed.

Lemma NoDup_filter_names (p : Joint.t -> bool) (js : list Joint.t) :
  NoDup (List.map Joint.name js) -> NoDup (List.map Joint.name (List.filter p js)).
Proof.
  induction js as [|j rest IH]; simpl; intros H; [constructor|].
  inversion H as [|? ? Hout Hrest]; subst.
  destruct (p j); simpl; [|exact (IH Hrest)].
  constructor; [|exact (IH Hrest)].
  intros Hin. apply Hout. apply List.in_map_iff in Hin.
  destruct Hin as [x [Hx Hf]]. apply List.filter_In in Hf.
  apply List.in_map_iff. exists x. split; [exact Hx | exact (proj1 Hf)].
Qed.

Lemma combine_names {B : Type} (js : list Joint.t) (ys : list B) :
  List.length js = List.length ys ->
  List.map (fun jq : Joint.t * B => Joint.name (fst jq)) (List.combine js ys)
  = List.map Joint.name js.
Proof.
  revert ys. induction js as [|j rest IH]; intros ys H; [reflexivity|].
  destruct ys as [|y ys]; [discriminate|]. simpl. f_equal. apply IH.
  simpl in H. lia.
Qed.

(** X13. With distinct joint names, whenever [update_cfg] returns on a
    sequence of numbers: when the sequence is as long as the joints, the
    entry of every joint that is no mimic is the number at the joint's
    position; otherwise, when the actuated joints are the joints that are
    neither mimics nor fixed, the entry of the [k]-th actuated joint is
    the [k]-th number. *)
Theorem update_cfg_sequence (self self' : URDF.t) (xs : list float) :
  nodupb (joint_names self) = true ->
  update_cfg self (CfgSeq xs) = Ok self' ->
  (List.length xs = List.length (Robot.joints (URDF.robot self)) ->
   forall k J x,
     List.nth_error (Robot.joints (URDF.robot self)) k = Some J ->
     Joint.mimic J = None ->
     List.nth_error xs k = Some x ->
     List.nth_error (URDF._cfg self') k = Some (Scalar x))
  /\ (List.length xs <> List.length (Robot.joints (URDF.robot self)) ->
      URDF._actuated_joints self
      = List.filter is_actuated (Robot.joints (URDF.robot self)) ->
      forall k J x,
        List.nth_error (URDF._actuated_joints self) k = Some J ->
        List.nth_error xs k = Some x ->
        exists i,
          List.nth_error (Robot.joints (URDF.robot self)) i = Some J
          /\ List.nth_error (URDF._cfg self') i = Some (Scalar x)).
Proof.
  intros Hnd H. apply nodupb_NoDup in Hnd.
  unfold update_cfg in H. simpl build_joint_cfg in H.
  split.
  - intros Hlen k J x Hk Hm Hx.
    rewrite Hlen, Nat.eqb_refl in H. simpl in H.
    destruct (updates_set_entry self self'
                (List.combine (Robot.joints (URDF.robot self)) (List.map Scalar xs))
                k J (Scalar x) Hnd) as [i [Hi Hent]].
    + rewrite combine_names by (rewrite List.length_map; lia). exact Hnd.
    + exact (List.nth_error_In _ _ Hk).
    + exact Hm.
    + apply nth_error_combine; [exact Hk|].
      rewrite List.nth_error_map, Hx. reflexivity.
    + exact H.
    + assert (i = k).
      { apply (index_of_position (joint_names self) (Joint.name J)); [exact Hnd|exact Hi|].
        unfold joint_names. rewrite List.nth_error_map, Hk. reflexivity. }
      subst i. exact Hent.
  - intros Hlen Hact k J x Hk Hx.
    destruct (Nat.eqb (List.length xs) (List.length (Robot.joints (URDF.robot self))))
      eqn:E1; [apply Nat.eqb_eq in E1; contradiction|].
    destruct (Nat.eqb (List.length xs) (num_actuated_joints self)) eqn:E2;
      simpl in H; [|discriminate].
    apply Nat.eqb_eq in E2. unfold num_actuated_joints in E2.
    assert (HJ : In J (List.filter is_actuated (Robot.joints (URDF.robot self)))).
    { rewrite <- Hact. exact (List.nth_error_In _ _ Hk). }
    apply List.filter_In in HJ. destruct HJ as [HJin HJact].
    assert (Hm : Joint.mimic J = None).
    { unfold is_actuated in HJact. apply andb_prop in HJact.
      destruct HJact as [Hn _]. destruct (Joint.mimic J); [discriminate | reflexivity]. }
    destruct (updates_set_entry self self'
                (List.combine (URDF._actuated_joints self) (List.map Scalar xs))
                k J (Scalar x) Hnd) as [i [Hi Hent]].
    + rewrite combine_names by (rewrite List.length_map; lia).
      rewrite Hact. apply NoDup_filter_names. exact Hnd.
    + exact HJin.
    + exact Hm.
    + apply nth_error_combine; [exact Hk|].
      rewrite List.nth_error_map, Hx. reflexivity.
    + exact H.
    + exists i. split; [|exact Hent].
      apply index_nth in Hi. unfold joint_names in Hi.
      rewrite List.nth_error_map in Hi.
      destruct (List.nth_error (Robot.joints (URDF.robot self)) i) as [J'|] eqn:HJ';
        [|discriminate].
      simpl in Hi. inversion Hi as [Hname].
      f_equal. apply (NoDup_map_eq Joint.name _ J' J Hnd); [|exact HJin|exact Hname].
      exact (List.nth_error_In _ _ HJ').
Qed.

Lemma update_cfg_sequence_pair :
  nodupb (joint_names (urdf_of robot_mimic_pair)) = true
  /\ update_cfg (urdf_of robot_mimic_pair) (CfgSeq [0.25%float])
     = Ok (updated (urdf_of robot_mimic_pair) (CfgSeq [0.25%float]))
  /\ exists i,
       List.nth_error (Robot.joints (URDF.robot (urdf_of robot_mimic_pair))) i
       = List.nth_error (URDF._actuated_joints (urdf_of robot_mimic_pair)) 0
       /\ List.nth_error
            (URDF._cfg (updated (urdf_of robot_mimic_pair) (CfgSeq [0.25%float]))) i
          = Some (Scalar 0.25%float).
Proof.
  assert (Hnd : nodupb (joint_names (urdf_of robot_mimic_pair)) = true)
    by (vm_compute; reflexivity).
  assert (H : update_cfg (urdf_of robot_mimic_pair) (CfgSeq [0.25%float])
              = Ok (updated (urdf_of robot_mimic_pair) (CfgSeq [0.25%float])))
    by (vm_compute; reflexivity).
  split; [exact Hnd|]. split; [exact H|].
  destruct (update_cfg_sequence _ _ _ Hnd H) as [_ Hact].
  assert (Hlen : List.length [0.25%float]
                 <> List.length (Robot.joints (URDF.robot (urdf_of robot_mimic_pair))))
    by (vm_compute; discriminate).
  assert (Hfilter : URDF._actuated_joints (urdf_of robot_mimic_pair)
                    = List.filter is_actuated
                        (Robot.joints (URDF.robot (urdf_of robot_mimic_pair))))
    by (vm_compute; reflexivity).
  destruct (Hact Hlen Hfilter 0
              (List.nth 0 (URDF._actuated_joints (urdf_of robot_mimic_pair)) joint_j2)
              0.25%float) as [i [Hi Hent]].
  - vm_compute. reflexivity.
  - reflexivity.
  - exists i. split; [|exact Hent]. rewrite Hi. vm_compute. reflexivity.
Defined.

(* ================================================================== *)
(** * Further properties of the validator *)
(* ================================================================== *)

Lemma raises_only_seq (P : exn -> Prop) (a b : validator) :
  raises_only P a -> raises_only P b -> raises_only P (v_seq a b).
Proof.
  intros Ha Hb errors e. unfold v_seq.
  destruct (raised (a errors)) as [e'|] eqn:E.
  - intros H. apply (Ha errors). congruence.
  - apply Hb.
Qed.

Lemma raises_only_for {A : Type} (P : exn -> Prop) (f : A -> validator) (xs : list A) :
  (forall x, raises_only P (f x)) -> raises_only P (v_for f xs).
Proof.
  intros Hf. induction xs as [|x rest IH]; simpl.
  - intros errors e H. discriminate.
  - apply raises_only_seq; [apply Hf | exact IH].
Qed.

Lemma raises_only_never (P : exn -> Prop) (v : validator) :
  (forall errors, raised (v errors) = None) -> raises_only P v.
Proof. intros H errors e He. rewrite H in He. discriminate. Qed.

Lemma raises_only_geometry (g : option Geometry.t) :
  raises_only (fun e => exn_cls e = AttributeError) (_validate_geometry g).
Proof.
  destruct g as [g|].
  - apply raises_only_never. intros errors. apply validate_geometry_returns.
  - intros errors e H. unfold _validate_geometry, v_seq in H. simpl in H.
    inversion H. reflexivity.
Qed.

Lemma raises_only_robot (r : Robot.t) :
  raises_only (fun e => exn_cls e = AttributeError) (_validate_robot (Some r)).
Proof.
  unfold _validate_robot.
  apply raises_only_seq;
    [apply raises_only_never; intros; apply validate_required_attribute_returns|].
  apply raises_only_seq; apply raises_only_for.
  - intros l. unfold _validate_link.
    apply raises_only_seq;
      [apply raises_only_never; intros; apply validate_required_attribute_returns|].
    apply raises_only_seq; apply raises_only_for; intros x; apply raises_only_geometry.
  - intros j. unfold _validate_joint.
    repeat (apply raises_only_seq;
            [apply raises_only_never; intros; apply validate_required_attribute_returns|]).
    destruct (option_str_eqb (Joint.type j) "revolute"
              || option_str_eqb (Joint.type j) "prismatic");
      [|apply raises_only_never; reflexivity].
    apply raises_only_seq;
      [apply raises_only_never; intros; apply validate_required_attribute_returns|].
    unfold _validate_limit. destruct (Joint.limit j).
    + apply raises_only_seq;
        apply raises_only_never; intros; apply validate_required_attribute_returns.
    + intros errors e H. inversion H. reflexivity.
Qed.

Lemma v_seq_returned (a b : validator) (errors : list exn) :
  raised (v_seq a b errors) = None ->
  raised (a errors) = None /\ raised (b (log (a errors))) = None.
Proof.
  unfold v_seq. destruct (raised (a errors)) eqn:E; intros H; [congruence|].
  split; [reflexivity | exact H].
Qed.

Lemma v_for_returned {A : Type} (f : A -> validator) (xs : list A) (errors : list exn) :
  raised (v_for f xs errors) = None ->
  forall x, In x xs -> exists errors', raised (f x errors') = None.
Proof.
  revert errors. induction xs as [|y rest IH]; intros errors H x Hin; [contradiction|].
  simpl in H. apply v_seq_returned in H. destruct H as [Hy Hrest].
  destruct Hin as [Heq|Hin].
  - subst y. exists errors. exact Hy.
  - exact (IH _ Hrest x Hin).
Qed.

Lemma validate_geometry_returned (g : option Geometry.t) (errors : list exn) :
  raised (_validate_geometry g errors) = None -> is_some g = true.
Proof.
  destruct g; [reflexivity|]. unfold _validate_geometry, v_seq. simpl. discriminate.
Qed.

Lemma validate_robot_returned (r : Robot.t) (errors : list exn) :
  raised (_validate_robot (Some r) errors) = None -> robot_complete r = true.
Proof.
  unfold _validate_robot. intros H.
  apply v_seq_returned in H. destruct H as [_ H].
  apply v_seq_returned in H. destruct H as [Hl Hj].
  unfold robot_complete. apply andb_true_intro. split.
  - apply List.forallb_forall. intros l Hin.
    destruct (v_for_returned _ _ _ Hl l Hin) as [e1 H1].
    unfold _validate_link in H1.
    apply v_seq_returned in H1. destruct H1 as [_ H1].
    apply v_seq_returned in H1. destruct H1 as [Hv Hc].
    apply andb_true_intro. split; apply List.forallb_forall.
    + intros v Hvin. destruct (v_for_returned _ _ _ Hv v Hvin) as [e2 H2].
      exact (validate_geometry_returned _ _ H2).
    + intros c Hcin. destruct (v_for_returned _ _ _ Hc c Hcin) as [e2 H2].
      exact (validate_geometry_returned _ _ H2).
  - apply List.forallb_forall. intros j Hin.
    destruct (v_for_returned _ _ _ Hj j Hin) as [e1 H1].
    unfold _validate_joint in H1.
    do 4 (apply v_seq_returned in H1; destruct H1 as [_ H1]).
    destruct (option_str_eqb (Joint.type j) "revolute"
              || option_str_eqb (Joint.type j) "prismatic"); [|reflexivity].
    simpl. apply v_seq_returned in H1. destruct H1 as [_ H1].
    unfold _validate_limit in H1. destruct (Joint.limit j); [reflexivity|].
    simpl in H1. discriminate.
Qed.

(** X14. [validate] gives a verdict exactly when every visual and
    collision has a geometry and every revolute or prismatic joint a
    limit; otherwise it raises, and what it raises is an
    [AttributeError].  In both cases the log it leaves on the object holds
    entries of the classes [URDFIncompleteError],
    [URDFAttributeValueError] and [URDFError] only, and nothing else of
    the object changes. *)
Theorem validate_verdict_or_attribute_error (self : URDF.t)
  (validation_fn : option (list exn -> bool)) :
  (robot_complete (URDF.robot self) = true
   <-> exists verdict, snd (validate self validation_fn) = Ok verdict)
  /\ (forall e, snd (validate self validation_fn) = Err e -> exn_cls e = AttributeError)
  /\ List.Forall validation_class (URDF._errors (fst (validate self validation_fn)))
  /\ fst (validate self validation_fn)
     = URDF.set_errors self (URDF._errors (fst (validate self validation_fn))).
Proof.
  unfold validate.
  destruct (raised (_validate_robot (Some (URDF.robot self)) [])) as [e|] eqn:E; simpl.
  - split; [|split; [|split]].
    + split.
      * intros Hc. apply andb_prop in Hc. destruct Hc as [Hg Hl].
        rewrite (validate_robot_returns _ [] Hg Hl) in E. discriminate.
      * intros [verdict H]. discriminate.
    + intros e' H. inversion H; subst e'.
      exact (raises_only_robot (URDF.robot self) [] e E).
    + apply (logs_only_robot (Some (URDF.robot self)) []). constructor.
    + reflexivity.
  - split; [|split; [|split]].
    + split.
      * intros _. eexists. reflexivity.
      * intros _. exact (validate_robot_returned _ _ E).
    + intros e' H. discriminate.
    + apply (logs_only_robot (Some (URDF.robot self)) []). constructor.
    + reflexivity.
Qed.

Lemma extends_log_skip : extends_log v_skip.
Proof. intros errors. simpl. lia. Qed.

Lemma extends_log_append (cls : exn_class) (msg : string) : extends_log (v_append cls msg).
Proof. intros errors. simpl. rewrite List.length_app. lia. Qed.

Lemma extends_log_raise (cls : exn_class) (msg : string) : extends_log (v_raise cls msg).
Proof. intros errors. simpl. lia. Qed.

Lemma extends_log_seq (a b : validator) :
  extends_log a -> extends_log b -> extends_log (v_seq a b).
Proof.
  intros Ha Hb errors. unfold v_seq.
  destruct (raised (a errors)); [apply Ha|].
  specialize (Ha errors). specialize (Hb (log (a errors))). lia.
Qed.

Lemma extends_log_for {A : Type} (f : A -> validator) (xs : list A) :
  (forall x, extends_log (f x)) -> extends_log (v_for f xs).
Proof.
  intros Hf. induction xs as [|x rest IH]; simpl;
    [apply extends_log_skip | apply extends_log_seq; [apply Hf | exact IH]].
Qed.

Lemma extends_log_required_attribute (attribute : pyobj) (msg : string)
  (allowed : option (list string)) :
  extends_log (_validate_required_attribute attribute msg allowed).
Proof.
  unfold _validate_required_attribute. apply extends_log_seq.
  - destruct attribute as [|s|]; try apply extends_log_skip.
    + apply extends_log_append.
    + destruct (Nat.eqb (String.length s) 0);
        [apply extends_log_append | apply extends_log_skip].
  - destruct allowed as [al|]; destruct attribute as [|s|]; try apply extends_log_skip.
    + destruct (List.existsb (String.eqb s) al);
        [apply extends_log_skip | apply extends_log_append].
    + apply extends_log_append.
Qed.

Lemma extends_log_geometry (g : option Geometry.t) : extends_log (_validate_geometry g).
Proof.
  unfold _validate_geometry. apply extends_log_seq.
  - destruct g; [apply extends_log_skip | apply extends_log_append].
  - destruct g as [g|]; [|apply extends_log_raise].
    destruct (Nat.ltb (count_present g) 1); [apply extends_log_append|].
    destruct (Nat.ltb 1 (count_present g));
      [apply extends_log_append | apply extends_log_skip].
Qed.

Lemma extends_log_limit (l : option Limit.t) : extends_log (_validate_limit l).
Proof.
  unfold _validate_limit. destruct l; [|apply extends_log_raise].
  apply extends_log_seq; apply extends_log_required_attribute.
Qed.

Lemma extends_log_link (l : Link.t) : extends_log (_validate_link l).
Proof.
  unfold _validate_link.
  apply extends_log_seq; [apply extends_log_required_attribute|].
  apply extends_log_seq; apply extends_log_for; intros x; apply extends_log_geometry.
Qed.

Lemma extends_log_joint (j : Joint.t) : extends_log (_validate_joint j).
Proof.
  unfold _validate_joint.
  repeat (apply extends_log_seq; [apply extends_log_required_attribute|]).
  destruct (option_str_eqb (Joint.type j) "revolute"
            || option_str_eqb (Joint.type j) "prismatic"); [|apply extends_log_skip].
  apply extends_log_seq; [apply extends_log_required_attribute | apply extends_log_limit].
Qed.

(** A sequence is silent on the empty log exactly when both parts are. *)
Lemma quiet_seq (a b : validator) :
  extends_log b -> quiet (v_seq a b []) = quiet (a []) && quiet (b []).
Proof.
  intros Hb. unfold v_seq, quiet.
  destruct (raised (a [])) as [e|] eqn:Ea.
  - rewrite Ea. destruct (log (a [])); reflexivity.
  - destruct (log (a [])) as [|x l] eqn:El; [reflexivity|].
    specialize (Hb (x :: l)). simpl in Hb.
    destruct (log (b (x :: l))); [simpl in Hb; lia | reflexivity].
Qed.

Lemma quiet_for {A : Type} (f : A -> validator) (xs : list A) :
  (forall x, extends_log (f x)) ->
  quiet (v_for f xs []) = List.forallb (fun x => quiet (f x [])) xs.
Proof.
  intros Hf. induction xs as [|x rest IH]; [reflexivity|].
  simpl. rewrite quiet_seq by (apply extends_log_for; exact Hf).
  rewrite IH. reflexivity.
Qed.

Lemma forallb_eq {A : Type} (f g : A -> bool) (xs : list A) :
  (forall x, f x = g x) -> List.forallb f xs = List.forallb g xs.
Proof.
  intros H. induction xs as [|x rest IH]; [reflexivity|].
  simpl. rewrite H, IH. reflexivity.
Qed.

Lemma length_zero_eqb (s : string) : Nat.eqb (String.length s) 0 = String.eqb s "".
Proof. destruct s; reflexivity. Qed.

Lemma quiet_name (s msg : string) :
  quiet (_validate_required_attribute (PyString s) msg None []) = nonempty s.
Proof.
  unfold _validate_required_attribute, v_seq, nonempty.
  rewrite length_zero_eqb. destruct (String.eqb s ""); reflexivity.
Qed.

Lemma quiet_reference (s : option string) (msg : string) :
  quiet (_validate_required_attribute (obj_of_str s) msg None []) = present s.
Proof.
  destruct s as [t|]; [apply quiet_name | reflexivity].
Qed.

Lemma quiet_object {A : Type} (x : option A) (msg : string) :
  quiet (_validate_required_attribute (obj_of x) msg None []) = is_some x.
Proof. destruct x; reflexivity. Qed.

Lemma quiet_type (t : option string) (msg : string) :
  quiet (_validate_required_attribute (obj_of_str t) msg (Some allowed_types) [])
  = match t with
    | Some s => List.existsb (String.eqb s) allowed_types
    | None => false
    end.
Proof.
  destruct t as [s|]; [|reflexivity].
  unfold _validate_required_attribute, v_seq, obj_of_str.
  rewrite length_zero_eqb.
  destruct (String.eqb s "") eqn:E.
  - apply String.eqb_eq in E. subst s. reflexivity.
  - destruct (List.existsb (String.eqb s) allowed_types); reflexivity.
Qed.

Lemma quiet_geometry (g : option Geometry.t) :
  quiet (_validate_geometry g []) = geometry_ok g.
Proof.
  destruct g as [g|]; [|reflexivity].
  unfold _validate_geometry, v_seq, geometry_ok. simpl.
  destruct (count_present g) as [|[|n]]; reflexivity.
Qed.

Lemma quiet_limit (l : option Limit.t) :
  quiet (_validate_limit l []) = limit_ok l.
Proof.
  destruct l as [l|]; [|reflexivity].
  unfold _validate_limit, limit_ok.
  rewrite quiet_seq by apply extends_log_required_attribute.
  rewrite !quiet_object. reflexivity.
Qed.

Lemma quiet_link (l : Link.t) : quiet (_validate_link l []) = link_ok l.
Proof.
  unfold _validate_link, link_ok.
  rewrite quiet_seq
    by (apply extends_log_seq; apply extends_log_for; intros x; apply extends_log_geometry).
  rewrite quiet_name.
  rewrite quiet_seq by (apply extends_log_for; intros x; apply extends_log_geometry).
  rewrite !quiet_for by (intros x; apply extends_log_geometry).
  f_equal. f_equal; apply forallb_eq; intros x; apply quiet_geometry.
Qed.

Lemma quiet_joint (j : Joint.t) : quiet (_validate_joint j []) = joint_ok j.
Proof.
  unfold _validate_joint, joint_ok.
  assert (Htail : extends_log
                    (if option_str_eqb (Joint.type j) "revolute"
                        || option_str_eqb (Joint.type j) "prismatic"
                     then v_seq
                            (_validate_required_attribute (obj_of (Joint.limit j))
                               "The <limit> of a (prismatic, revolute) joint is missing." None)
                            (_validate_limit (Joint.limit j))
                     else v_skip)).
  { destruct (option_str_eqb (Joint.type j) "revolute"
              || option_str_eqb (Joint.type j) "prismatic"); [|apply extends_log_skip].
    apply extends_log_seq; [apply extends_log_required_attribute | apply extends_log_limit]. }
  rewrite quiet_seq
    by (repeat (apply extends_log_seq; [apply extends_log_required_attribute|]); exact Htail).
  rewrite quiet_name.
  rewrite quiet_seq
    by (repeat (apply extends_log_seq; [apply extends_log_required_attribute|]); exact Htail).
  rewrite quiet_type.
  rewrite quiet_seq
    by (repeat (apply extends_log_seq; [apply extends_log_required_attribute|]); exact Htail).
  rewrite quiet_reference.
  rewrite quiet_seq by exact Htail.
  rewrite quiet_reference.
  f_equal. f_equal. f_equal. f_equal.
  destruct (option_str_eqb (Joint.type j) "revolute"
            || option_str_eqb (Joint.type j) "prismatic"); [|reflexivity].
  rewrite quiet_seq by apply extends_log_limit.
  rewrite quiet_object, quiet_limit.
  destruct (Joint.limit j); reflexivity.
Qed.

Lemma quiet_robot (r : Robot.t) : quiet (_validate_robot (Some r) []) = well_formed r.
Proof.
  unfold _validate_robot, well_formed.
  rewrite quiet_seq
    by (apply extends_log_seq; apply extends_log_for;
        [apply extends_log_link | apply extends_log_joint]).
  rewrite quiet_name.
  rewrite quiet_seq by (apply extends_log_for; apply extends_log_joint).
  rewrite quiet_for by apply extends_log_link.
  rewrite quiet_for by apply extends_log_joint.
  f_equal. f_equal; apply forallb_eq; intros x; [apply quiet_link | apply quiet_joint].
Qed.

(** X15. [validate] with the default (strict) validation function returns
    [True] exactly for the robots that are named, whose links and joints
    are named, whose visuals and collisions have exactly one shape each,
    whose joints have an allowed type, a parent and a child, and whose
    revolute and prismatic joints have a limit with effort and velocity;
    the log it leaves is then empty. *)
Theorem validate_true_iff_well_formed (self : URDF.t) :
  (snd (validate self None) = Ok true <-> well_formed (URDF.robot self) = true)
  /\ (snd (validate self None) = Ok true ->
      URDF._errors (fst (validate self None)) = []).
Proof.
  rewrite <- quiet_robot. unfold validate, quiet, validation_handler_strict.
  remember (_validate_robot (Some (URDF.robot self)) []) as r eqn:Hr. clear Hr.
  destruct r as [l [e|]]; simpl.
  - split; [split; intros H|intros H]; try discriminate H.
    destruct l; discriminate H.
  - destruct l; simpl.
    + split; [split; reflexivity | reflexivity].
    + split; [split; intros H|intros H]; discriminate H.
Qed.

(* ================================================================== *)
(** * Further properties of the codec *)
(* ================================================================== *)

Lemma append_cons_assoc (a : string) (c : ascii) (b : string) :
  (a ^^ String c "") ^^ b = a ^^ String c b.
Proof. induction a as [|x a IH]; simpl; [reflexivity | rewrite IH; reflexivity]. Qed.

Lemma split_ws_go_word (w cur rest : string) :
  no_space w = true ->
  Py.split_ws_go cur (w ^^ rest) = Py.split_ws_go (cur ^^ w) rest.
Proof.
  revert cur. induction w as [|c w IH]; intros cur H.
  - rewrite append_empty_r. reflexivity.
  - simpl in H. apply andb_prop in H. destruct H as [Hc Hw].
    change (String c w ^^ rest) with (String c (w ^^ rest)).
    simpl Py.split_ws_go. destruct (Py.is_space c); [discriminate|].
    rewrite (IH _ Hw), append_cons_assoc. reflexivity.
Qed.

Lemma eqb_empty_false (w : string) : negb (String.eqb w "") = true -> String.eqb w "" = false.
Proof. destruct (String.eqb w ""); [discriminate | reflexivity]. Qed.

(** [" ".join(ws).split()] is [ws] for words [ws]. *)
Lemma split_ws_join (ws : list string) :
  List.forallb is_word ws = true -> Py.split_ws (Py.join " " ws) = ws.
Proof.
  unfold Py.split_ws, Py.join.
  induction ws as [|w rest IH]; intros H; [reflexivity|].
  simpl in H. apply andb_prop in H. destruct H as [Hw Hrest].
  unfold is_word in Hw. apply andb_prop in Hw. destruct Hw as [Hne Hns].
  apply eqb_empty_false in Hne.
  destruct rest as [|w2 rest].
  - simpl String.concat. rewrite <- (append_empty_r w) at 1.
    rewrite (split_ws_go_word w "" "" Hns). simpl. rewrite Hne. reflexivity.
  - change (String.concat " " (w :: w2 :: rest))
      with (w ^^ String " " (String.concat " " (w2 :: rest))).
    rewrite (split_ws_go_word w "" _ Hns).
    change ("" ^^ w) with w.
    change (Py.split_ws_go w (String " " (String.concat " " (w2 :: rest))))
      with (if String.eqb w "" then Py.split_ws_go "" (String.concat " " (w2 :: rest))
            else w :: Py.split_ws_go "" (String.concat " " (w2 :: rest))).
    rewrite Hne, (IH Hrest). reflexivity.
Qed.

Lemma mapM_prints_back (float_of_str : string -> option float)
  (str_of_float : float -> string) (xs : list float) :
  List.Forall (prints_back float_of_str str_of_float) xs ->
  mapM (fun t => py_float float_of_str (PyStr t)) (List.map str_of_float xs) = Ok xs.
Proof.
  induction 1 as [|x rest [_ Hx] _ IH]; [reflexivity|].
  cbn [mapM List.map]. unfold py_float at 1. rewrite Hx. cbn [bind].
  rewrite IH. reflexivity.
Qed.

Lemma words_prints_back (float_of_str : string -> option float)
  (str_of_float : float -> string) (xs : list float) :
  List.Forall (prints_back float_of_str str_of_float) xs ->
  List.forallb is_word (List.map str_of_float xs) = true.
Proof.
  induction 1 as [|x rest [Hw _] _ IH]; [reflexivity|].
  simpl. rewrite Hw, IH. reflexivity.
Qed.

(** Reading the text written for a list of numbers gives the list. *)
Lemma floats_of_text_of_floats (float_of_str : string -> option float)
  (str_of_float : float -> string) (xs : list float) :
  List.Forall (prints_back float_of_str str_of_float) xs ->
  floats_of_text float_of_str (text_of_floats str_of_float xs) = Ok xs.
Proof.
  intros H. unfold floats_of_text, text_of_floats.
  rewrite split_ws_join by (apply words_prints_back with (float_of_str := float_of_str); exact H).
  apply mapM_prints_back. exact H.
Qed.

(** X16. When every number of an axis or of a colour prints as one word
    that reads back as the number, the element [_write_axis] or
    [_write_color] writes is parsed back to the same numbers. *)
Theorem write_parse_axis_color (float_of_str : string -> option float)
  (str_of_float : float -> string) (xs : list float) :
  List.Forall (prints_back float_of_str str_of_float) xs ->
  (exists e, _write_axis str_of_float (Some xs) = [e]
             /\ _parse_axis float_of_str (Some e) = Ok xs)
  /\ (exists e, _write_color str_of_float (Some (Color.mk xs)) = [e]
                /\ _parse_color float_of_str (Some e) = Ok (Some (Color.mk xs))).
Proof.
  intros H. split; eexists; (split; [reflexivity|]).
  - unfold _parse_axis, Xml.get_default, Xml.get. simpl.
    apply floats_of_text_of_floats. exact H.
  - unfold _parse_color, Xml.get_default, Xml.get. simpl.
    rewrite (floats_of_text_of_floats _ _ _ H). reflexivity.
Qed.

Lemma write_parse_axis_color_unit :
  List.Forall (prints_back float_of_str_example str_of_float_example)
    [1.0%float; 0.0%float; 0.0%float]
  /\ (exists e, _write_axis str_of_float_example (Some [1.0%float; 0.0%float; 0.0%float])
                = [e]
                /\ _parse_axis float_of_str_example (Some e)
                   = Ok [1.0%float; 0.0%float; 0.0%float])
  /\ (exists e, _write_color str_of_float_example
                  (Some (Color.mk [1.0%float; 0.0%float; 0.0%float])) = [e]
                /\ _parse_color float_of_str_example (Some e)
                   = Ok (Some (Color.mk [1.0%float; 0.0%float; 0.0%float]))).
Proof.
  assert (H : List.Forall (prints_back float_of_str_example str_of_float_example)
                [1.0%float; 0.0%float; 0.0%float]).
  { repeat constructor. }
  split; [exact H|].
  exact (write_parse_axis_color float_of_str_example str_of_float_example _ H).
Defined.

(** What is read from a mesh element carrying a file name and the scale
    attribute [_write_scale] sets. *)
Lemma parse_written_mesh (float_of_str : string -> option float)
  (str_of_float : float -> string) (filename : string) (scale : option mesh_scale) :
  List.Forall (prints_back float_of_str str_of_float) (scale_numbers scale) ->
  _parse_mesh float_of_str
    (Element "mesh" (("filename", filename) :: _write_scale str_of_float scale) [])
  = Ok (Mesh.mk (Some filename) (scale_read_back scale)).
Proof.
  intros H. unfold _parse_mesh, _parse_scale, Xml.get. simpl Xml.attrib.
  destruct scale as [[f|fs]|]; simpl in H.
  - unfold _write_scale.
    match goal with
    | |- context [Xml.lookup "scale" (?a :: [("scale", ?T)])] =>
        change (Xml.lookup "scale" (a :: [("scale", T)])) with (Some T)
    end.
    cbv beta iota.
    change (List.repeat (str_of_float f) 3) with (List.map str_of_float [f; f; f]).
    assert (H3 : List.Forall (prints_back float_of_str str_of_float) [f; f; f]).
    { inversion H as [|? ? Hf _]; subst.
      constructor; [exact Hf|]. constructor; [exact Hf|].
      constructor; [exact Hf | constructor]. }
    rewrite split_ws_join by (apply words_prints_back with (float_of_str := float_of_str);
                              exact H3).
    pose proof (mapM_prints_back _ _ _ H3) as Hm. cbn [List.map] in Hm |- *.
    rewrite Hm. reflexivity.
  - unfold _write_scale.
    match goal with
    | |- context [Xml.lookup "scale" (?a :: [("scale", ?T)])] =>
        change (Xml.lookup "scale" (a :: [("scale", T)])) with (Some T)
    end.
    cbv beta iota.
    unfold text_of_floats.
    rewrite split_ws_join by (apply words_prints_back with (float_of_str := float_of_str);
                              exact H).
    destruct fs as [|a [|b rest]].
    + reflexivity.
    + inversion H as [|? ? [_ Ha] _]; subst. cbn [List.map]. unfold py_float.
      rewrite Ha. reflexivity.
    + pose proof (mapM_prints_back _ _ _ H) as Hm. cbn [List.map] in Hm |- *.
      rewrite Hm. reflexivity.
  - reflexivity.
Qed.

(** X17. [_write_mesh] hands the file name to the filename handler, also
    when it is [None].  A mesh with a file name is written as one element
    carrying the name the handler has produced.  For a mesh without a
    file name the outcome is the handler's: the exception it raises on
    [None]; a [TypeError] of the element constructor when it returns no
    string; one element carrying the string it returns otherwise.  When
    the numbers of the scale print as words that read back, a written
    element is parsed to the mesh with the written file name and with the
    scale as [scale_read_back] gives it: a single number comes back as
    three equal numbers, an array of one number as a single number, an
    empty array as no scale, a longer array as it is. *)
Theorem write_parse_mesh (float_of_str : string -> option float)
  (str_of_float : float -> string) (handler : string -> string)
  (handler_none : result (option string)) (mesh : Mesh.t) :
  List.Forall (prints_back float_of_str str_of_float) (scale_numbers (Mesh.scale mesh)) ->
  match Mesh.filename mesh, handler_none with
  | Some fname, _ =>
      exists e,
        _write_mesh str_of_float handler handler_none mesh = Ok [e]
        /\ _parse_mesh float_of_str e
           = Ok (Mesh.mk (Some (handler fname)) (scale_read_back (Mesh.scale mesh)))
  | None, Ok (Some returned) =>
      exists e,
        _write_mesh str_of_float handler handler_none mesh = Ok [e]
        /\ _parse_mesh float_of_str e
           = Ok (Mesh.mk (Some returned) (scale_read_back (Mesh.scale mesh)))
  | None, Ok None =>
      exists e, _write_mesh str_of_float handler handler_none mesh = Err e
                /\ exn_cls e = TypeError
  | None, Err e => _write_mesh str_of_float handler handler_none mesh = Err e
  end.
Proof.
  intros H. destruct mesh as [[fname|] scale]; cbn [Mesh.filename Mesh.scale] in *.
  - eexists. split; [reflexivity|]. exact (parse_written_mesh _ _ _ _ H).
  - destruct handler_none as [[returned|]|e].
    + eexists. split; [reflexivity|]. exact (parse_written_mesh _ _ _ _ H).
    + eexists. split; reflexivity.
    + reflexivity.
Qed.

Lemma write_parse_mesh_uniform :
  List.Forall (prints_back float_of_str_example str_of_float_example)
    (scale_numbers (Some (ScaleFloat 2.0%float)))
  /\ (exists e,
         _write_mesh str_of_float_example (fun s => s) (Ok None)
           (Mesh.mk (Some "a.stl") (Some (ScaleFloat 2.0%float))) = Ok [e]
         /\ _parse_mesh float_of_str_example e
            = Ok (Mesh.mk (Some "a.stl")
                    (Some (ScaleArray [2.0%float; 2.0%float; 2.0%float]))))
  /\ (exists e,
         _write_mesh str_of_float_example (fun s => s) (Ok None)
           (Mesh.mk None (Some (ScaleFloat 2.0%float))) = Err e
         /\ exn_cls e = TypeError).
Proof.
  assert (H : List.Forall (prints_back float_of_str_example str_of_float_example)
                (scale_numbers (Some (ScaleFloat 2.0%float)))).
  { repeat constructor. }
  split; [exact H|]. split.
  - exact (write_parse_mesh float_of_str_example str_of_float_example (fun s => s)
             (Ok None) (Mesh.mk (Some "a.stl") (Some (ScaleFloat 2.0%float))) H).
  - exact (write_parse_mesh float_of_str_example str_of_float_example (fun s => s)
             (Ok None) (Mesh.mk None (Some (ScaleFloat 2.0%float))) H).
Defined.

(** X18. When the bounds a limit has read back from their printed form,
    the element [_write_limit] writes is parsed back to the same limit:
    absent bounds stay absent. *)
Theorem write_parse_limit (float_of_str : string -> option float)
  (str_of_float : float -> string) (l : Limit.t) :
  opt_prints_back float_of_str str_of_float (Limit.effort l) ->
  opt_prints_back float_of_str str_of_float (Limit.velocity l) ->
  opt_prints_back float_of_str str_of_float (Limit.lower l) ->
  opt_prints_back float_of_str str_of_float (Limit.upper l) ->
  exists e,
    _write_limit str_of_float (Some l) = [e]
    /\ _parse_limit float_of_str (Some e) = Ok (Some l).
Proof.
  destruct l as [[ef|] [ve|] [lo|] [up|]]; simpl; intros He Hv Hl Hu;
    (eexists; split; [reflexivity|]);
    unfold _parse_limit, Xml.get; simpl;
    rewrite ?He, ?Hv, ?Hl, ?Hu; reflexivity.
Qed.

Lemma write_parse_limit_bounds :
  exists e,
    _write_limit str_of_float_example
      (Some (Limit.mk None None (Some 0.0%float) (Some 2.0%float))) = [e]
    /\ _parse_limit float_of_str_example (Some e)
       = Ok (Some (Limit.mk None None (Some 0.0%float) (Some 2.0%float))).
Proof.
  apply (write_parse_limit float_of_str_example str_of_float_example
           (Limit.mk None None (Some 0.0%float) (Some 2.0%float)));
    simpl; try exact I; reflexivity.
Defined.

Lemma Ok_inj {A : Type} (a b : A) : @Ok A a = Ok b -> a = b.
Proof. intros H. injection H as H. exact H. Qed.

(** What [_write_joint] writes: one element with the name and the type,
    then the parent and the child. *)
Lemma write_joint_shape (str_of_float : float -> string)
  (tra_t tra_e : matrix -> list float) (joint : Joint.t) (els : list element) :
  _write_joint str_of_float tra_t tra_e joint = Ok els ->
  exists ty p c,
    Joint.type joint = Some ty /\ Joint.parent joint = Some p
    /\ Joint.child joint = Some c
    /\ els = [Element "joint" [("name", Joint.name joint); ("type", ty)]
                (Element "parent" [("link", p)] []
                 :: Element "child" [("link", c)] []
                 :: _write_origin str_of_float tra_t tra_e (Joint.origin joint)
                 ++ _write_axis str_of_float (Joint.axis joint)
                 ++ _write_limit str_of_float (Joint.limit joint)
                 ++ _write_dynamics str_of_float (Joint.dynamics joint))].
Proof.
  unfold _write_joint, Xml.attr_value. intros H.
  destruct (Joint.type joint) as [ty|]; simpl in H; [|discriminate].
  destruct (Joint.parent joint) as [p|]; simpl in H; [|discriminate].
  destruct (Joint.child joint) as [c|]; simpl in H; [|discriminate].
  exists ty, p, c. repeat (split; [reflexivity|]).
  apply Ok_inj in H. symmetry. exact H.
Qed.

(** The joint parsed from a written joint. *)
Lemma parse_written_joint_fields (float_of_str : string -> option float)
  (str_of_float : float -> string) (tra_t tra_e : matrix -> list float)
  (joint joint' : Joint.t) (e : element) :
  _write_joint str_of_float tra_t tra_e joint = Ok [e] ->
  _parse_joint float_of_str e = Ok joint' ->
  Joint.name joint' = Joint.name joint
  /\ Joint.type joint' = Joint.type joint
  /\ Joint.parent joint' = Joint.parent joint
  /\ Joint.child joint' = Joint.child joint
  /\ Joint.dynamics joint'
     = option_map (dynamics_as_text str_of_float) (Joint.dynamics joint)
  /\ (Joint.limit joint = None -> Joint.limit joint' = None)
  /\ (Joint.origin joint = None -> Joint.origin joint' = None)
  /\ (Joint.axis joint = None
      -> Joint.axis joint' = Some [1.0%float; 0%float; 0%float])
  /\ Joint.axis joint' <> None.
Proof.
  intros Hw Hp.
  destruct (write_joint_shape _ _ _ _ _ Hw) as (ty & p & c & Hty & Hpa & Hch & Hels).
  apply (f_equal (fun l => List.hd e l)) in Hels. simpl in Hels. subst e.
  destruct joint as [n ty0 p0 c0 origin axis dynamics limit mimic cal sc].
  simpl in Hty, Hpa, Hch. subst ty0 p0 c0. simpl.
  unfold _parse_joint in Hp.
  destruct origin as [o|], axis as [a|], limit as [l|], dynamics as [[da fr]|];
    cbn [Joint.origin Joint.axis Joint.limit Joint.dynamics Joint.name
         _write_origin _write_axis _write_limit _write_dynamics List.app
         Xml.find Xml.children Xml.tag List.find Xml.get Xml.attrib Xml.lookup
         Xml.attrib_getitem Xml.get_of_optional String.eqb Ascii.eqb Bool.eqb
         bind] in Hp;
    repeat match type of Hp with
           | bind ?m _ = _ => destruct m eqn:?; cbn [bind] in Hp; [|discriminate]
           end;
    apply Ok_inj in Hp; subst joint'; cbn [Joint.name Joint.type Joint.parent
      Joint.child Joint.dynamics Joint.limit Joint.origin Joint.axis];
    repeat match goal with
           | |- _ /\ _ => split
           end;
    try reflexivity; try discriminate;
    try (intros _);
    repeat match goal with
           | H : _parse_limit _ None = Ok _ |- _ => apply Ok_inj in H; subst
           | H : _parse_origin _ None = Ok _ |- _ => apply Ok_inj in H; subst
           | H : _parse_axis _ None = Ok _ |- _ => apply Ok_inj in H; subst
           end;
    try reflexivity;
    try (destruct da, fr; reflexivity).
Qed.



Lemma mapM_cons_inv {A B : Type} (f : A -> result B) (x : A) (xs : list A) (ys : list B) :
  mapM f (x :: xs) = Ok ys ->
  exists y ys', f x = Ok y /\ mapM f xs = Ok ys' /\ ys = y :: ys'.
Proof.
  simpl. destruct (f x) as [y|e]; simpl; [|discriminate].
  destruct (mapM f xs) as [ys'|e]; simpl; [|discriminate].
  intros H. apply Ok_inj in H. exists y, ys'. repeat split. symmetry. exact H.
Qed.

Lemma mapM_all {A B : Type} (f : A -> result B) (P : B -> Prop) (xs : list A)
  (ys : list B) :
  (forall x y, f x = Ok y -> P y) -> mapM f xs = Ok ys -> List.Forall P ys.
Proof.
  intros Hf. revert ys. induction xs as [|x rest IH]; intros ys H.
  - apply Ok_inj in H. subst ys. constructor.
  - destruct (mapM_cons_inv _ _ _ _ H) as (y & ys' & Hy & Hrest & Heq). subst ys.
    constructor; [exact (Hf x y Hy) | exact (IH ys' Hrest)].
Qed.

(** Writing each item as one element and reading the elements back in
    order gives items with the same key. *)
Lemma mapM_written_read {A K : Type} (write : A -> result (list element))
  (parse : element -> result A) (key_read key_written : A -> K) (xs ys : list A)
  (elss : list (list element)) :
  (forall x els, write x = Ok els -> exists e, els = [e]) ->
  (forall x e y, write x = Ok [e] -> parse e = Ok y -> key_read y = key_written x) ->
  mapM write xs = Ok elss ->
  mapM parse (List.concat elss) = Ok ys ->
  List.map key_read ys = List.map key_written xs.
Proof.
  intros Hone Hkey. revert ys elss. induction xs as [|x rest IH]; intros ys elss Hw Hp.
  - apply Ok_inj in Hw. subst elss. apply Ok_inj in Hp. subst ys. reflexivity.
  - destruct (mapM_cons_inv _ _ _ _ Hw) as (els & elss' & Hx & Hrest & Heq). subst elss.
    destruct (Hone x els Hx) as [e He]. subst els.
    simpl List.concat in Hp.
    destruct (mapM_cons_inv _ _ _ _ Hp) as (y & ys' & Hy & Hys & Heq). subst ys.
    simpl. rewrite (Hkey x e y Hx Hy), (IH ys' elss' Hrest Hys). reflexivity.
Qed.

Lemma filter_none {A : Type} (p : A -> bool) (xs : list A) :
  (forall x, In x xs -> p x = false) -> List.filter p xs = [].
Proof.
  induction xs as [|x rest IH]; simpl; intros H; [reflexivity|].
  rewrite (H x (or_introl eq_refl)). apply IH. intros y Hy. apply H. right. exact Hy.
Qed.

Lemma in_concat_all {A : Type} (P : A -> Prop) (xss : list (list A)) (x : A) :
  List.Forall (fun xs => forall y, In y xs -> P y) xss -> In x (List.concat xss) -> P x.
Proof.
  intros H Hin. apply List.in_concat in Hin. destruct Hin as [xs [Hxs Hx]].
  rewrite List.Forall_forall in H. exact (H xs Hxs x Hx).
Qed.

Lemma write_link_shape (str_of_float : float -> string)
  (tra_t tra_e : matrix -> list float) (handler : string -> string)
  (handler_none : result (option string))
  (link : Link.t) (els : list element) :
  _write_link str_of_float tra_t tra_e handler handler_none link = Ok els ->
  exists cs, els = [Element "link" [("name", Link.name link)] cs].
Proof.
  unfold _write_link. intros H.
  repeat match type of H with
         | bind ?m _ = _ => destruct m; cbn [bind] in H; [|discriminate]
         end.
  apply Ok_inj in H. eexists. symmetry. exact H.
Qed.

Lemma parse_link_name (float_of_str : string -> option float) (n : string)
  (attrs : list (string * string)) (cs : list element) (link : Link.t) :
  _parse_link float_of_str (Element "link" (("name", n) :: attrs) cs) = Ok link ->
  Link.name link = n.
Proof.
  unfold _parse_link.
  change (Xml.attrib_getitem (Element "link" (("name", n) :: attrs) cs) "name")
    with (@Ok string n).
  cbn [bind]. intros H.
  repeat match type of H with
         | bind ?m _ = _ => destruct m; cbn [bind] in H; [|discriminate]
         end.
  apply Ok_inj in H. subst link. reflexivity.
Qed.

(** The children [_write_robot] gives the robot element: the link
    elements, then the joint elements. *)
Lemma write_robot_children (str_of_float : float -> string)
  (tra_t tra_e : matrix -> list float) (handler : string -> string)
  (handler_none : result (option string))
  (robot : Robot.t) (e : element) :
  _write_robot str_of_float tra_t tra_e handler handler_none robot = Ok e ->
  exists links joints,
    mapM (_write_link str_of_float tra_t tra_e handler handler_none) (Robot.links robot) = Ok links
    /\ mapM (_write_joint str_of_float tra_t tra_e) (Robot.joints robot) = Ok joints
    /\ e = Element "robot" [("name", Robot.name robot)]
             (List.concat links ++ List.concat joints)
    /\ Xml.findall e "link" = List.concat links
    /\ Xml.findall e "joint" = List.concat joints.
Proof.
  unfold _write_robot. intros H.
  destruct (mapM (_write_link str_of_float tra_t tra_e handler handler_none) (Robot.links robot))
    as [links|err] eqn:Hl; cbn [bind] in H; [|discriminate].
  destruct (mapM (_write_joint str_of_float tra_t tra_e) (Robot.joints robot))
    as [joints|err] eqn:Hj; cbn [bind] in H; [|discriminate].
  apply Ok_inj in H. subst e. exists links, joints.
  split; [reflexivity|]. split; [reflexivity|]. split; [reflexivity|].
  assert (Hlt : List.Forall (fun els => forall c, In c els -> Xml.tag c = "link") links).
  { apply (mapM_all (_write_link str_of_float tra_t tra_e handler handler_none)
             (fun els => forall c, In c els -> Xml.tag c = "link")
             (Robot.links robot) links); [|exact Hl].
    intros x y Hy. destruct (write_link_shape _ _ _ _ _ _ _ Hy) as [cs Hcs].
    subst y. intros c [Hc|[]]. subst c. reflexivity. }
  assert (Hjt : List.Forall (fun els => forall c, In c els -> Xml.tag c = "joint") joints).
  { apply (mapM_all (_write_joint str_of_float tra_t tra_e)
             (fun els => forall c, In c els -> Xml.tag c = "joint")
             (Robot.joints robot) joints); [|exact Hj].
    intros x y Hy.
    destruct (write_joint_shape _ _ _ _ _ Hy) as (ty & p & c0 & _ & _ & _ & Hcs).
    subst y. intros c [Hc|[]]. subst c. reflexivity. }
  unfold Xml.findall. cbn [Xml.children]. rewrite !List.filter_app. split.
  - rewrite (filter_id _ (List.concat links)), (filter_none _ (List.concat joints)).
    + apply List.app_nil_r.
    + intros c Hc. rewrite (in_concat_all _ _ _ Hjt Hc). reflexivity.
    + intros c Hc. rewrite (in_concat_all _ _ _ Hlt Hc). reflexivity.
  - rewrite (filter_none _ (List.concat links)), (filter_id _ (List.concat joints)).
    + reflexivity.
    + intros c Hc. rewrite (in_concat_all _ _ _ Hjt Hc). reflexivity.
    + intros c Hc. rewrite (in_concat_all _ _ _ Hlt Hc). reflexivity.
Qed.

(** X20. Whenever a robot is written by [_write_robot] and the element is
    parsed by [_parse_robot], the robot read has the same name, the same
    link names in the same order, and joints with the same names, types,
    parents and children in the same order; the dynamics of each joint
    come back with every field that is present as the text [str] prints
    for it (a float is read back as a string); the transmission and
    gazebo lists of the robot read are empty. *)
Theorem write_parse_robot (float_of_str : string -> option float)
  (str_of_float : float -> string) (tra_t tra_e : matrix -> list float)
  (handler : string -> string)
  (handler_none : result (option string)) (robot robot' : Robot.t) (e : element) :
  _write_robot str_of_float tra_t tra_e handler handler_none robot = Ok e ->
  _parse_robot float_of_str e = Ok robot' ->
  Robot.name robot' = Robot.name robot
  /\ List.map Link.name (Robot.links robot') = List.map Link.name (Robot.links robot)
  /\ List.map (fun j => (Joint.name j, Joint.type j, Joint.parent j, Joint.child j,
                         Joint.dynamics j)) (Robot.joints robot')
     = List.map (fun j => (Joint.name j, Joint.type j, Joint.parent j, Joint.child j,
                           option_map (dynamics_as_text str_of_float) (Joint.dynamics j)))
         (Robot.joints robot)
  /\ Robot.transmission robot' = []
  /\ Robot.gazebo robot' = [].
Proof.
  intros Hw Hp.
  destruct (write_robot_children _ _ _ _ _ _ _ Hw)
    as (links & joints & Hl & Hj & He & Hfl & Hfj).
  unfold _parse_robot in Hp. rewrite Hfl, Hfj in Hp. rewrite He in Hp.
  change (Xml.attrib_getitem
            (Element "robot" [("name", Robot.name robot)]
               (List.concat links ++ List.concat joints)) "name")
    with (@Ok string (Robot.name robot)) in Hp.
  cbn [bind] in Hp.
  destruct (mapM (_parse_link float_of_str) (List.concat links)) as [links'|err] eqn:Hpl;
    cbn [bind] in Hp; [|discriminate].
  destruct (mapM (_parse_joint float_of_str) (List.concat joints)) as [joints'|err] eqn:Hpj;
    cbn [bind] in Hp; [|discriminate].
  apply Ok_inj in Hp. subst robot'. cbn [Robot.name Robot.links Robot.joints
                                         Robot.transmission Robot.gazebo].
  split; [reflexivity|]. split; [|split; [|split; reflexivity]].
  - apply (mapM_written_read (_write_link str_of_float tra_t tra_e handler handler_none)
             (_parse_link float_of_str) Link.name Link.name _ _ links);
      [| |exact Hl|exact Hpl].
    + intros x els Hx. destruct (write_link_shape _ _ _ _ _ _ _ Hx) as [cs Hcs].
      eexists. exact Hcs.
    + intros x c y Hx Hy. destruct (write_link_shape _ _ _ _ _ _ _ Hx) as [cs Hcs].
      apply (f_equal (fun l => List.hd c l)) in Hcs. simpl in Hcs. subst c.
      exact (parse_link_name _ _ _ _ _ Hy).
  - apply (mapM_written_read (_write_joint str_of_float tra_t tra_e)
             (_parse_joint float_of_str)
             (fun j => (Joint.name j, Joint.type j, Joint.parent j, Joint.child j,
                        Joint.dynamics j))
             (fun j => (Joint.name j, Joint.type j, Joint.parent j, Joint.child j,
                        option_map (dynamics_as_text str_of_float) (Joint.dynamics j)))
             _ _ joints); [| |exact Hj|exact Hpj].
    + intros x els Hx.
      destruct (write_joint_shape _ _ _ _ _ Hx) as (ty & p & c0 & _ & _ & _ & Hcs).
      eexists. exact Hcs.
    + intros x c y Hx Hy.
      destruct (parse_written_joint_fields _ _ _ _ _ _ _ Hx Hy)
        as (A1 & A2 & A3 & A4 & A5 & _).
      rewrite A1, A2, A3, A4, A5. reflexivity.
Qed.

Lemma write_parse_robot_damped :
  exists robot',
    _write_robot str_of_float_example (fun _ => []) (fun _ => []) (fun s => s) (Ok None)
      (Robot.mk "r" [Link_default "A"; Link_default "B"]
         [Joint.mk "ab" (Some "fixed") (Some "A") (Some "B") None None
            (Some (Dynamics.mk (Some (PyFloat 2.0%float)) None)) None None None None]
         [] [])
    = Ok (Element "robot" [("name", "r")]
            [xml_link "A"; xml_link "B";
             Element "joint" [("name", "ab"); ("type", "fixed")]
               [Element "parent" [("link", "A")] [];
                Element "child" [("link", "B")] [];
                Element "dynamics" [("damping", "2.0")] []]])
    /\ _parse_robot float_of_str_example
         (Element "robot" [("name", "r")]
            [xml_link "A"; xml_link "B";
             Element "joint" [("name", "ab"); ("type", "fixed")]
               [Element "parent" [("link", "A")] [];
                Element "child" [("link", "B")] [];
                Element "dynamics" [("damping", "2.0")] []]])
       = Ok robot'
    /\ Robot.name robot' = "r"
    /\ List.map Link.name (Robot.links robot') = ["A"; "B"]
    /\ List.map (fun j => (Joint.name j, Joint.type j, Joint.parent j, Joint.child j,
                           Joint.dynamics j)) (Robot.joints robot')
       = [("ab", Some "fixed", Some "A", Some "B",
           Some (Dynamics.mk (Some (PyStr "2.0")) None))].
Proof.
  assert (Hw : _write_robot str_of_float_example (fun _ => []) (fun _ => []) (fun s => s)
                 (Ok None)
                 (Robot.mk "r" [Link_default "A"; Link_default "B"]
                    [Joint.mk "ab" (Some "fixed") (Some "A") (Some "B") None None
                       (Some (Dynamics.mk (Some (PyFloat 2.0%float)) None))
                       None None None None]
                    [] [])
               = Ok (Element "robot" [("name", "r")]
                       [xml_link "A"; xml_link "B";
                        Element "joint" [("name", "ab"); ("type", "fixed")]
                          [Element "parent" [("link", "A")] [];
                           Element "child" [("link", "B")] [];
                           Element "dynamics" [("damping", "2.0")] []]]))
    by (vm_compute; reflexivity).
  assert (Hp : _parse_robot float_of_str_example
                 (Element "robot" [("name", "r")]
                    [xml_link "A"; xml_link "B";
                     Element "joint" [("name", "ab"); ("type", "fixed")]
                       [Element "parent" [("link", "A")] [];
                        Element "child" [("link", "B")] [];
                        Element "dynamics" [("damping", "2.0")] []]])
               = Ok (Robot.mk "r" [Link_default "A"; Link_default "B"]
                       [Joint.mk "ab" (Some "fixed") (Some "A") (Some "B") None
                          (Some [1.0%float; 0%float; 0%float])
                          (Some (Dynamics.mk (Some (PyStr "2.0")) None))
                          None None None None]
                       [] []))
    by (vm_compute; reflexivity).
  eexists. split; [exact Hw|]. split; [exact Hp|].
  destruct (write_parse_robot _ _ _ _ _ _ _ _ _ Hw Hp) as (A1 & A2 & A3 & _).
  split; [exact A1|]. split; [exact A2 | exact A3].
Defined.

(* ================================================================== *)
(** * Parsed documents *)
(* ================================================================== *)

Lemma parse_geometry_one_shape (float_of_str : string -> option float)
  (e : option element) (g : Geometry.t) :
  _parse_geometry float_of_str e = Ok g -> geometry_ok (Some g) = true.
Proof.
  unfold _parse_geometry. intros H.
  destruct (Xml.first_child e) as [first|err]; cbn [bind] in H; [|discriminate].
  destruct (String.eqb (Xml.tag first) "box").
  { destruct (_parse_box first); cbn [bind] in H; [|discriminate].
    apply Ok_inj in H. subst g. reflexivity. }
  destruct (String.eqb (Xml.tag first) "cylinder").
  { destruct (_parse_cylinder float_of_str first); cbn [bind] in H; [|discriminate].
    apply Ok_inj in H. subst g. reflexivity. }
  destruct (String.eqb (Xml.tag first) "sphere").
  { destruct (_parse_sphere float_of_str first); cbn [bind] in H; [|discriminate].
    apply Ok_inj in H. subst g. reflexivity. }
  destruct (String.eqb (Xml.tag first) "mesh"); [|discriminate].
  destruct (_parse_mesh float_of_str first); cbn [bind] in H; [|discriminate].
  apply Ok_inj in H. subst g. reflexivity.
Qed.

Lemma parse_visual_geometry (float_of_str : string -> option float)
  (e : element) (v : Visual.t) :
  _parse_visual float_of_str e = Ok v -> geometry_ok (Visual.geometry v) = true.
Proof.
  unfold _parse_visual. intros H.
  destruct (_parse_geometry float_of_str (Xml.find e "geometry")) as [g|err] eqn:Hg;
    cbn [bind] in H; [|discriminate].
  destruct (_parse_origin float_of_str (Xml.find e "origin")); cbn [bind] in H;
    [|discriminate].
  destruct (_parse_material float_of_str (Xml.find e "material")); cbn [bind] in H;
    [|discriminate].
  apply Ok_inj in H. subst v. exact (parse_geometry_one_shape _ _ _ Hg).
Qed.

Lemma parse_collision_geometry (float_of_str : string -> option float)
  (e : element) (c : Collision.t) :
  _parse_collision float_of_str e = Ok c -> geometry_ok (Collision.geometry c) = true.
Proof.
  unfold _parse_collision. intros H.
  destruct (_parse_geometry float_of_str (Xml.find e "geometry")) as [g|err] eqn:Hg;
    cbn [bind] in H; [|discriminate].
  destruct (_parse_origin float_of_str (Xml.find e "origin")); cbn [bind] in H;
    [|discriminate].
  apply Ok_inj in H. subst c. exact (parse_geometry_one_shape _ _ _ Hg).
Qed.

Lemma parse_link_geometries (float_of_str : string -> option float)
  (e : element) (l : Link.t) :
  _parse_link float_of_str e = Ok l ->
  List.forallb (fun v => geometry_ok (Visual.geometry v)) (Link.visuals l) = true
  /\ List.forallb (fun c => geometry_ok (Collision.geometry c)) (Link.collisions l) = true.
Proof.
  unfold _parse_link. intros H.
  destruct (Xml.attrib_getitem e "name"); cbn [bind] in H; [|discriminate].
  destruct (_parse_inertial float_of_str (Xml.find e "inertial")); cbn [bind] in H;
    [|discriminate].
  destruct (mapM (_parse_visual float_of_str) (Xml.findall e "visual"))
    as [vs|err] eqn:Hv; cbn [bind] in H; [|discriminate].
  destruct (mapM (_parse_collision float_of_str) (Xml.findall e "collision"))
    as [cs|err] eqn:Hc; cbn [bind] in H; [|discriminate].
  apply Ok_inj in H. subst l. cbn [Link.visuals Link.collisions].
  split; apply List.forallb_forall; intros x Hx.
  - pose proof (mapM_all _ (fun v => geometry_ok (Visual.geometry v) = true) _ _
                  (parse_visual_geometry float_of_str) Hv) as Hall.
    rewrite List.Forall_forall in Hall. exact (Hall x Hx).
  - pose proof (mapM_all _ (fun c => geometry_ok (Collision.geometry c) = true) _ _
                  (parse_collision_geometry float_of_str) Hc) as Hall.
    rewrite List.Forall_forall in Hall. exact (Hall x Hx).
Qed.

Lemma parse_joint_axis (float_of_str : string -> option float)
  (e : element) (j : Joint.t) :
  _parse_joint float_of_str e = Ok j -> is_some (Joint.axis j) = true.
Proof.
  unfold _parse_joint. intros H.
  repeat match type of H with
         | bind ?m _ = _ => destruct m; cbn [bind] in H; [|discriminate]
         end.
  apply Ok_inj in H. subst j. reflexivity.
Qed.

Lemma geometry_ok_some (g : option Geometry.t) : geometry_ok g = true -> is_some g = true.
Proof. destruct g; [reflexivity | discriminate]. Qed.

(** X21. In a robot read by [_parse_robot] every visual and every
    collision has a geometry with exactly one shape, and every joint has
    an axis.  So on an object holding such a robot [validate] gives a
    verdict exactly when every revolute or prismatic joint has a limit:
    the geometry checks never raise and never log. *)
Theorem parsed_robot_geometries (float_of_str : string -> option float)
  (e : element) (self : URDF.t) (validation_fn : option (list exn -> bool)) :
  _parse_robot float_of_str e = Ok (URDF.robot self) ->
  (forall l, In l (Robot.links (URDF.robot self)) ->
             List.forallb (fun v => geometry_ok (Visual.geometry v)) (Link.visuals l) = true
             /\ List.forallb (fun c => geometry_ok (Collision.geometry c))
                  (Link.collisions l) = true)
  /\ (forall j, In j (Robot.joints (URDF.robot self)) -> is_some (Joint.axis j) = true)
  /\ (joints_limited (URDF.robot self) = true
      <-> exists verdict, snd (validate self validation_fn) = Ok verdict).
Proof.
  intros Hp.
  assert (Hlinks : forall l, In l (Robot.links (URDF.robot self)) ->
             List.forallb (fun v => geometry_ok (Visual.geometry v)) (Link.visuals l) = true
             /\ List.forallb (fun c => geometry_ok (Collision.geometry c))
                  (Link.collisions l) = true).
  { unfold _parse_robot in Hp.
    destruct (Xml.attrib_getitem e "name"); cbn [bind] in Hp; [|discriminate].
    destruct (mapM (_parse_link float_of_str) (Xml.findall e "link"))
      as [ls|err] eqn:Hl; cbn [bind] in Hp; [|discriminate].
    destruct (mapM (_parse_joint float_of_str) (Xml.findall e "joint"))
      as [js|err] eqn:Hj; cbn [bind] in Hp; [|discriminate].
    apply Ok_inj in Hp. rewrite <- Hp. cbn [Robot.links].
    pose proof (mapM_all _ _ _ _ (parse_link_geometries float_of_str) Hl) as Hall.
    rewrite List.Forall_forall in Hall. exact Hall. }
  split; [exact Hlinks|]. split.
  - unfold _parse_robot in Hp.
    destruct (Xml.attrib_getitem e "name"); cbn [bind] in Hp; [|discriminate].
    destruct (mapM (_parse_link float_of_str) (Xml.findall e "link"))
      as [ls|err] eqn:Hl; cbn [bind] in Hp; [|discriminate].
    destruct (mapM (_parse_joint float_of_str) (Xml.findall e "joint"))
      as [js|err] eqn:Hj; cbn [bind] in Hp; [|discriminate].
    apply Ok_inj in Hp. rewrite <- Hp. cbn [Robot.joints].
    pose proof (mapM_all _ (fun j => is_some (Joint.axis j) = true) _ _
                  (parse_joint_axis float_of_str) Hj) as Hall.
    rewrite List.Forall_forall in Hall. exact Hall.
  - assert (Hgeo : List.forallb
             (fun l => List.forallb (fun v => is_some (Visual.geometry v)) (Link.visuals l)
                       && List.forallb (fun c => is_some (Collision.geometry c))
                            (Link.collisions l))
             (Robot.links (URDF.robot self)) = true).
    { apply List.forallb_forall. intros l Hl. destruct (Hlinks l Hl) as [Hv Hc].
      rewrite List.forallb_forall in Hv, Hc.
      apply andb_true_intro. split; apply List.forallb_forall; intros x Hx;
        apply geometry_ok_some; [apply Hv | apply Hc]; exact Hx. }
    unfold validate, joints_limited.
    destruct (raised (_validate_robot (Some (URDF.robot self)) [])) as [ex|] eqn:E;
      cbn [snd].
    + split.
      * intros Hlim. rewrite (validate_robot_returns _ [] Hgeo Hlim) in E. discriminate.
      * intros [verdict H]. discriminate.
    + split.
      * intros _. eexists. reflexivity.
      * intros _. pose proof (validate_robot_returned _ _ E) as Hc.
        unfold robot_complete in Hc. apply andb_prop in Hc. exact (proj2 Hc).
Qed.

Lemma parsed_robot_geometries_without_limit :
  _parse_robot float_of_str_example xml_revolute_without_limit
  = Ok (URDF.robot (blank_urdf robot_revolute_without_limit))
  /\ joints_limited (URDF.robot (blank_urdf robot_revolute_without_limit)) = false
  /\ ~ exists verdict,
         snd (validate (blank_urdf robot_revolute_without_limit) None) = Ok verdict.
Proof.
  assert (Hp : _parse_robot float_of_str_example xml_revolute_without_limit
               = Ok (URDF.robot (blank_urdf robot_revolute_without_limit)))
    by (vm_compute; reflexivity).
  split; [exact Hp|]. split; [reflexivity|].
  destruct (parsed_robot_geometries float_of_str_example xml_revolute_without_limit
              (blank_urdf robot_revolute_without_limit) None Hp) as (_ & _ & Hiff).
  intros Hv. apply Hiff in Hv. vm_compute in Hv. discriminate.
Defined.

Lemma filter_filter_same {A : Type} (p q : A -> bool) (xs : list A) :
  (forall x, p x = true -> q x = true) ->
  List.filter p (List.filter q xs) = List.filter p xs.
Proof.
  intros H. induction xs as [|x rest IH]; [reflexivity|].
  simpl. destruct (q x) eqn:Eq; simpl.
  - destruct (p x); rewrite IH; reflexivity.
  - destruct (p x) eqn:Ep; [rewrite (H x Ep) in Eq; discriminate | exact IH].
Qed.

(** X22. [_parse_robot] reads the [name] attribute and the [link] and
    [joint] children of the element only: other attributes and other
    children (transmissions, gazebo elements, materials) change nothing,
    and the robot read has empty transmission and gazebo lists. *)
Theorem parse_robot_ignores_other_children (float_of_str : string -> option float)
  (tag : string) (attrib : list (string * string)) (children : list element) :
  _parse_robot float_of_str (Element tag attrib children)
  = _parse_robot float_of_str
      (Element "robot" (match Xml.lookup "name" attrib with
                        | Some n => [("name", n)]
                        | None => []
                        end)
         (List.filter link_or_joint children))
  /\ (forall robot,
         _parse_robot float_of_str (Element tag attrib children) = Ok robot ->
         Robot.transmission robot = [] /\ Robot.gazebo robot = []
         /\ List.length (Robot.links robot)
            = List.length (List.filter (fun c => String.eqb (Xml.tag c) "link") children)
         /\ List.length (Robot.joints robot)
            = List.length (List.filter (fun c => String.eqb (Xml.tag c) "joint") children)).
Proof.
  split.
  - unfold _parse_robot, Xml.findall, Xml.attrib_getitem, Xml.get.
    cbn [Xml.children Xml.attrib].
    rewrite !filter_filter_same.
    + destruct (Xml.lookup "name" attrib) as [n|]; [|reflexivity].
      cbn [Xml.lookup]. rewrite String.eqb_refl. reflexivity.
    + intros x Hx. unfold link_or_joint. rewrite Hx. apply orb_true_r.
    + intros x Hx. unfold link_or_joint. rewrite Hx. reflexivity.
  - intros robot H. unfold _parse_robot, Xml.findall in H. cbn [Xml.children] in H.
    destruct (Xml.attrib_getitem (Element tag attrib children) "name");
      cbn [bind] in H; [|discriminate].
    destruct (mapM (_parse_link float_of_str)
                (List.filter (fun c => String.eqb (Xml.tag c) "link") children))
      as [ls|err] eqn:Hl; cbn [bind] in H; [|discriminate].
    destruct (mapM (_parse_joint float_of_str)
                (List.filter (fun c => String.eqb (Xml.tag c) "joint") children))
      as [js|err] eqn:Hj; cbn [bind] in H; [|discriminate].
    apply Ok_inj in H. subst robot. cbn [Robot.transmission Robot.gazebo Robot.links
                                         Robot.joints].
    assert (Hlen : forall (A B : Type) (f : A -> result B) xs ys,
               mapM f xs = Ok ys -> List.length ys = List.length xs).
    { intros A B f xs. induction xs as [|x rest IH]; intros ys Hm.
      - apply Ok_inj in Hm. subst ys. reflexivity.
      - destruct (mapM_cons_inv _ _ _ _ Hm) as (y & ys' & _ & Hrest & Heq). subst ys.
        simpl. rewrite (IH ys' Hrest). reflexivity. }
    split; [reflexivity|]. split; [reflexivity|].
    split; [exact (Hlen _ _ _ _ _ Hl) | exact (Hlen _ _ _ _ _ Hj)].
Qed.

(* ================================================================== *)
(** * Construction and file checks *)
(* ================================================================== *)

(** X23. Without a scene graph to build, [__init__] does not look at the
    link structure: for every robot whose default configuration is
    defined it returns, also when a joint's child names no link.  The
    object holds the robot, the default configuration, the actuated
    joints, an empty error log, and neither a base link nor a scene. *)
Theorem init_without_scene_graph (a : init_args) (r : Robot.t) :
  arg_robot a = Some r ->
  arg_build_scene_graph a = false ->
  arg_build_collision_scene_graph a = false ->
  default_cfg_defined r = true ->
  exists self cfg,
    URDF__init__ a = Ok self
    /\ URDF.robot self = r
    /\ get_default_cfg (blank_urdf r) = Ok cfg
    /\ URDF._cfg self = cfg
    /\ URDF._actuated_joints self = List.filter is_actuated (Robot.joints r)
    /\ URDF._base_link self = None
    /\ URDF._errors self = []
    /\ URDF._scene self = None
    /\ URDF._scene_collision self = None.
Proof.
  intros Hr Hs Hc Hdef.
  destruct (default_config_rows_defined (blank_urdf r) Hdef) as [rows Hrows].
  assert (Hcfg : get_default_cfg (blank_urdf r) = Ok (np_array_flatten rows)).
  { unfold get_default_cfg. rewrite Hrows. reflexivity. }
  unfold URDF__init__. rewrite Hr, Hs, Hc. cbn [orb].
  match goal with
  | |- context [get_default_cfg ?s] =>
      rewrite (get_default_cfg_robot s (blank_urdf r) eq_refl)
  end.
  rewrite Hcfg. cbn [bind].
  eexists. eexists. split; [reflexivity|].
  cbn [URDF.robot URDF._cfg URDF._actuated_joints URDF._base_link URDF._errors
       URDF._scene URDF._scene_collision URDF.set_scene_collision URDF.set_scene
       URDF.set_errors URDF.set_base_link URDF.set_cfg _update_actuated_joints
       URDF.set_actuated _create_maps URDF.set_maps].
  split; [reflexivity|]. split; [reflexivity|]. split; [reflexivity|].
  split; [apply filter_enumerated|]. repeat split.
Qed.

Lemma init_without_scene_graph_dangling :
  is_ok (URDF__init__ (args_for robot_dangling_child)) = false
  /\ exists self cfg,
       URDF__init__ (mk_args (Some robot_dangling_child) false false true false None "")
       = Ok self
       /\ URDF.robot self = robot_dangling_child
       /\ get_default_cfg (blank_urdf robot_dangling_child) = Ok cfg
       /\ URDF._cfg self = cfg
       /\ URDF._actuated_joints self
          = List.filter is_actuated (Robot.joints robot_dangling_child)
       /\ URDF._base_link self = None
       /\ URDF._errors self = []
       /\ URDF._scene self = None
       /\ URDF._scene_collision self = None.
Proof.
  split; [vm_compute; reflexivity|].
  apply (init_without_scene_graph
           (mk_args (Some robot_dangling_child) false false true false None "")
           robot_dangling_child); reflexivity.
Defined.

Lemma link_meshes_present (l : Link.t) :
  List.forallb is_some (link_geometries l) = true ->
  exists ms,
    link_meshes l = Ok ms
    /\ List.map Mesh.filename ms
       = List.concat
           (List.map
              (fun g => match g with
                        | Some g' =>
                            match Geometry.mesh g' with
                            | Some m => [Mesh.filename m]
                            | None => []
                            end
                        | None => []
                        end)
              (link_geometries l)).
Proof.
  unfold link_meshes, link_geometries.
  generalize (List.map Collision.geometry (Link.collisions l)
              ++ List.map Visual.geometry (Link.visuals l)).
  intros gs H.
  assert (Hm : mapM geometry_mesh gs
               = Ok (List.map (fun g => match g with
                                        | Some g' => Geometry.mesh g'
                                        | None => None
                                        end) gs)).
  { induction gs as [|g rest IH]; [reflexivity|].
    simpl in H. apply andb_prop in H. destruct H as [Hg Hrest].
    destruct g as [g|]; [|discriminate].
    cbn [mapM geometry_mesh bind List.map]. rewrite (IH Hrest). reflexivity. }
  rewrite Hm. cbn [bind]. eexists. split; [reflexivity|].
  clear Hm. induction gs as [|g rest IH]; [reflexivity|].
  simpl in H. apply andb_prop in H. destruct H as [Hg Hrest].
  destruct g as [g|]; [|discriminate].
  cbn [List.map List.concat]. rewrite List.map_app, (IH Hrest).
  destruct (Geometry.mesh g); reflexivity.
Qed.

Lemma meshes_are_files_named (isfile : string -> bool) (h : filename_handler_t)
  (ms : list Mesh.t) :
  List.forallb is_some (List.map Mesh.filename ms) = true ->
  meshes_are_files isfile h ms
  = Ok (List.forallb (resolves isfile h) (List.map Mesh.filename ms)).
Proof.
  induction ms as [|m rest IH]; intros H; [reflexivity|].
  simpl in H. apply andb_prop in H. destruct H as [Hm Hrest].
  cbn [meshes_are_files List.map List.forallb]. unfold mesh_is_file.
  destruct (Mesh.filename m) as [s|]; [|discriminate].
  cbn [bind resolves].
  destruct (isfile (call_filename_handler isfile h s)); [exact (IH Hrest) | reflexivity].
Qed.

Lemma forallb_concat {A : Type} (p : A -> bool) (xss : list (list A)) :
  List.forallb p (List.concat xss) = List.forallb (List.forallb p) xss.
Proof.
  induction xss as [|xs rest IH]; [reflexivity|].
  simpl. rewrite List.forallb_app, IH. reflexivity.
Qed.

(** X24. When every collision and visual has a geometry and every mesh a
    file name, [validate_filenames] returns, and it returns [True] exactly
    when every mesh file name, passed through the object's filename
    handler, names an existing file; a robot without meshes passes. *)
Theorem validate_filenames_all_resolve (isfile : string -> bool) (self : URDF.t) :
  List.forallb (fun l => List.forallb is_some (link_geometries l))
    (Robot.links (URDF.robot self)) = true ->
  List.forallb is_some (mesh_filenames (URDF.robot self)) = true ->
  validate_filenames isfile self
  = Ok (List.forallb (resolves isfile (URDF._filename_handler self))
          (mesh_filenames (URDF.robot self))).
Proof.
  unfold validate_filenames, mesh_filenames.
  generalize (URDF._filename_handler self) as h.
  generalize (Robot.links (URDF.robot self)) as links.
  intros links h. induction links as [|l rest IH]; intros Hg Hn; [reflexivity|].
  simpl in Hg. apply andb_prop in Hg. destruct Hg as [Hl Hrest].
  cbn [List.map List.concat] in Hn |- *.
  rewrite List.forallb_app in Hn. apply andb_prop in Hn. destruct Hn as [Hnl Hnrest].
  destruct (link_meshes_present l Hl) as [ms [Hms Hnames]].
  cbn [validate_filenames_links]. rewrite Hms. cbn [bind].
  rewrite <- Hnames in Hnl |- *.
  rewrite (meshes_are_files_named isfile h ms Hnl). cbn [bind].
  rewrite List.forallb_app.
  destruct (List.forallb (resolves isfile h) (List.map Mesh.filename ms));
    [exact (IH Hrest Hnrest) | reflexivity].
Qed.

Lemma validate_filenames_all_resolve_mesh :
  validate_filenames (String.eqb "meshes/a.stl")
    (URDF.mk
       (Robot.mk "r"
          [Link.mk "l" None
             [Visual.mk None None
                (Some (Geometry.mk None None None (Some (Mesh.mk (Some "a.stl") None))))
                None]
             [Collision.mk None None
                (Some (Geometry.mk None None (Some (Sphere.mk 1.0%float)) None))]]
          [] [] [])
       (HandlerCustom (fun s => "meshes/" ^^ s)) [] [] [] [] [] None [] None None)
  = Ok true.
Proof.
  exact (validate_filenames_all_resolve (String.eqb "meshes/a.stl")
           (URDF.mk
              (Robot.mk "r"
                 [Link.mk "l" None
                    [Visual.mk None None
                       (Some (Geometry.mk None None None
                                (Some (Mesh.mk (Some "a.stl") None))))
                       None]
                    [Collision.mk None None
                       (Some (Geometry.mk None None (Some (Sphere.mk 1.0%float)) None))]]
                 [] [] [])
              (HandlerCustom (fun s => "meshes/" ^^ s)) [] [] [] [] [] None [] None None)
           eq_refl eq_refl).
Defined.

(** X25. [_write_inertia] writes the upper triangle of a 3x3 inertia
    matrix and [_parse_inertia] mirrors it: what is read back is the
    symmetric matrix of the printed upper triangle, whatever the lower
    triangle held. *)
Theorem write_parse_inertia (str_of_float : float -> string)
  (a b c d e f g h i : str_or_float) :
  exists el,
    _write_inertia str_of_float (Some [[a; b; c]; [d; e; f]; [g; h; i]]) = Ok [el]
    /\ _parse_inertia (Some el)
       = Some [[as_text str_of_float a; as_text str_of_float b; as_text str_of_float c];
               [as_text str_of_float b; as_text str_of_float e; as_text str_of_float f];
               [as_text str_of_float c; as_text str_of_float f; as_text str_of_float i]].
Proof.
  eexists. split; reflexivity.
Qed.

(** X26. A geometry whose first shape (in the order box, cylinder,
    sphere) is a box whose entries print as words, or a cylinder or sphere
    whose numbers read back from their printed form, is written as one
    element with that one shape, and parsed back to the geometry with that
    shape alone: further shapes are dropped, and the entries of a box come
    back as the text [str] prints for them (floats are read back as
    strings). *)
Theorem write_parse_geometry (float_of_str : string -> option float)
  (str_of_float : float -> string) (handler : string -> string)
  (handler_none : result (option string)) (g : Geometry.t) :
  shape_prints_back float_of_str str_of_float g ->
  exists e,
    _write_geometry str_of_float handler handler_none (Some g) = Ok [e]
    /\ _parse_geometry float_of_str (Some e) = Ok (first_shape str_of_float g).
Proof.
  unfold shape_prints_back, first_shape, _write_geometry.
  destruct g as [[[size]|] [[radius length]|] [[sradius]|] mesh];
    cbn [Geometry.box Geometry.cylinder Geometry.sphere Geometry.mesh
         Box.size Cylinder.radius Cylinder.length Sphere.radius bind];
    intros H; try contradiction;
    (eexists; split; [reflexivity|]);
    unfold _parse_geometry; cbn [Xml.first_child Xml.children bind _write_box
      _write_cylinder _write_sphere Xml.tag String.eqb Ascii.eqb Bool.eqb].
  1-4: unfold _parse_box, Xml.attrib_getitem, Xml.get;
       cbn [Xml.attrib Xml.lookup String.eqb Ascii.eqb Bool.eqb bind Box.size];
       rewrite (split_ws_join _ H); unfold as_text; rewrite List.map_map;
       reflexivity.
  1-2: destruct H as [Hr Hl];
       unfold _parse_cylinder, Xml.attrib_getitem, Xml.get, py_float;
       cbn [Xml.attrib Xml.lookup String.eqb Ascii.eqb Bool.eqb bind
            Cylinder.radius Cylinder.length];
       rewrite Hr; cbn [bind]; rewrite Hl; reflexivity.
  unfold _parse_sphere, Xml.attrib_getitem, Xml.get, py_float;
       cbn [Xml.attrib Xml.lookup String.eqb Ascii.eqb Bool.eqb bind Sphere.radius];
       rewrite H; reflexivity.
Qed.

Lemma write_parse_geometry_two_shapes :
  exists e,
    _write_geometry str_of_float_example (fun s => s) (Ok None)
      (Some (Geometry.mk (Some (Box.mk [PyFloat 1.0%float; PyStr "2"; PyFloat 1.0%float]))
               None (Some (Sphere.mk 2.0%float)) None)) = Ok [e]
    /\ _parse_geometry float_of_str_example (Some e)
       = Ok (Geometry.mk (Some (Box.mk [PyStr "1.0"; PyStr "2"; PyStr "1.0"]))
               None None None).
Proof.
  apply (write_parse_geometry float_of_str_example str_of_float_example (fun s => s)
           (Ok None)
           (Geometry.mk (Some (Box.mk [PyFloat 1.0%float; PyStr "2"; PyFloat 1.0%float]))
              None (Some (Sphere.mk 2.0%float)) None)).
  reflexivity.
Defined.

(* ================================================================== *)
(** * The elements [_write_joint] leaves out *)
(* ================================================================== *)

(** X27. [_write_mimic] needs the target name ([TypeError] without it)
    and prints multiplier and offset with [str], so an absent one is
    written as the text [None].  Where [float] rejects that text, the
    element is parsed back to the same mimic when multiplier and offset
    are present and read back from their printed form, and parsing it
    raises [ValueError] when one of them is absent. *)
Theorem write_parse_mimic (float_of_str : string -> option float)
  (str_of_float : float -> string) (m : Mimic.t) :
  float_of_str "None" = None ->
  (Mimic.joint m = None ->
   exists e, _write_mimic str_of_float m = Err e /\ exn_cls e = TypeError)
  /\ (forall j, Mimic.joint m = Some j ->
        exists el,
          _write_mimic str_of_float m = Ok [el]
          /\ (is_some (Mimic.multiplier m) && is_some (Mimic.offset m) = true ->
              opt_prints_back float_of_str str_of_float (Mimic.multiplier m) ->
              opt_prints_back float_of_str str_of_float (Mimic.offset m) ->
              _parse_mimic float_of_str (Some el) = Ok (Some m))
          /\ (is_some (Mimic.multiplier m) && is_some (Mimic.offset m) = false ->
              exists e, _parse_mimic float_of_str (Some el) = Err e
                        /\ exn_cls e = ValueError)).
Proof.
  intros Hnone. destruct m as [joint multiplier offset]. cbn [Mimic.joint
    Mimic.multiplier Mimic.offset]. split.
  - intros Hj. subst joint. eexists. split; reflexivity.
  - intros j Hj. subst joint. eexists. split; [reflexivity|].
    unfold _parse_mimic, Xml.get_or_float, Xml.get, _str2float, py_float.
    cbn [Xml.attrib Xml.lookup String.eqb Ascii.eqb Bool.eqb Mimic.joint
         Mimic.multiplier Mimic.offset py_str_opt].
    split.
    + intros Hboth Hm Ho.
      destruct multiplier as [x|], offset as [y|]; try discriminate.
      cbn [opt_prints_back py_str_opt] in *. rewrite Hm. cbn [bind]. rewrite Ho.
      reflexivity.
    + intros Hnot.
      destruct multiplier as [x|]; cbn [py_str_opt].
      * destruct (float_of_str (str_of_float x)); cbn [bind];
          [|eexists; split; reflexivity].
        destruct offset as [y|]; [discriminate|]. cbn [py_str_opt].
        rewrite Hnone. eexists. split; reflexivity.
      * rewrite Hnone. eexists. split; reflexivity.
Qed.

Lemma write_parse_mimic_pair :
  float_of_str_example "None" = None
  /\ exists el,
       _write_mimic str_of_float_example mimic_of_pair = Ok [el]
       /\ _parse_mimic float_of_str_example (Some el) = Ok (Some mimic_of_pair).
Proof.
  split; [reflexivity|].
  destruct (write_parse_mimic float_of_str_example str_of_float_example mimic_of_pair
              eq_refl) as [_ H].
  destruct (H "j1" eq_refl) as [el [Hw [Hp _]]].
  exists el. split; [exact Hw|]. apply Hp; reflexivity.
Defined.

(** X28. [_write_calibration] and [_write_safety_controller] print every
    field with [str], an absent one as the text [None].  Where [float]
    rejects that text, the element is parsed back to the same record when
    all fields are present and read back from their printed form, and
    parsing it raises [ValueError] when a field is absent. *)
Theorem write_parse_calibration_safety (float_of_str : string -> option float)
  (str_of_float : float -> string) (c : Calibration.t) (s : SafetyController.t) :
  float_of_str "None" = None ->
  (exists el,
      _write_calibration str_of_float c = [el]
      /\ (is_some (Calibration.rising c) && is_some (Calibration.falling c) = true ->
          opt_prints_back float_of_str str_of_float (Calibration.rising c) ->
          opt_prints_back float_of_str str_of_float (Calibration.falling c) ->
          _parse_calibration float_of_str (Some el) = Ok (Some c))
      /\ (is_some (Calibration.rising c) && is_some (Calibration.falling c) = false ->
          exists e, _parse_calibration float_of_str (Some el) = Err e
                    /\ exn_cls e = ValueError))
  /\ (exists el,
        _write_safety_controller str_of_float s = [el]
        /\ (is_some (SafetyController.soft_lower_limit s)
            && is_some (SafetyController.soft_upper_limit s)
            && is_some (SafetyController.k_position s)
            && is_some (SafetyController.k_velocity s) = true ->
            opt_prints_back float_of_str str_of_float (SafetyController.soft_lower_limit s) ->
            opt_prints_back float_of_str str_of_float (SafetyController.soft_upper_limit s) ->
            opt_prints_back float_of_str str_of_float (SafetyController.k_position s) ->
            opt_prints_back float_of_str str_of_float (SafetyController.k_velocity s) ->
            _parse_safety_controller float_of_str (Some el) = Ok (Some s))
        /\ (is_some (SafetyController.soft_lower_limit s)
            && is_some (SafetyController.soft_upper_limit s)
            && is_some (SafetyController.k_position s)
            && is_some (SafetyController.k_velocity s) = false ->
            exists e, _parse_safety_controller float_of_str (Some el) = Err e
                      /\ exn_cls e = ValueError)).
Proof.
  intros Hnone. split.
  - destruct c as [rising falling]. eexists. split; [reflexivity|].
    unfold _parse_calibration, Xml.get, _str2float, opt_str, py_float.
    cbn [Xml.attrib Xml.lookup String.eqb Ascii.eqb Bool.eqb
         Calibration.rising Calibration.falling].
    split.
    + intros Hall Hr Hf. destruct rising as [r|], falling as [fa|]; try discriminate.
      cbn [opt_prints_back py_str_opt] in *. rewrite Hr. cbn [bind]. rewrite Hf.
      reflexivity.
    + intros Hnot.
      destruct rising as [r|]; cbn [py_str_opt];
        [|rewrite Hnone; eexists; split; reflexivity].
      destruct (float_of_str (str_of_float r)); cbn [bind];
        [|eexists; split; reflexivity].
      destruct falling as [fa|]; [discriminate|]. cbn [py_str_opt].
      rewrite Hnone. eexists. split; reflexivity.
  - destruct s as [lo up kp kv]. eexists. split; [reflexivity|].
    unfold _parse_safety_controller, Xml.get, _str2float, opt_str, py_float.
    cbn [Xml.attrib Xml.lookup String.eqb Ascii.eqb Bool.eqb
         SafetyController.soft_lower_limit SafetyController.soft_upper_limit
         SafetyController.k_position SafetyController.k_velocity].
    split.
    + intros Hall H1 H2 H3 H4.
      destruct lo as [x1|], up as [x2|], kp as [x3|], kv as [x4|]; try discriminate.
      cbn [opt_prints_back py_str_opt] in *.
      rewrite H1. cbn [bind]. rewrite H2. cbn [bind]. rewrite H3. cbn [bind].
      rewrite H4. reflexivity.
    + intros Hnot.
      destruct lo as [x1|]; cbn [py_str_opt];
        [|rewrite Hnone; eexists; split; reflexivity].
      destruct (float_of_str (str_of_float x1)); cbn [bind];
        [|eexists; split; reflexivity].
      destruct up as [x2|]; cbn [py_str_opt];
        [|rewrite Hnone; eexists; split; reflexivity].
      destruct (float_of_str (str_of_float x2)); cbn [bind];
        [|eexists; split; reflexivity].
      destruct kp as [x3|]; cbn [py_str_opt];
        [|rewrite Hnone; eexists; split; reflexivity].
      destruct (float_of_str (str_of_float x3)); cbn [bind];
        [|eexists; split; reflexivity].
      destruct kv as [x4|]; [discriminate|]. cbn [py_str_opt].
      rewrite Hnone. eexists. split; reflexivity.
Qed.

Lemma write_parse_calibration_rising_only :
  float_of_str_example "None" = None
  /\ exists el e,
       _write_calibration str_of_float_example (Calibration.mk (Some 1.0%float) None) = [el]
       /\ _parse_calibration float_of_str_example (Some el) = Err e
       /\ exn_cls e = ValueError.
Proof.
  split; [reflexivity|].
  destruct (write_parse_calibration_safety float_of_str_example str_of_float_example
              (Calibration.mk (Some 1.0%float) None)
              (SafetyController.mk None None None None) eq_refl)
    as [[el [Hw [_ Hfail]]] _].
  destruct (Hfail eq_refl) as [e [He Hcls]].
  exists el, e. split; [exact Hw|]. split; [exact He | exact Hcls].
Defined.

Lemma mapM_length {A B : Type} (f : A -> result B) (xs : list A) (ys : list B) :
  mapM f xs = Ok ys -> List.length ys = List.length xs.
Proof.
  revert ys. induction xs as [|x rest IH]; intros ys H.
  - apply Ok_inj in H. subst ys. reflexivity.
  - destruct (mapM_cons_inv _ _ _ _ H) as (y & ys' & _ & Hrest & Heq). subst ys.
    simpl. rewrite (IH ys' Hrest). reflexivity.
Qed.

Lemma concat_singletons_length {A : Type} (P : A -> Prop) (xss : list (list A)) :
  List.Forall (fun xs => exists x, xs = [x] /\ P x) xss ->
  List.length (List.concat xss) = List.length xss
  /\ (forall x, In x (List.concat xss) -> P x).
Proof.
  induction 1 as [|xs rest [x [Hx HP]] _ [IHl IHp]]; [split; [reflexivity | intros x []]|].
  subst xs. simpl. split; [rewrite IHl; reflexivity|].
  intros y [Hy|Hy]; [subst y; exact HP | exact (IHp y Hy)].
Qed.

Lemma write_visual_shape (str_of_float : float -> string)
  (tra_t tra_e : matrix -> list float) (handler : string -> string)
  (handler_none : result (option string))
  (v : Visual.t) (els : list element) :
  _write_visual str_of_float tra_t tra_e handler handler_none v = Ok els ->
  exists e, els = [e] /\ (Xml.tag e = "visual" /\ Xml.attrib e = []).
Proof.
  unfold _write_visual. intros H.
  repeat match type of H with
         | bind ?m _ = _ => destruct m; cbn [bind] in H; [|discriminate]
         end.
  apply Ok_inj in H. subst els. eexists. split; [reflexivity|]. split; reflexivity.
Qed.

Lemma write_collision_shape (str_of_float : float -> string)
  (tra_t tra_e : matrix -> list float) (handler : string -> string)
  (handler_none : result (option string))
  (c : Collision.t) (els : list element) :
  _write_collision str_of_float tra_t tra_e handler handler_none c = Ok els ->
  exists e, els = [e] /\ (Xml.tag e = "collision" /\ Xml.attrib e = []).
Proof.
  unfold _write_collision. intros H.
  repeat match type of H with
         | bind ?m _ = _ => destruct m; cbn [bind] in H; [|discriminate]
         end.
  apply Ok_inj in H. subst els. eexists. split; [reflexivity|]. split; reflexivity.
Qed.

Lemma write_inertial_shape (str_of_float : float -> string)
  (tra_t tra_e : matrix -> list float) (i : option Inertial.t) (els : list element) :
  _write_inertial str_of_float tra_t tra_e i = Ok els ->
  (forall c, In c els -> Xml.tag c = "inertial") /\ (i = None -> els = []).
Proof.
  unfold _write_inertial. intros H. destruct i as [i|].
  - destruct (_write_inertia str_of_float (Inertial.inertia i)); cbn [bind] in H;
      [|discriminate].
    apply Ok_inj in H. subst els. split; [|discriminate].
    intros c [Hc|[]]. subst c. reflexivity.
  - apply Ok_inj in H. subst els. split; [intros c [] | reflexivity].
Qed.

Lemma parse_visual_name (float_of_str : string -> option float)
  (e : element) (v : Visual.t) :
  _parse_visual float_of_str e = Ok v -> Visual.name v = Xml.get e "name".
Proof.
  unfold _parse_visual. intros H.
  repeat match type of H with
         | bind ?m _ = _ => destruct m; cbn [bind] in H; [|discriminate]
         end.
  apply Ok_inj in H. subst v. reflexivity.
Qed.

Lemma parse_collision_name (float_of_str : string -> option float)
  (e : element) (c : Collision.t) :
  _parse_collision float_of_str e = Ok c -> Collision.name c = Xml.get e "name".
Proof.
  unfold _parse_collision. intros H.
  repeat match type of H with
         | bind ?m _ = _ => destruct m; cbn [bind] in H; [|discriminate]
         end.
  apply Ok_inj in H. subst c. reflexivity.
Qed.

Lemma mapM_In {A B : Type} (f : A -> result B) (xs : list A) (ys : list B) (y : B) :
  mapM f xs = Ok ys -> In y ys -> exists x, In x xs /\ f x = Ok y.
Proof.
  revert ys. induction xs as [|x rest IH]; intros ys H Hin.
  - apply Ok_inj in H. subst ys. contradiction.
  - destruct (mapM_cons_inv _ _ _ _ H) as (y0 & ys' & Hy0 & Hrest & Heq). subst ys.
    destruct Hin as [Heq|Hin].
    + subst y0. exists x. split; [left; reflexivity | exact Hy0].
    + destruct (IH ys' Hrest Hin) as [x' [Hx' Hf]].
      exists x'. split; [right; exact Hx' | exact Hf].
Qed.

Lemma mapM_shapes {A : Type} (write : A -> result (list element)) (P : element -> Prop)
  (xs : list A) (elss : list (list element)) :
  (forall x els, write x = Ok els -> exists e, els = [e] /\ P e) ->
  mapM write xs = Ok elss ->
  List.length (List.concat elss) = List.length xs
  /\ (forall e, In e (List.concat elss) -> P e).
Proof.
  intros Hw Hm.
  pose proof (mapM_all write (fun els => exists e, els = [e] /\ P e) xs elss Hw Hm) as Hall.
  destruct (concat_singletons_length P elss Hall) as [Hlen HP].
  split; [rewrite Hlen; exact (mapM_length _ _ _ Hm) | exact HP].
Qed.

(** X29. [_write_link] writes one element.  Whenever that element is
    parsed, the link read has the name of the link written and as many
    visuals and collisions; the names of the visuals and collisions are
    gone, since they are not written; and a link without inertial comes
    back without one. *)
Theorem write_parse_link (float_of_str : string -> option float)
  (str_of_float : float -> string) (tra_t tra_e : matrix -> list float)
  (handler : string -> string)
  (handler_none : result (option string)) (link : Link.t) (els : list element) :
  _write_link str_of_float tra_t tra_e handler handler_none link = Ok els ->
  exists e,
    els = [e]
    /\ forall link',
         _parse_link float_of_str e = Ok link' ->
         Link.name link' = Link.name link
         /\ List.length (Link.visuals link') = List.length (Link.visuals link)
         /\ List.length (Link.collisions link') = List.length (Link.collisions link)
         /\ (forall v, In v (Link.visuals link') -> Visual.name v = None)
         /\ (forall c, In c (Link.collisions link') -> Collision.name c = None)
         /\ (Link.inertial link = None -> Link.inertial link' = None).
Proof.
  unfold _write_link. intros H.
  destruct (_write_inertial str_of_float tra_t tra_e (Link.inertial link))
    as [inertial|err] eqn:Hi; cbn [bind] in H; [|discriminate].
  destruct (mapM (_write_visual str_of_float tra_t tra_e handler handler_none) (Link.visuals link))
    as [visuals|err] eqn:Hv; cbn [bind] in H; [|discriminate].
  destruct (mapM (_write_collision str_of_float tra_t tra_e handler handler_none) (Link.collisions link))
    as [collisions|err] eqn:Hc; cbn [bind] in H; [|discriminate].
  apply Ok_inj in H. subst els. eexists. split; [reflexivity|].
  destruct (write_inertial_shape _ _ _ _ _ Hi) as [Hitag Hinone].
  destruct (mapM_shapes _ (fun e => Xml.tag e = "visual" /\ Xml.attrib e = []) _ _
              (write_visual_shape str_of_float tra_t tra_e handler handler_none) Hv) as [Hvlen Hvtag].
  destruct (mapM_shapes _ (fun e => Xml.tag e = "collision" /\ Xml.attrib e = []) _ _
              (write_collision_shape str_of_float tra_t tra_e handler handler_none) Hc) as [Hclen Hctag].
  assert (Hfv : Xml.findall
                  (Element "link" [("name", Link.name link)]
                     (inertial ++ List.concat visuals ++ List.concat collisions)) "visual"
                = List.concat visuals).
  { unfold Xml.findall. cbn [Xml.children]. rewrite !List.filter_app.
    rewrite (filter_none _ inertial), (filter_id _ (List.concat visuals)),
      (filter_none _ (List.concat collisions)).
    - apply List.app_nil_r.
    - intros c Hin. rewrite (proj1 (Hctag c Hin)). reflexivity.
    - intros c Hin. rewrite (proj1 (Hvtag c Hin)). reflexivity.
    - intros c Hin. rewrite (Hitag c Hin). reflexivity. }
  assert (Hfc : Xml.findall
                  (Element "link" [("name", Link.name link)]
                     (inertial ++ List.concat visuals ++ List.concat collisions)) "collision"
                = List.concat collisions).
  { unfold Xml.findall. cbn [Xml.children]. rewrite !List.filter_app.
    rewrite (filter_none _ inertial), (filter_none _ (List.concat visuals)),
      (filter_id _ (List.concat collisions)).
    - reflexivity.
    - intros c Hin. rewrite (proj1 (Hctag c Hin)). reflexivity.
    - intros c Hin. rewrite (proj1 (Hvtag c Hin)). reflexivity.
    - intros c Hin. rewrite (Hitag c Hin). reflexivity. }
  intros link' Hp. unfold _parse_link in Hp. rewrite Hfv, Hfc in Hp.
  change (Xml.attrib_getitem
            (Element "link" [("name", Link.name link)]
               (inertial ++ List.concat visuals ++ List.concat collisions)) "name")
    with (@Ok string (Link.name link)) in Hp.
  cbn [bind] in Hp.
  destruct (_parse_inertial float_of_str
              (Xml.find
                 (Element "link" [("name", Link.name link)]
                    (inertial ++ List.concat visuals ++ List.concat collisions))
                 "inertial")) as [inertial'|err] eqn:Hpi; cbn [bind] in Hp; [|discriminate].
  destruct (mapM (_parse_visual float_of_str) (List.concat visuals))
    as [visuals'|err] eqn:Hpv; cbn [bind] in Hp; [|discriminate].
  destruct (mapM (_parse_collision float_of_str) (List.concat collisions))
    as [collisions'|err] eqn:Hpc; cbn [bind] in Hp; [|discriminate].
  apply Ok_inj in Hp. subst link'.
  cbn [Link.name Link.visuals Link.collisions Link.inertial].
  split; [reflexivity|].
  split; [rewrite (mapM_length _ _ _ Hpv); exact Hvlen|].
  split; [rewrite (mapM_length _ _ _ Hpc); exact Hclen|].
  split; [|split].
  - intros v Hin. destruct (mapM_In _ _ _ _ Hpv Hin) as [e [He Hpe]].
    rewrite (parse_visual_name _ _ _ Hpe). unfold Xml.get.
    rewrite (proj2 (Hvtag e He)). reflexivity.
  - intros c Hin. destruct (mapM_In _ _ _ _ Hpc Hin) as [e [He Hpe]].
    rewrite (parse_collision_name _ _ _ Hpe). unfold Xml.get.
    rewrite (proj2 (Hctag e He)). reflexivity.
  - intros Hnone. rewrite (Hinone Hnone) in Hpi.
    assert (Hfind : Xml.find
                      (Element "link" [("name", Link.name link)]
                         ([] ++ List.concat visuals ++ List.concat collisions)) "inertial"
                    = None).
    { unfold Xml.find. cbn [Xml.children List.app].
      destruct (List.find (fun c => String.eqb (Xml.tag c) "inertial")
                  (List.concat visuals ++ List.concat collisions)) as [c|] eqn:Hf;
        [|reflexivity].
      apply List.find_some in Hf. destruct Hf as [Hin Htag].
      apply List.in_app_or in Hin. destruct Hin as [Hin|Hin].
      - rewrite (proj1 (Hvtag c Hin)) in Htag. discriminate.
      - rewrite (proj1 (Hctag c Hin)) in Htag. discriminate. }
    rewrite Hfind in Hpi. apply Ok_inj in Hpi. symmetry. exact Hpi.
Qed.

Lemma write_parse_link_named_visual :
  exists e link',
    _write_link str_of_float_example (fun _ => [1.0%float]) (fun _ => [1.0%float])
      (fun s => s) (Ok None)
      (Link.mk "l" None
         [Visual.mk (Some "shell") None
            (Some (Geometry.mk None None (Some (Sphere.mk 1.0%float)) None)) None] [])
    = Ok [e]
    /\ _parse_link float_of_str_example e = Ok link'
    /\ Link.name link' = "l"
    /\ List.length (Link.visuals link') = 1
    /\ (forall v, In v (Link.visuals link') -> Visual.name v = None).
Proof.
  assert (Hw : _write_link str_of_float_example (fun _ => [1.0%float])
                 (fun _ => [1.0%float]) (fun s => s) (Ok None)
                 (Link.mk "l" None
                    [Visual.mk (Some "shell") None
                       (Some (Geometry.mk None None (Some (Sphere.mk 1.0%float)) None))
                       None] [])
               = Ok [Element "link" [("name", "l")]
                       [Element "visual" []
                          [Element "geometry" []
                             [Element "sphere" [("radius", "1.0")] []]]]])
    by (vm_compute; reflexivity).
  assert (Hp : _parse_link float_of_str_example
                 (Element "link" [("name", "l")]
                    [Element "visual" []
                       [Element "geometry" []
                          [Element "sphere" [("radius", "1.0")] []]]])
               = Ok (Link.mk "l" None
                       [Visual.mk None None
                          (Some (Geometry.mk None None (Some (Sphere.mk 1.0%float)) None))
                          None] []))
    by (vm_compute; reflexivity).
  destruct (write_parse_link float_of_str_example _ _ _ _ _ _ _ Hw) as [e [He Hall]].
  apply (f_equal (fun l => List.hd e l)) in He. simpl in He. subst e.
  destruct (Hall _ Hp) as (A1 & A2 & _ & A4 & _).
  eexists. eexists. split; [exact Hw|]. split; [exact Hp|].
  split; [exact A1|]. split; [exact A2 | exact A4].
Defined.

(* ================================================================== *)
(** * [update_cfg] on a dict *)
(* ================================================================== *)

(** What the joint map of an object whose maps are those [_create_maps]
    builds holds under a name: a joint of the robot with that name. *)
Lemma joint_map_lookup (self : URDF.t) (n : string) (j : Joint.t) :
  URDF._joint_map self = URDF._joint_map (_create_maps self) ->
  dict_getitem (URDF._joint_map self) n = Ok j ->
  In j (Robot.joints (URDF.robot self)) /\ Joint.name j = n.
Proof.
  intros Hmap H. rewrite Hmap in H. unfold dict_getitem, _create_maps in H.
  cbn [URDF._joint_map URDF.set_maps] in H.
  rewrite (dict_fold_get Joint.name) in H. cbn [dict_get] in H.
  destruct (find_last (fun x => String.eqb (Joint.name x) n)
              (Robot.joints (URDF.robot self))) as [j'|] eqn:F; [|discriminate].
  apply Ok_inj in H. subst j'. unfold find_last in F.
  apply List.find_some in F. destruct F as [Hin Hname].
  split; [apply List.in_rev; exact Hin | apply String.eqb_eq; exact Hname].
Qed.

Lemma build_dict_cfg (self : URDF.t) (d : list (dict_key * float))
  (acc joint_cfg : list (Joint.t * cell)) :
  URDF._joint_map self = URDF._joint_map (_create_maps self) ->
  foldM (fun joint_cfg kv =>
           match fst kv with
           | KeyStr joint =>
               j <- dict_getitem (URDF._joint_map self) joint ;;
               Ok (joint_cfg ++ [(j, Scalar (snd kv))])
           | KeyOther => Ok joint_cfg
           end) d acc = Ok joint_cfg ->
  List.map (fun jq => Joint.name (fst jq)) joint_cfg
  = List.map (fun jq => Joint.name (fst jq)) acc ++ dict_names d
  /\ (forall jq, In jq acc -> In jq joint_cfg)
  /\ (forall n x, In (KeyStr n, x) d ->
        exists j, In (j, Scalar x) joint_cfg /\ Joint.name j = n
                  /\ In j (Robot.joints (URDF.robot self))).
Proof.
  intros Hmap. revert acc. induction d as [|[k v] rest IH]; intros acc H.
  - apply Ok_inj in H. subst joint_cfg. unfold dict_names. cbn [List.map List.concat].
    rewrite List.app_nil_r. split; [reflexivity|]. split; [tauto | intros n x []].
  - cbn [foldM fst snd] in H. destruct k as [s|].
    + destruct (dict_getitem (URDF._joint_map self) s) as [j|err] eqn:Hs;
        cbn [bind] in H; [|discriminate].
      destruct (joint_map_lookup self s j Hmap Hs) as [Hjin Hjname].
      destruct (IH _ H) as (Hnames & Hkeep & Hfind).
      split; [|split].
      * rewrite Hnames, List.map_app, <- List.app_assoc. cbn [List.map List.app fst].
        rewrite Hjname. reflexivity.
      * intros jq Hin. apply Hkeep. apply List.in_or_app. left. exact Hin.
      * intros n x [Heq|Hin].
        -- inversion Heq; subst s. exists j. split; [|split; assumption].
           apply Hkeep. apply List.in_or_app. right. left.
           apply (f_equal (fun p => (j, Scalar (snd p)))) in Heq. exact Heq.
        -- exact (Hfind n x Hin).
    + cbn [bind] in H. destruct (IH _ H) as (Hnames & Hkeep & Hfind).
      split; [exact Hnames|]. split; [exact Hkeep|].
      intros n x [Heq|Hin]; [discriminate | exact (Hfind n x Hin)].
Qed.

(** X30. For an object with distinct joint names whose joint map is the
    one [_create_maps] builds, whenever [update_cfg] returns on a dict
    with distinct names, the entry of every named joint that is no mimic
    is the number the dict gives it; keys that are no strings are passed
    over. *)
Theorem update_cfg_dict (self self' : URDF.t) (d : list (dict_key * float)) :
  nodupb (joint_names self) = true ->
  URDF._joint_map self = URDF._joint_map (_create_maps self) ->
  nodupb (dict_names d) = true ->
  update_cfg self (CfgDict d) = Ok self' ->
  forall n x J,
    In (KeyStr n, x) d ->
    In J (Robot.joints (URDF.robot self)) ->
    Joint.name J = n ->
    Joint.mimic J = None ->
    exists i,
      Py.index (joint_names self) n = Ok i
      /\ List.nth_error (URDF._cfg self') i = Some (Scalar x).
Proof.
  intros Hnd Hmap Hkeys H n x J Hin HJ Hname Hm.
  apply nodupb_NoDup in Hnd. apply nodupb_NoDup in Hkeys.
  unfold update_cfg in H. cbn [build_joint_cfg] in H.
  match type of H with
  | bind ?m _ = _ => destruct m as [joint_cfg|err] eqn:Hb; cbn [bind] in H; [|discriminate]
  end.
  destruct (build_dict_cfg self d [] joint_cfg Hmap Hb) as (Hnames & _ & Hfind).
  cbn [List.map List.app] in Hnames.
  destruct (Hfind n x Hin) as [j [Hj [Hjname Hjin]]].
  assert (j = J).
  { apply (NoDup_map_eq Joint.name _ j J Hnd Hjin HJ). congruence. }
  subst j. destruct (List.In_nth_error _ _ Hj) as [k Hk].
  rewrite <- Hname.
  apply (updates_set_entry self self' joint_cfg k J (Scalar x) Hnd); try assumption.
  rewrite Hnames. exact Hkeys.
Qed.

Lemma update_cfg_dict_pair :
  update_cfg (urdf_of robot_mimic_pair) (CfgDict [(KeyOther, 1.0%float);
                                                  (KeyStr "j1", 0.25%float)])
  = Ok (updated (urdf_of robot_mimic_pair) (CfgDict [(KeyOther, 1.0%float);
                                                     (KeyStr "j1", 0.25%float)]))
  /\ exists i,
       Py.index (joint_names (urdf_of robot_mimic_pair)) "j1" = Ok i
       /\ List.nth_error
            (URDF._cfg (updated (urdf_of robot_mimic_pair)
                          (CfgDict [(KeyOther, 1.0%float); (KeyStr "j1", 0.25%float)]))) i
          = Some (Scalar 0.25%float).
Proof.
  assert (H : update_cfg (urdf_of robot_mimic_pair)
                (CfgDict [(KeyOther, 1.0%float); (KeyStr "j1", 0.25%float)])
              = Ok (updated (urdf_of robot_mimic_pair)
                      (CfgDict [(KeyOther, 1.0%float); (KeyStr "j1", 0.25%float)])))
    by (vm_compute; reflexivity).
  split; [exact H|].
  assert (Hnd : nodupb (joint_names (urdf_of robot_mimic_pair)) = true)
    by (vm_compute; reflexivity).
  assert (Hmap : URDF._joint_map (urdf_of robot_mimic_pair)
                 = URDF._joint_map (_create_maps (urdf_of robot_mimic_pair)))
    by (vm_compute; reflexivity).
  assert (Hkeys : nodupb (dict_names [(KeyOther, 1.0%float); (KeyStr "j1", 0.25%float)])
                  = true) by reflexivity.
  apply (update_cfg_dict (urdf_of robot_mimic_pair) _ _ Hnd Hmap Hkeys H "j1" 0.25%float
           (List.hd joint_j2 (Robot.joints robot_mimic_pair))).
  - right. left. reflexivity.
  - vm_compute. left. reflexivity.
  - reflexivity.
  - reflexivity.
Defined.
